(** * Flight monitor: fare-search orchestration and result normalisation

    A shallow embedding of [monitor.py] and [scraper.py].

    - Python [float] is IEEE-754 binary64: it is modelled by [spec_float]
      (the Gallina specification of binary floating point of the standard
      library) at precision 53 and maximal exponent 1024, with correctly
      rounded operations.
    - Python [str] is modelled by [string]: the sequence of the bytes of its
      UTF-8 encoding.  The code only inspects ASCII characters (digits, [.],
      [,], ASCII letters); every other byte is treated as "some other
      character".  (Python's [\d] and [str.lower] also act on non-ASCII digits
      and letters; such inputs are outside the model.)
    - [datetime.date] is modelled by its proleptic Gregorian ordinal, with the
      range [0001-01-01 .. 9999-12-31] of the Python type: arithmetic that
      leaves the range raises [OverflowError].  A date string produced by
      [strftime] and read back by [strptime] (the run only formats dates
      after today, of four-digit years) is represented by the date itself;
      the two date strings of the configuration are taken already parsed.
    - Exceptions are explicit: fallible code returns a [fallible] value.
    - The [while] loop of the date sampler runs on fuel. *)

From Stdlib Require Import ZArith List String Ascii Bool Lia.
From Stdlib Require Import Sorted Permutation.
From Stdlib Require Import SpecFloat PrimFloat FloatOps.
From Stdlib Require Import Decimal DecimalString DecimalNat.
Import ListNotations.

Local Open Scope string_scope.
Local Open Scope list_scope.
Local Open Scope Z_scope.

Set Warnings "-inexact-float".

(* ================================================================== *)
(** * Exceptions *)

Inductive exn : Type :=
| ValueError
| OverflowError
| ZeroDivisionError
| TimeoutError      (* playwright: navigation, selector or load-state wait *)
| PlaywrightError.  (* playwright: any other browser or evaluation failure *)

Inductive fallible (A : Type) : Type :=
| Ok (a : A)
| Raise (e : exn).
Arguments Ok {A} a.
Arguments Raise {A} e.

Definition bind {A B} (r : fallible A) (k : A -> fallible B) : fallible B :=
  match r with
  | Ok a => k a
  | Raise e => Raise e
  end.

Notation "x <- r ;; k" := (bind r (fun x => k))
  (at level 61, r at next level, right associativity).

(* ================================================================== *)
(** * Python floats *)

Module PyFloat.

Definition prec : Z := 53.
Definition emax : Z := 1024.

Definition float := spec_float.

Definition is_nan (x : float) : bool :=
  match x with S754_nan => true | _ => false end.

Definition is_finite (x : float) : bool :=
  match x with S754_zero _ | S754_finite _ _ _ => true | _ => false end.

Definition is_zero (x : float) : bool :=
  match x with S754_zero _ => true | _ => false end.

(** [x == y], [x < y] and [x <= y] on floats. *)
Definition eqb (x y : float) : bool := SFeqb x y.
Definition ltb (x y : float) : bool := SFltb x y.
Definition leb (x y : float) : bool := SFleb x y.

(** The double nearest to [m / d] (ties to even), for [0 <= m].  This is
    what C's [strtod] computes from a decimal numeral [m / 10^k]
    (overflow gives [inf], underflow a subnormal or [0.0]). *)
Definition of_ratio (sign : bool) (m : Z) (d : positive) : float :=
  match m with
  | Zpos p => SFdiv prec emax (S754_finite sign p 0) (S754_finite false d 0)
  | _ => S754_zero sign
  end.

(** [float(n)] for a Python [int]: the nearest double, [OverflowError]
    when it is out of range ([PyLong_AsDouble]). *)
Definition of_int (n : Z) : fallible float :=
  let x := binary_normalize prec emax n 0 false in
  if is_finite x then Ok x else Raise OverflowError.

(** [x / n] for a float [x] and an int [n] (true division). *)
Definition div_int (x : float) (n : Z) : fallible float :=
  y <- of_int n ;;
  if is_zero y then Raise ZeroDivisionError
  else Ok (SFdiv prec emax x y).

(** The integer nearest to [n / d], ties to the even one ([0 <= n]). *)
Definition div_half_even (n : Z) (d : Z) : Z :=
  let q := n / d in
  let r := n mod d in
  match 2 * r ?= d with
  | Lt => q
  | Gt => q + 1
  | Eq => if Z.even q then q else q + 1
  end.

(** [|x| * 100] rounded to an integer, ties to even, computed on the
    exact value [m * 2^e] of the double. *)
Definition hundredths (m : positive) (e : Z) : Z :=
  match e with
  | Zneg k => div_half_even (Zpos m * 100) (2 ^ Zpos k)
  | _ => Zpos m * 100 * 2 ^ e
  end.

(** [round(x, 2)]: [float.__round__] with [ndigits = 2].  NaN and the
    infinities round to themselves; a finite [x] is rounded, on its exact
    value and ties to even, to two decimals ([_Py_dg_dtoa] mode 3), and
    the decimal numeral obtained is read back as a double. *)
Definition round2 (x : float) : float :=
  match x with
  | S754_finite s m e => of_ratio s (hundredths m e) 100
  | _ => x
  end.

(** A float literal of the source or of the specification. *)
Definition lit (f : PrimFloat.float) : float := Prim2SF f.

End PyFloat.

(* ================================================================== *)
(** * Python strings *)

Module PyStr.

Definition is_digit (c : ascii) : bool :=
  let n := nat_of_ascii c in (48 <=? n)%nat && (n <=? 57)%nat.

Definition digit_value (c : ascii) : Z := Z.of_nat (nat_of_ascii c) - 48.

Fixpoint filter (p : ascii -> bool) (s : string) : string :=
  match s with
  | EmptyString => EmptyString
  | String c r => if p c then String c (filter p r) else filter p r
  end.

Fixpoint forallb (p : ascii -> bool) (s : string) : bool :=
  match s with
  | EmptyString => true
  | String c r => p c && forallb p r
  end.

(** [c in s] for a one-character string [c]. *)
Fixpoint mem (c : ascii) (s : string) : bool :=
  match s with
  | EmptyString => false
  | String d r => Ascii.eqb c d || mem c r
  end.

(** [s.rindex(c)]: the index of the last [c] ([None]: Python raises
    [ValueError]). *)
Fixpoint rindex (c : ascii) (s : string) : option nat :=
  match s with
  | EmptyString => None
  | String d r =>
      match rindex c r with
      | Some i => Some (S i)
      | None => if Ascii.eqb c d then Some 0%nat else None
      end
  end.

(** [s.replace(c, t)] for a one-character string [c]. *)
Fixpoint replace (c : ascii) (t : string) (s : string) : string :=
  match s with
  | EmptyString => EmptyString
  | String d r => if Ascii.eqb c d then (t ++ replace c t r)%string
                  else String d (replace c t r)
  end.

(** [s.split(c)] for a one-character separator: never empty. *)
Fixpoint split (c : ascii) (s : string) : list string :=
  match s with
  | EmptyString => [EmptyString]
  | String d r =>
      if Ascii.eqb c d then EmptyString :: split c r
      else match split c r with
           | p :: ps => String d p :: ps
           | [] => [String d EmptyString]
           end
  end.

(** [s.lower()] on ASCII letters. *)
Definition lower_char (c : ascii) : ascii :=
  let n := nat_of_ascii c in
  if (65 <=? n)%nat && (n <=? 90)%nat then ascii_of_nat (n + 32) else c.

Fixpoint lower (s : string) : string :=
  match s with
  | EmptyString => EmptyString
  | String c r => String (lower_char c) (lower r)
  end.

(** [t in s]: substring test. *)
Fixpoint contains (t s : string) : bool :=
  String.prefix t s ||
  match s with
  | EmptyString => false
  | String _ r => contains t r
  end.

(** The longest prefix of digits, and the rest. *)
Fixpoint span_digits (s : string) : string * string :=
  match s with
  | String c r =>
      if is_digit c then let (d, t) := span_digits r in (String c d, t)
      else (EmptyString, s)
  | EmptyString => (EmptyString, EmptyString)
  end.

(** [int(s)] for a string of digits, from the accumulator [acc]. *)
Fixpoint int_of_digits (acc : Z) (s : string) : Z :=
  match s with
  | EmptyString => acc
  | String c r => int_of_digits (10 * acc + digit_value c) r
  end.

(** [re.search(r"(\d+)", s)]: the first maximal run of digits. *)
Fixpoint first_digit_run (s : string) : option string :=
  match s with
  | EmptyString => None
  | String c r =>
      if is_digit c then Some (fst (span_digits s))
      else first_digit_run r
  end.

Definition pow10 (k : nat) : positive := Nat.iter k (Pos.mul 10) 1%positive.

(** [float(s)] for a string [s] over digits and [.].  Such a string is
    a float numeral exactly when it has at least one digit and at most one
    point; otherwise [float] raises [ValueError].  (Signs, exponents,
    blanks, underscores, [inf] and [nan] need other characters:
    [parse_price] never passes them, see [cleaned_alphabet] below.) *)
Definition float_of_decimal (s : string) : fallible PyFloat.float :=
  let (ip, rest) := span_digits s in
  match rest with
  | EmptyString =>
      match ip with
      | EmptyString => Raise ValueError
      | _ => Ok (PyFloat.of_ratio false (int_of_digits 0 ip) 1)
      end
  | String c fp =>
      if Ascii.eqb c "."
         && forallb is_digit fp
         && negb (String.eqb ip "" && String.eqb fp "")
      then Ok (PyFloat.of_ratio false (int_of_digits 0 (ip ++ fp)%string)
                 (pow10 (String.length fp)))
      else Raise ValueError
  end.

End PyStr.

(* ================================================================== *)
(** * Dates *)

Module Dates.

(** A [datetime.date], as its proleptic Gregorian ordinal
    ([date.toordinal()]). *)
Definition date := Z.

Definition MINORD : Z := 1.          (* date.min = 0001-01-01 *)
Definition MAXORD : Z := 3652059.    (* date.max = 9999-12-31 *)
Definition MAX_DELTA_DAYS : Z := 999999999.

(** [timedelta(days=n)]: [OverflowError] beyond 999999999 days. *)
Definition timedelta (n : Z) : fallible Z :=
  if (- MAX_DELTA_DAYS <=? n) && (n <=? MAX_DELTA_DAYS) then Ok n
  else Raise OverflowError.

(** [d + delta]: [OverflowError] when the date leaves [date.min ..
    date.max]. *)
Definition add (d : date) (delta : Z) : fallible date :=
  let o := d + delta in
  if (MINORD <=? o) && (o <=? MAXORD) then Ok o else Raise OverflowError.

(** [d + timedelta(days=n)]. *)
Definition add_days (d : date) (n : Z) : fallible date :=
  delta <- timedelta n ;; add d delta.

End Dates.

(* ================================================================== *)
(** * Price / stop normaliser ([monitor.py]) *)

Module Normalizer.
Import PyStr.

(** The characters kept by [re.sub(r"[^\d.,]", "", s)]. *)
Definition price_char (c : ascii) : bool :=
  is_digit c || Ascii.eqb c "." || Ascii.eqb c ",".

(** [parts[-1]] of a non-empty list of strings. *)
Definition last_part (parts : list string) : string := List.last parts "".

(** The string handed to [float] by [parse_price]. *)
Definition clean_price (price_str : string) : string :=
  let cleaned := filter price_char price_str in
  if mem "," cleaned && mem "." cleaned then
    match rindex "," cleaned, rindex "." cleaned with
    | Some ic, Some ip =>
        if (ip <? ic)%nat
        then replace "," "." (replace "." "" cleaned)
        else replace "," "" cleaned
    | _, _ => cleaned (* unreachable: both characters occur *)
    end
  else if mem "," cleaned then
    let parts := split "," cleaned in
    if (String.length (last_part parts) =? 3)%nat
    then replace "," "" cleaned
    else replace "," "." cleaned
  else cleaned.

(** [parse_price]: [None] is Python's [None]. *)
Definition parse_price (price_str : string) : option PyFloat.float :=
  match price_str with
  | EmptyString => None
  | _ =>
      match float_of_decimal (clean_price price_str) with
      | Ok x => Some x
      | Raise _ => None
      end
  end.

(** [parse_stops]. *)
Definition parse_stops (stops_str : string) : Z :=
  match stops_str with
  | EmptyString => 0
  | _ =>
      let s := lower stops_str in
      if contains "nonstop" s || contains "dirett" s then 0
      else match first_digit_run s with
           | Some ds => int_of_digits 0 ds
           | None => 0
           end
  end.

End Normalizer.

(* ================================================================== *)
(** * Configuration ([config.json], as consumed by the core) *)

Record config : Type := {
  origins : list string;
  destination : string;
  date_from : Dates.date;               (* parsed by strptime *)
  date_to : Dates.date;
  nights_min : Z;
  nights_max : Z;
  sample_every_n_days : option Z;       (* config.get(..., 5) *)
  adults : Z;
  max_stops : Z
}.

(** How a computation that contains a [while] loop ends. *)
Inductive outcome (A : Type) : Type :=
| Returned (a : A)
| Raised (e : exn)
| OutOfFuel.
Arguments Returned {A} a.
Arguments Raised {A} e.
Arguments OutOfFuel {A}.

(* ================================================================== *)
(** * Date-pair sampler ([generate_date_pairs]) *)

Module Sampler.
Import Dates.

(** Google Flights shows results about 330 days ahead. *)
Definition MAX_DAYS_AHEAD : Z := 330.

(** A tuple (departure, return, nights). *)
Definition date_pair : Type := date * date * Z.

Definition pair_dep (p : date_pair) : date := fst (fst p).
Definition pair_ret (p : date_pair) : date := snd (fst p).
Definition pair_nights (p : date_pair) : Z := snd p.

(** [nights_options]: min and max, and the midpoint inserted at index 1
    when the span exceeds 2. *)
Definition nights_options (cfg : config) : list Z :=
  if cfg.(nights_max) - cfg.(nights_min) >? 2
  then [cfg.(nights_min); (cfg.(nights_min) + cfg.(nights_max)) / 2;
        cfg.(nights_max)]
  else [cfg.(nights_min); cfg.(nights_max)].

(** The body of [for nights in nights_options]. *)
Fixpoint for_nights (max_date current : date) (options : list Z)
    (pairs : list date_pair) : fallible (list date_pair) :=
  match options with
  | [] => Ok pairs
  | nights :: rest =>
      ret <- add_days current nights ;;
      for_nights max_date current rest
        (if ret <=? max_date then pairs ++ [(current, ret, nights)]
         else pairs)
  end.

(** [while current <= effective_end: ...], on fuel. *)
Fixpoint while_current (fuel : nat) (step : Z) (options : list Z)
    (effective_end max_date current : date) (pairs : list date_pair)
    : outcome (list date_pair) :=
  match fuel with
  | O => OutOfFuel
  | S fuel' =>
      if current <=? effective_end then
        match for_nights max_date current options pairs with
        | Raise e => Raised e
        | Ok pairs' =>
            match add_days current step with
            | Raise e => Raised e
            | Ok current' =>
                while_current fuel' step options effective_end max_date
                  current' pairs'
            end
        end
      else Returned pairs
  end.

Definition step_of (cfg : config) : Z :=
  match cfg.(sample_every_n_days) with Some n => n | None => 5 end.

(** [generate_date_pairs(config)], with [date.today()] as a parameter.
    Returns [(pairs, start, max_date)]. *)
Definition generate_date_pairs (fuel : nat) (today : date) (cfg : config)
    : outcome (list date_pair * date * date) :=
  let start := cfg.(date_from) in
  let end_ := cfg.(date_to) in
  match add_days today MAX_DAYS_AHEAD with
  | Raise e => Raised e
  | Ok max_date =>
      match add_days today 1 with
      | Raise e => Raised e
      | Ok tomorrow =>
          let effective_start := Z.max start tomorrow in
          let effective_end := Z.min end_ max_date in
          if effective_start >? effective_end
          then Returned ([], start, max_date)
          else
            match while_current fuel (step_of cfg) (nights_options cfg)
                    effective_end max_date effective_start [] with
            | Returned pairs => Returned (pairs, start, max_date)
            | Raised e => Raised e
            | OutOfFuel => OutOfFuel
            end
      end
  end.

End Sampler.

(* ================================================================== *)
(** * Listing extractor ([scraper.py]) *)

Module Extractor.

Record ScrapedFlight : Type := {
  airline : string;
  departure : string;
  arrival : string;
  duration : string;
  stops : string;
  price : string
}.

Record SearchResult : Type := {
  flights : list ScrapedFlight;
  raw_html : string
}.

(** [fast_flights.FlightData]: one leg of a query. *)
Record FlightData : Type := {
  fd_date : Dates.date;
  from_airport : string;
  to_airport : string
}.

Inductive trip : Type := OneWay | RoundTrip.

(** What the browser does during one fetch: the outcome of every
    Playwright call [_fetch_flights] makes.  The page itself (network,
    markup, the JavaScript run by [page.evaluate]) is outside the program;
    a script fixes how each call ends. *)
Record page_script : Type := {
  launch : fallible unit;       (* chromium.launch, new_context, new_page *)
  goto : fallible unit;              (* page.goto(url, timeout=30000) *)
  on_consent_host : bool;          (* "consent.google" in page.url *)
  button_count : string -> fallible nat;   (* locator(...).count() *)
  button_click : string -> fallible unit;  (* locator(...).first.click() *)
  wait_for_url : fallible unit;      (* page.wait_for_url, 15 s *)
  wait_for_selector : string -> fallible unit;
  wait_network_idle : fallible unit; (* wait_for_load_state("networkidle") *)
  evaluate_flights : fallible (list ScrapedFlight);  (* first page.evaluate *)
  evaluate_html : fallible string;   (* second page.evaluate *)
  close : fallible unit              (* browser.close() *)
}.

(** [for btn_text in labels: try: if count > 0: click; break
    except Exception: pass]: failures are swallowed, nothing is returned. *)
Fixpoint click_first (s : page_script) (labels : list string) : unit :=
  match labels with
  | [] => tt
  | btn_text :: rest =>
      match s.(button_count) btn_text with
      | Ok n =>
          if (0 <? n)%nat then
            match s.(button_click) btn_text with
            | Ok _ => tt                      (* break *)
            | Raise _ => click_first s rest   (* pass *)
            end
          else click_first s rest
      | Raise _ => click_first s rest         (* pass *)
      end
  end.

(** The result-container selectors, in priority order (written here
    without their inner quotation marks). *)
Definition selectors : list string :=
  ["[jsname=IWWDBc]"; "[jsname=YdtKid]"; "ul.Rk10dc"; "[role=main] li"].

(** [for sel in selectors: try: wait_for_selector; found = True; break
    except Exception: continue]. *)
Fixpoint wait_any (s : page_script) (sels : list string) : bool :=
  match sels with
  | [] => false
  | sel :: rest =>
      match s.(wait_for_selector) sel with
      | Ok _ => true
      | Raise _ => wait_any s rest
      end
  end.

(** The body of the [try] block of [_fetch_flights]. *)
Definition fetch_body (s : page_script)
    : fallible (list ScrapedFlight * string) :=
  _ <- s.(goto) ;;
  let _ :=
    if s.(on_consent_host) then
      let _ := click_first s
                 ["Accept all"; "Accetta tutto"; "Accept"; "Accetta"] in
      match s.(wait_for_url) with _ => tt end    (* except Exception: pass *)
    else tt in
  let _ := click_first s
             ["Accept all"; "Accetta tutto"; "Reject all"; "Accept"] in
  let found := wait_any s selectors in
  _ <- (if found then Ok tt else s.(wait_network_idle)) ;;
  flights_data <- s.(evaluate_flights) ;;
  raw <- s.(evaluate_html) ;;
  Ok (flights_data, raw).

(** [try: body finally: browser.close()]: an exception of [close]
    replaces the outcome of the body. *)
Definition try_finally {A} (body : fallible A) (final : fallible unit)
    : fallible A :=
  match final with
  | Ok _ => body
  | Raise e => Raise e
  end.

(** [_fetch_flights(url, timeout_ms)], against the script of the page. *)
Definition _fetch_flights (s : page_script) : fallible SearchResult :=
  _ <- s.(launch) ;;
  r <- try_finally (fetch_body s) s.(close) ;;
  Ok {| flights := fst r; raw_html := snd r |}.

End Extractor.

(* ================================================================== *)
(** * Search orchestrator ([monitor.py]) *)

Module Orchestrator.
Import Dates Normalizer Sampler.
Import Extractor(FlightData, Build_FlightData, trip, OneWay, RoundTrip,
                 SearchResult, ScrapedFlight, page_script, _fetch_flights).

Definition KNOWN_AIRPORTS : list (string * string) :=
  [("MXP", "Malpensa"); ("LIN", "Linate"); ("BGY", "Bergamo");
   ("MLE", "Malé"); ("FCO", "Fiumicino"); ("VCE", "Venezia");
   ("BLQ", "Bologna"); ("NAP", "Napoli"); ("PMO", "Palermo");
   ("CTA", "Catania"); ("TRN", "Torino"); ("FLR", "Firenze");
   ("PSA", "Pisa")].

Fixpoint dict_get {V} (k : string) (d : list (string * V)) : option V :=
  match d with
  | [] => None
  | (k', v) :: r => if String.eqb k k' then Some v else dict_get k r
  end.

(** [KNOWN_AIRPORTS.get(code, code)]. *)
Definition get_airport_name (code : string) : string :=
  match dict_get code KNOWN_AIRPORTS with
  | Some name => name
  | None => code
  end.

(** [s or "Diretto"]. *)
Definition or_diretto (s : string) : string :=
  match s with EmptyString => "Diretto" | _ => s end.

(** The dictionary built by [process_results] for one listing.  The two
    dates are kept as dates (the source stores them as [dd/mm/YYYY]). *)
Record offer : Type := {
  price_total : PyFloat.float;
  price_pp : PyFloat.float;
  dep_date : date;
  ret_date : date;
  dep_airport : string;
  dest_airport : string;
  origin_code : string;
  airline : string;
  departure : string;
  arrival : string;
  duration : string;
  stops : Z;
  stops_detail : string;
  nights : Z;
  link : string
}.

(** The dictionary returned by [search_return_flights]. *)
Record ret_info : Type := {
  ret_airline : string;
  ret_departure : string;
  ret_arrival : string;
  ret_duration : string;
  ret_stops : Z;
  ret_stops_detail : string
}.

(** An offer after the merge: the outbound keys and the six [ret_*] keys. *)
Record itinerary : Type := {
  outbound : offer;
  ret : ret_info
}.

(** What the run leaves in its log, as far as searching goes. *)
Inductive event : Type :=
| Searched (legs : list FlightData) (t : trip)  (* a search was issued *)
| ErrorLogged (e : exn).                        (* log("    Errore: ...") *)

(** [unique_returns]: a dict from (return date, origin) to a return-leg
    record or [None], in insertion order. *)
Definition return_key : Type := date * string.
Definition returns_dict : Type := list (return_key * option ret_info).

Definition return_key_eqb (a b : return_key) : bool :=
  (fst a =? fst b) && String.eqb (snd a) (snd b).

(** [d[k] = v]: an existing key keeps its place. *)
Fixpoint dict_set (k : return_key) (v : option ret_info) (d : returns_dict)
    : returns_dict :=
  match d with
  | [] => [(k, v)]
  | (k', v') :: r =>
      if return_key_eqb k k' then (k', v) :: r
      else (k', v') :: dict_set k v r
  end.

(** [d.get(k)]: [None] for a missing key and for a key mapped to [None]. *)
Fixpoint returns_get (k : return_key) (d : returns_dict) : option ret_info :=
  match d with
  | [] => None
  | (k', v) :: r => if return_key_eqb k k' then v else returns_get k r
  end.

Definition keys (d : returns_dict) : list return_key := map fst d.

Section Run.

(** [scraper.build_url(flight_data, trip, passengers, currency)], with
    the default seat class and no stop filter: the encoder of the
    [fast_flights] library, taken as a total, deterministic function of the
    query. *)
Variable build_url : list FlightData -> trip -> Z -> string -> string.

(** The outside world: the script of the page met by the [n]-th search of
    the run (counted from 0) at a given URL. *)
Variable world : nat -> string -> page_script.

Variable cfg : config.

(** [scraper.search_flights], as the [n]-th search of the run. *)
Definition search_flights (n : nat) (flight_data : list FlightData)
    (t : trip) (adults : Z) (currency : string) : fallible SearchResult :=
  _fetch_flights (world n (build_url flight_data t adults currency)).

(** [run_search]: the result or [None], and what was logged. *)
Definition run_search (n : nat) (flight_data : list FlightData)
    (t : trip) (adults : Z) : option SearchResult * list event :=
  match search_flights n flight_data t adults "EUR" with
  | Ok r => (Some r, [])
  | Raise e => (None, [ErrorLogged e])
  end.

Definition round_trip_legs (origin : string) (dep ret : date)
    : list FlightData :=
  [Build_FlightData dep origin cfg.(destination);
   Build_FlightData ret cfg.(destination) origin].

Definition one_way_legs (origin : string) (ret : date)
    : list FlightData :=
  [Build_FlightData ret cfg.(destination) origin].

(** The body of the loop of [search_return_flights]: the first listing
    within the stop limit. *)
Fixpoint first_within_stops (fs : list ScrapedFlight) : option ret_info :=
  match fs with
  | [] => None
  | f :: rest =>
      let num_stops := parse_stops f.(Extractor.stops) in
      if num_stops <=? cfg.(max_stops) then
        Some {| ret_airline := f.(Extractor.airline);
                ret_departure := f.(Extractor.departure);
                ret_arrival := f.(Extractor.arrival);
                ret_duration := f.(Extractor.duration);
                ret_stops := num_stops;
                ret_stops_detail := or_diretto f.(Extractor.stops) |}
      else first_within_stops rest
  end.

(** [search_return_flights(destination, origin, ret_date, adults,
    config)], as the [n]-th search of the run. *)
Definition search_return_flights (n : nat) (origin : string)
    (ret_date : date) : option ret_info * list event :=
  let (result, logged) :=
    run_search n (one_way_legs origin ret_date) OneWay cfg.(adults) in
  match result with
  | None => (None, logged)
  | Some r => (first_within_stops r.(Extractor.flights), logged)
  end.

(** The body of the loop of [process_results], from the list built so
    far. *)
Fixpoint process_listings (fs : list ScrapedFlight) (origin : string)
    (dep_date ret_date : date) (nights : Z) (flights : list offer)
    : fallible (list offer) :=
  match fs with
  | [] => Ok flights
  | f :: rest =>
      match parse_price f.(Extractor.price) with
      | None => process_listings rest origin dep_date ret_date nights flights
      | Some price =>
          price_pp <- PyFloat.div_int price cfg.(adults) ;;
          let num_stops := parse_stops f.(Extractor.stops) in
          if num_stops >? cfg.(max_stops) then
            process_listings rest origin dep_date ret_date nights flights
          else
            let flights_url :=
              build_url (round_trip_legs origin dep_date ret_date)
                RoundTrip cfg.(adults) "EUR" in
            process_listings rest origin dep_date ret_date nights
              (flights ++
               [{| price_total := price;
                   price_pp := PyFloat.round2 price_pp;
                   dep_date := dep_date;
                   ret_date := ret_date;
                   dep_airport := get_airport_name origin;
                   dest_airport := get_airport_name cfg.(destination);
                   origin_code := origin;
                   airline := f.(Extractor.airline);
                   departure := f.(Extractor.departure);
                   arrival := f.(Extractor.arrival);
                   duration := f.(Extractor.duration);
                   stops := num_stops;
                   stops_detail := or_diretto f.(Extractor.stops);
                   nights := nights;
                   link := flights_url |}])
      end
  end.

(** [process_results(result, origin, dep_date, ret_date, nights,
    config)]. *)
Definition process_results (result : option SearchResult)
    (origin : string) (dep_date ret_date : date) (nights : Z)
    : fallible (list offer) :=
  match result with
  | None => Ok []
  | Some r =>
      process_listings r.(Extractor.flights) origin dep_date ret_date
        nights []
  end.

(** ** Phase 1: outbound searches *)

Record phase1_state : Type := {
  search_count : nat;
  errors : nat;
  all_flights : list offer;
  trace : list event
}.

(** One iteration of the inner loop of phase 1. *)
Definition phase1_search (st : phase1_state) (origin : string)
    (p : date_pair) : fallible phase1_state :=
  let '(dep_date, ret_date, nights) := p in
  let legs := round_trip_legs origin dep_date ret_date in
  let (result, logged) :=
    run_search st.(search_count) legs RoundTrip cfg.(adults) in
  let trace' := (st.(trace) ++ Searched legs RoundTrip :: logged)%list in
  match result with
  | Some r =>
      match r.(Extractor.flights) with
      | _ :: _ =>
          flights <- process_results result origin dep_date ret_date nights ;;
          Ok {| search_count := S st.(search_count);
                errors := st.(errors);
                all_flights := st.(all_flights) ++ flights;
                trace := trace' |}
      | [] =>
          Ok {| search_count := S st.(search_count);
                errors := st.(errors);
                all_flights := st.(all_flights);
                trace := trace' |}
      end
  | None =>
      Ok {| search_count := S st.(search_count);
            errors := S st.(errors);
            all_flights := st.(all_flights);
            trace := trace' |}
  end.

(** [for dep_date, ret_date, nights in date_pairs: ...]. *)
Fixpoint phase1_pairs (st : phase1_state) (origin : string)
    (date_pairs : list date_pair) : fallible phase1_state :=
  match date_pairs with
  | [] => Ok st
  | p :: rest =>
      st' <- phase1_search st origin p ;;
      phase1_pairs st' origin rest
  end.

(** [for origin in origins: ...]. *)
Fixpoint phase1_origins (st : phase1_state) (origins : list string)
    (date_pairs : list date_pair) : fallible phase1_state :=
  match origins with
  | [] => Ok st
  | origin :: rest =>
      st' <- phase1_pairs st origin date_pairs ;;
      phase1_origins st' rest date_pairs
  end.

Definition phase1 (date_pairs : list date_pair) : fallible phase1_state :=
  phase1_origins
    {| search_count := 0; errors := 0; all_flights := []; trace := [] |}
    cfg.(origins) date_pairs.

(** ** Phase 2: return-leg searches *)

(** [for dep_date, ret_date, nights in date_pairs: for origin in
    origins: unique_returns[(ret_date, origin)] = None]. *)
Definition collect_returns (date_pairs : list date_pair)
    (origins : list string) : returns_dict :=
  fold_left
    (fun d p =>
       fold_left (fun d origin => dict_set (pair_ret p, origin) None d)
         origins d)
    date_pairs [].

(** [for (ret_date, origin) in unique_returns: ...]: the keys are
    visited in insertion order; [n] is the number of searches made so
    far in the run. *)
Fixpoint phase2_keys (n : nat) (ks : list return_key)
    (unique_returns : returns_dict) (tr : list event)
    : returns_dict * list event :=
  match ks with
  | [] => (unique_returns, tr)
  | (ret_date, origin) :: rest =>
      let (info, logged) := search_return_flights n origin ret_date in
      let tr' :=
        (tr ++ Searched (one_way_legs origin ret_date) OneWay :: logged)%list in
      match info with
      | Some i =>
          phase2_keys (S n) rest
            (dict_set (ret_date, origin) (Some i) unique_returns) tr'
      | None => phase2_keys (S n) rest unique_returns tr'
      end
  end.

Definition phase2 (n : nat) (unique_returns : returns_dict)
    : returns_dict * list event :=
  phase2_keys n (keys unique_returns) unique_returns [].

(** ** Merge, deduplication, ranking *)

(** The body of [for f in all_flights] that adds the return leg. *)
Definition merge (unique_returns : returns_dict) (f : offer) : itinerary :=
  match returns_get (f.(ret_date), f.(origin_code)) unique_returns with
  | Some info => {| outbound := f; ret := info |}
  | None =>
      {| outbound := f;
         ret := {| ret_airline := f.(airline);
                   ret_departure := "";
                   ret_arrival := "";
                   ret_duration := "N/D";
                   ret_stops := f.(stops);
                   ret_stops_detail := f.(stops_detail) |} |}
  end.

End Run.

(** The tuple [(price_total, dep_date, ret_date, dep_airport, airline)]. *)
Definition dedup_key : Type :=
  PyFloat.float * date * date * string * string.

Definition key_of (f : itinerary) : dedup_key :=
  (f.(outbound).(price_total), f.(outbound).(dep_date),
   f.(outbound).(ret_date), f.(outbound).(dep_airport),
   f.(outbound).(airline)).

(** Equality of two key tuples ([==] on each component). *)
Definition key_eqb (a b : dedup_key) : bool :=
  let '(pa, da, ra, oa, aa) := a in
  let '(pb, db, rb, ob, ab) := b in
  PyFloat.eqb pa pb && (da =? db) && (ra =? rb)
  && String.eqb oa ob && String.eqb aa ab.

(** [key in seen]. *)
Definition in_seen (k : dedup_key) (seen : list dedup_key) : bool :=
  existsb (key_eqb k) seen.

(** [for f in all_flights: if key not in seen: seen.add(key);
    unique_flights.append(f)]. *)
Fixpoint dedup_from (seen : list dedup_key) (fs : list itinerary)
    : list itinerary :=
  match fs with
  | [] => []
  | f :: rest =>
      if in_seen (key_of f) seen then dedup_from seen rest
      else f :: dedup_from (key_of f :: seen) rest
  end.

Definition dedup (fs : list itinerary) : list itinerary := dedup_from [] fs.

Definition pp (f : itinerary) : PyFloat.float := f.(outbound).(price_pp).

(** [list.sort(key=lambda x: x["price_pp"])]: Python's sort is stable and
    compares keys with [<] only.  It is modelled by the stable insertion
    sort: each element goes before the first element whose key is strictly
    greater.  (On keys that [<] orders totally, which excludes NaN, the
    result of a stable sort is unique: [stable_sorted_unique] below.) *)
Fixpoint insert_sorted (x : itinerary) (l : list itinerary)
    : list itinerary :=
  match l with
  | [] => [x]
  | y :: r =>
      if PyFloat.ltb (pp x) (pp y) then x :: y :: r
      else y :: insert_sorted x r
  end.

Definition sort_by_price_pp (l : list itinerary) : list itinerary :=
  fold_left (fun acc x => insert_sorted x acc) l [].

(** ** The run *)

Record report : Type := {
  outbound_searches : nat;
  return_searches : nat;
  search_errors : nat;
  run_trace : list event;
  unique_flights : list itinerary
}.

Inductive run_result : Type :=
| Unavailable (req_start max_available : date)  (* no date pair: retry later *)
| Completed (r : report).

(** [main()], up to the ranked list handed to the history and the
    notifications. *)
Definition main (build_url : list FlightData -> trip -> Z -> string -> string)
    (world : nat -> string -> page_script) (cfg : config)
    (fuel : nat) (today : date) : outcome run_result :=
  match generate_date_pairs fuel today cfg with
  | OutOfFuel => OutOfFuel
  | Raised e => Raised e
  | Returned (date_pairs, req_start, max_available) =>
      match date_pairs with
      | [] => Returned (Unavailable req_start max_available)
      | _ :: _ =>
          let unique_returns := collect_returns date_pairs cfg.(origins) in
          match phase1 build_url world cfg date_pairs with
          | Raise e => Raised e
          | Ok st =>
              let (returns, trace2) :=
                phase2 build_url world cfg st.(search_count) unique_returns in
              let merged := map (merge returns) st.(all_flights) in
              Returned (Completed
                {| outbound_searches :=
                     (List.length date_pairs * List.length cfg.(origins))%nat;
                   return_searches := List.length unique_returns;
                   search_errors := st.(errors);
                   run_trace := st.(trace) ++ trace2;
                   unique_flights := sort_by_price_pp (dedup merged) |})
          end
      end
  end.

End Orchestrator.

(* ================================================================== *)
(** * Threshold check ([main], after the ranking) *)

Module Alerting.
Import Orchestrator.

(** [[f for f in unique_flights if f["price_pp"] <= threshold]].  The
    threshold is the configured number as a float: a JSON float, or a JSON
    integer of magnitude at most 2^53, which a float holds exactly (Python
    compares a float with an int by value, so that the comparison with the
    int is the comparison with that float). *)
Definition good_deals (threshold : PyFloat.float)
    (unique_flights : list itinerary) : list itinerary :=
  filter (fun f => PyFloat.leb (pp f) threshold) unique_flights.

(** How [main] ends once the offers are ranked. *)
Inductive verdict : Type :=
| NothingFound
    (* "Nessun volo trovato": return, nothing is saved *)
| Alerted (history deals : list itinerary) (best : itinerary)
    (* notification for [best]; Telegram, e-mail and deals.txt for [deals] *)
| NoDeal (history : list itinerary) (best : itinerary).
    (* "Prezzo minimo": the price of [best] is logged, no alert *)

(** The lines of [main] from [if not unique_flights] on: [history] is what
    [save_history] appends, [results[:10]]. *)
Definition check_threshold (threshold : PyFloat.float)
    (unique_flights : list itinerary) : verdict :=
  match unique_flights with
  | [] => NothingFound
  | first :: _ =>
      let history := firstn 10 unique_flights in
      match good_deals threshold unique_flights with
      | best :: others =>                              (* good_deals[0] *)
          Alerted history (best :: others) best
      | [] => NoDeal history first                     (* unique_flights[0] *)
      end
  end.

End Alerting.

(* ================================================================== *)
(** * Route label ([_route_label]) *)

Module Labels.
Import Orchestrator.

(** [sorted(set(names))]: the distinct names in ascending order.  Python
    orders strings by code point, which is the order of their UTF-8
    bytes. *)
Fixpoint insert_name (x : string) (l : list string) : list string :=
  match l with
  | [] => [x]
  | y :: r =>
      match String.compare x y with
      | Lt => x :: y :: r
      | Eq => y :: r
      | Gt => y :: insert_name x r
      end
  end.

Definition sorted_set (names : list string) : list string :=
  fold_right insert_name [] names.

(** [str(n)] for a length. *)
Definition str (n : nat) : string := NilEmpty.string_of_uint (Nat.to_uint n).

(** [_route_label(config)]. *)
Definition _route_label (cfg : config) : string :=
  let origin_names := sorted_set (map get_airport_name cfg.(origins)) in
  let dest_name := get_airport_name cfg.(destination) in
  let origins_str :=
    if (List.length origin_names <=? 3)%nat
    then String.concat ", " origin_names
    else (str (List.length origin_names) ++ " aeroporti")%string in
  (origins_str ++ " - " ++ dest_name)%string.

End Labels.

(* ================================================================== *)
(** * Vocabulary of the statements

    Definitions used to state the properties below: none of them is part of
    the program. *)

Module NormalizerTerms.
Import PyStr Normalizer.

(** The alphabet of the string handed to [float]: digits and points. *)
Definition numeral_char (c : ascii) : bool := is_digit c || Ascii.eqb c ".".

End NormalizerTerms.

Module SamplerTerms.
Import Dates Sampler.

(** What one departure date contributes: the candidates whose return date
    stays within the horizon, in the order of the candidate list. *)
Definition emitted (max_date d : date) (options : list Z) : list date_pair :=
  map (fun n => (d, d + n, n)) (filter (fun n => d + n <=? max_date) options).

(** The candidates of a configuration, as the specification words them:
    min and max, and the integer midpoint between them exactly when the
    span exceeds 2. *)
Definition candidates_spec (cfg : config) : list Z :=
  [cfg.(nights_min)]
  ++ (if 2 <? cfg.(nights_max) - cfg.(nights_min)
      then [(cfg.(nights_min) + cfg.(nights_max)) / 2] else [])
  ++ [cfg.(nights_max)].

(** The clipped window of a run. *)
Definition effective_start (today : date) (cfg : config) : date :=
  Z.max cfg.(date_from) (today + 1).

Definition effective_end (today : date) (cfg : config) : date :=
  Z.min cfg.(date_to) (today + MAX_DAYS_AHEAD).

(** The run of [generate_date_pairs] halts within the fuel given. *)
Definition halts {A} (o : outcome A) : Prop := o <> OutOfFuel.

(** A configuration for Malpensa to Male, two adults, at most one stop. *)
Definition sample_cfg (from to nmin nmax : Z) (step : option Z) : config :=
  {| origins := ["MXP"]; destination := "MLE";
     date_from := from; date_to := to;
     nights_min := nmin; nights_max := nmax;
     sample_every_n_days := step; adults := 2; max_stops := 1 |}.

(** 2026-11-03, as an ordinal. *)
Definition a_day : date := 739923.

(** The nights values attached to the departure date [d] in the output. *)
Definition nights_of (d : date) (pairs : list date_pair) : list Z :=
  map pair_nights (filter (fun p => pair_dep p =? d) pairs).

(** The nights of a departure date as the specification words them: every
    departure date that occurs in the output carries exactly the candidate
    nights. *)
Definition nights_exactly_candidates (cfg : config)
    (pairs : list date_pair) : Prop :=
  forall d, In d (map pair_dep pairs) ->
    forall n, In n (nights_of d pairs) <-> In n (candidates_spec cfg).

(** A window that ends on the horizon, with 3 to 5 nights. *)
Definition near_horizon_cfg : config :=
  sample_cfg (a_day + 326) (a_day + 330) 3 5 (Some 5).

(** A non-empty window (ten days from tomorrow) walked with a step of
    -800000 days. *)
Definition backwards_cfg : config :=
  sample_cfg (a_day + 1) (a_day + 10) 3 5 (Some (-800000)).

End SamplerTerms.

Module FloatTerms.
Import PyFloat.

(** A float that is not NaN, placed in the lexicographic order of triples of
    integers: the infinities at the ends, zero (of either sign) in the
    middle, a finite number by sign, exponent and mantissa. *)
Definition rank (x : float) : Z * Z * Z :=
  match x with
  | S754_zero _ => (0, 0, 0)
  | S754_infinity false => (2, 0, 0)
  | S754_infinity true => (-2, 0, 0)
  | S754_nan => (0, 0, 0)
  | S754_finite false m e => (1, e, Zpos m)
  | S754_finite true m e => (-1, - e, Zneg m)
  end.

Definition lex3 (a b : Z * Z * Z) : comparison :=
  let '(a1, a2, a3) := a in
  let '(b1, b2, b3) := b in
  match a1 ?= b1 with
  | Eq => match a2 ?= b2 with
          | Eq => a3 ?= b3
          | c => c
          end
  | c => c
  end.

Definition lt3 (a b : Z * Z * Z) : Prop :=
  let '(a1, a2, a3) := a in
  let '(b1, b2, b3) := b in
  a1 < b1 \/ (a1 = b1 /\ (a2 < b2 \/ (a2 = b2 /\ a3 < b3))).

End FloatTerms.

Module RunTerms.
Import Dates Normalizer Sampler Orchestrator.
Import Extractor(FlightData, Build_FlightData, trip, OneWay, RoundTrip,
                 SearchResult, ScrapedFlight, page_script, _fetch_flights).

(** [config["adults"]] can divide a price: it converts to a float that is
    not zero (true of every count from 1 to beyond 10^300). *)
Definition adults_ok (cfg : config) : Prop :=
  exists y, PyFloat.of_int cfg.(adults) = Ok y /\ PyFloat.is_zero y = false.

(** The searches a trace records, in order. *)
Fixpoint searches (tr : list event) : list (list FlightData * trip) :=
  match tr with
  | [] => []
  | Searched legs t :: rest => (legs, t) :: searches rest
  | ErrorLogged _ :: rest => searches rest
  end.

(** The errors a trace records, in order. *)
Fixpoint logged_errors (tr : list event) : list exn :=
  match tr with
  | [] => []
  | Searched _ _ :: rest => logged_errors rest
  | ErrorLogged e :: rest => e :: logged_errors rest
  end.

(** The legs of the one-way searches of a trace. *)
Definition one_way_searches (tr : list event) : list (list FlightData) :=
  map fst (filter (fun q => match snd q with OneWay => true | _ => false end)
             (searches tr)).

(** The return-leg record made from a listing. *)
Definition ret_info_of (f : ScrapedFlight) : ret_info :=
  {| ret_airline := f.(Extractor.airline);
     ret_departure := f.(Extractor.departure);
     ret_arrival := f.(Extractor.arrival);
     ret_duration := f.(Extractor.duration);
     ret_stops := parse_stops f.(Extractor.stops);
     ret_stops_detail := or_diretto f.(Extractor.stops) |}.

(** Deduplication as the specification words it: an offer is kept exactly
    when no offer seen earlier has the same key. *)
Fixpoint first_seen_from (earlier fs : list itinerary) : list itinerary :=
  match fs with
  | [] => []
  | f :: rest =>
      if existsb (fun g => key_eqb (key_of f) (key_of g)) earlier
      then first_seen_from (earlier ++ [f]) rest
      else f :: first_seen_from (earlier ++ [f]) rest
  end.

Definition first_seen (fs : list itinerary) : list itinerary :=
  first_seen_from [] fs.

(** Ascending per-person prices. *)
Definition pp_le (a b : itinerary) : Prop := PyFloat.leb (pp a) (pp b) = true.

(** The offers priced [v] per person, in the order of the list. *)
Definition priced (v : PyFloat.float) (l : list itinerary) : list itinerary :=
  filter (fun a => PyFloat.eqb (pp a) v) l.

(** The set [seen] holds a key equal to [k] exactly when an earlier offer
    has a key equal to [k]. *)
Definition seen_of (seen : list dedup_key) (earlier : list itinerary) : Prop :=
  forall k, in_seen k seen = true
            <-> existsb (fun g => key_eqb k (key_of g)) earlier = true.

Definition pp_ok (a : itinerary) : Prop := PyFloat.is_nan (pp a) = false.

(** The keys set by the two loops that build [unique_returns], in order. *)
Definition referenced_keys (date_pairs : list date_pair)
    (origins : list string) : list return_key :=
  flat_map (fun p => map (fun origin => (pair_ret p, origin)) origins)
    date_pairs.

Section Run.

Variable build_url : list FlightData -> trip -> Z -> string -> string.
Variable world : nat -> string -> page_script.
Variable cfg : config.

(** What [process_results] guarantees of an offer it builds for the search
    ([origin], [dep], [ret], [nights]). *)
Record built_for (origin : string) (dep ret : date) (n : Z) (o : offer)
    : Prop := {
  bf_price : exists f : ScrapedFlight,
      parse_price f.(Extractor.price) = Some o.(price_total)
      /\ o.(airline) = f.(Extractor.airline)
      /\ o.(stops) = parse_stops f.(Extractor.stops);
  bf_pp : exists q,
      PyFloat.div_int o.(price_total) cfg.(adults) = Ok q
      /\ o.(price_pp) = PyFloat.round2 q;
  bf_stops : o.(stops) <= cfg.(max_stops);
  bf_dep : o.(dep_date) = dep;
  bf_ret : o.(ret_date) = ret;
  bf_origin : o.(origin_code) = origin;
  bf_airport : o.(dep_airport) = get_airport_name origin;
  bf_nights : o.(nights) = n
}.

(** The exception a search raises, if it does. *)
Definition raised_by (n : nat) (q : list FlightData * trip) : list exn :=
  match search_flights build_url world n (fst q) (snd q) cfg.(adults) "EUR" with
  | Ok _ => []
  | Raise e => [e]
  end.

(** The exceptions raised by the searches [qs], made in this order from
    the [n]-th search of the run on. *)
Fixpoint raised_from (n : nat) (qs : list (list FlightData * trip))
    : list exn :=
  match qs with
  | [] => []
  | q :: rest => raised_by n q ++ raised_from (S n) rest
  end.

(** The round-trip query of phase 1 for an origin and a date pair. *)
Definition outbound_query (origin : string) (p : date_pair)
    : list FlightData * trip :=
  (round_trip_legs cfg origin (pair_dep p) (pair_ret p), RoundTrip).

(** The one-way query of phase 2 for a key. *)
Definition return_query (k : return_key) : list FlightData * trip :=
  (one_way_legs cfg (snd k) (fst k), OneWay).

(** What phase 1 has done when it is in state [st'], having started from
    [st] and made the searches [qs]. *)
Record phase1_step (st st' : phase1_state)
    (qs : list (list FlightData * trip)) (P : offer -> Prop) : Prop := {
  p1_count : st'.(search_count) = (st.(search_count) + List.length qs)%nat;
  p1_searches : searches st'.(trace) = searches st.(trace) ++ qs;
  p1_logged : logged_errors st'.(trace)
              = logged_errors st.(trace) ++ raised_from st.(search_count) qs;
  p1_errors : st'.(errors)
              = (st.(errors)
                 + List.length (raised_from st.(search_count) qs))%nat;
  p1_flights : exists new,
      st'.(all_flights) = st.(all_flights) ++ new /\ Forall P new
}.

(** All the round-trip queries of phase 1, in the order they are made. *)
Definition outbound_queries (origins : list string)
    (date_pairs : list date_pair) : list (list FlightData * trip) :=
  flat_map (fun origin => map (outbound_query origin) date_pairs) origins.

(** An offer built for some configured origin and some sampled date pair. *)
Definition offer_of_run (origins : list string) (date_pairs : list date_pair)
    (o : offer) : Prop :=
  exists origin p,
    In origin origins /\ In p date_pairs
    /\ built_for origin (pair_dep p) (pair_ret p) (pair_nights p) o.

(** The record phase 2 leaves for the key searched as the [n]-th search of
    the run. *)
Definition return_pick (n : nat) (k : return_key) : option ret_info :=
  fst (search_return_flights build_url world cfg n (snd k) (fst k)).

(** The parts of a completed run: the sampled date pairs, the state phase 1
    ends in, the dictionary phase 2 leaves, and the report. *)
Record completed_run (fuel : nat) (today : date)
    (date_pairs : list date_pair) (st : phase1_state)
    (returns : returns_dict) (r : report) : Prop := {
  cr_pairs : exists start max_date,
      generate_date_pairs fuel today cfg
      = Returned (date_pairs, start, max_date);
  cr_nonempty : date_pairs <> [];
  cr_phase1 : phase1 build_url world cfg date_pairs = Ok st;
  cr_phase2 : exists tr2,
      phase2 build_url world cfg st.(search_count)
        (collect_returns date_pairs cfg.(origins)) = (returns, tr2)
      /\ r.(run_trace) = st.(trace) ++ tr2;
  cr_errors : r.(search_errors) = st.(errors);
  cr_outbound : r.(outbound_searches)
                = (List.length date_pairs * List.length cfg.(origins))%nat;
  cr_returns : r.(return_searches)
               = List.length (collect_returns date_pairs cfg.(origins));
  cr_flights : r.(unique_flights)
               = sort_by_price_pp
                   (dedup (map (merge returns) st.(all_flights)))
}.

End Run.

(** A stand-in for the encoder of [fast_flights]: the airports of the legs. *)
Definition sample_url (legs : list FlightData) (t : trip) (adults : Z)
    (currency : string) : string :=
  String.concat "-" (map Extractor.from_airport legs).

Definition listing (airline stops price : string) : ScrapedFlight :=
  {| Extractor.airline := airline;
     Extractor.departure := "10:00"; Extractor.arrival := "20:00";
     Extractor.duration := "10 hr";
     Extractor.stops := stops; Extractor.price := price |}.

(** A page on which no result container shows up but the listings [fs] are
    extracted after the network-idle fallback. *)
Definition page_with (fs : list ScrapedFlight) : page_script :=
  {| Extractor.launch := Ok tt;
     Extractor.goto := Ok tt;
     Extractor.on_consent_host := true;
     Extractor.button_count := fun _ => Ok 1%nat;
     Extractor.button_click := fun _ => Raise PlaywrightError;
     Extractor.wait_for_url := Raise TimeoutError;
     Extractor.wait_for_selector := fun _ => Raise TimeoutError;
     Extractor.wait_network_idle := Ok tt;
     Extractor.evaluate_flights := Ok fs;
     Extractor.evaluate_html := Ok "";
     Extractor.close := Ok tt |}.

(** A page whose navigation times out. *)
Definition page_timeout : page_script :=
  {| Extractor.launch := Ok tt;
     Extractor.goto := Raise TimeoutError;
     Extractor.on_consent_host := false;
     Extractor.button_count := fun _ => Ok 0%nat;
     Extractor.button_click := fun _ => Ok tt;
     Extractor.wait_for_url := Ok tt;
     Extractor.wait_for_selector := fun _ => Ok tt;
     Extractor.wait_network_idle := Ok tt;
     Extractor.evaluate_flights := Ok [];
     Extractor.evaluate_html := Ok "";
     Extractor.close := Ok tt |}.

(** Searches 0 to 3 are the outbound ones (two origins, two date pairs),
    searches 4 to 7 the return ones. *)
Definition sample_world (n : nat) (url : string) : page_script :=
  match n with
  | 0%nat => page_with [listing "A" "1 stop" "€1,300";
                        listing "B" "Nonstop" "€1,200";
                        listing "B" "Nonstop" "€1,200";
                        listing "C" "2 stops" "€900";
                        listing "D" "" "N/A"]
  | 1%nat => page_timeout
  | 2%nat => page_with []
  | 3%nat => page_with [listing "E" "2 stops" "€900";
                        listing "F" "1 stop" "€900"]
  | 4%nat => page_with [listing "G" "3 stops" "€500"]
  | 5%nat => page_timeout
  | _ => page_with [listing "H" "2 stops" "€400"; listing "I" "" "€450"]
  end.

Definition sample_run_cfg : config :=
  {| origins := ["MXP"; "LIN"]; destination := "MLE";
     date_from := 739924; date_to := 739926;
     nights_min := 3; nights_max := 5;
     sample_every_n_days := Some 5; adults := 2; max_stops := 1 |}.

Definition empty_report : report :=
  {| outbound_searches := 0; return_searches := 0; search_errors := 0;
     run_trace := []; unique_flights := [] |}.

(** The report of the sample run, on 2026-11-03. *)
Definition sample_report : report :=
  Eval vm_compute in
    match main sample_url sample_world sample_run_cfg 3 739923 with
    | Returned (Completed r) => r
    | _ => empty_report
    end.

(** The date pairs of the sample run. *)
Definition sample_pairs : list date_pair :=
  [(739924, 739927, 3); (739924, 739929, 5)].

(** A world in which every search succeeds and finds no listing. *)
Definition quiet_world (n : nat) (url : string) : page_script := page_with [].

Definition quiet_report : report :=
  Eval vm_compute in
    match main sample_url quiet_world sample_run_cfg 3 739923 with
    | Returned (Completed r) => r
    | _ => empty_report
    end.

(** The return searches as the specification words them: the return legs
    searched are those of the (return date, origin) pairs of the Phase-1
    offers. *)
Definition searches_exactly_offer_keys (cfg : config) (offers : list offer)
    (tr : list event) : Prop :=
  forall k : return_key,
    In (one_way_legs cfg (snd k) (fst k)) (one_way_searches tr)
    <-> In k (map (fun f => (f.(ret_date), f.(origin_code))) offers).

(** A listing priced 1200 euros for two adults. *)
Definition sample_offer : offer :=
  Eval vm_compute in
    match process_results sample_url sample_run_cfg
            (Some {| Extractor.flights := [listing "B" "Nonstop" "€1,200"];
                     Extractor.raw_html := "" |})
            "MXP" 739924 739927 3 with
    | Ok [o] => o
    | _ => {| price_total := S754_nan; price_pp := S754_nan;
              dep_date := 0; ret_date := 0; dep_airport := "";
              dest_airport := ""; origin_code := ""; airline := "";
              departure := ""; arrival := ""; duration := ""; stops := 0;
              stops_detail := ""; nights := 0; link := "" |}
    end.

(** An offer with the given key fields and per-person price. *)
Definition offer_with (total per_person : PrimFloat.float) (airline : string)
    (duration : string) : itinerary :=
  {| outbound :=
       {| price_total := PyFloat.lit total;
          price_pp := PyFloat.lit per_person;
          dep_date := 739924; ret_date := 739927;
          dep_airport := "Malpensa"; dest_airport := "Malé";
          origin_code := "MXP"; airline := airline;
          departure := "10:00"; arrival := "20:00"; duration := duration;
          stops := 0; stops_detail := "Nonstop"; nights := 3; link := "" |};
     ret := {| ret_airline := airline; ret_departure := ""; ret_arrival := "";
               ret_duration := "N/D"; ret_stops := 0;
               ret_stops_detail := "Nonstop" |} |}.

End RunTerms.

Module ExtraTerms.
Import Dates Normalizer Sampler Orchestrator SamplerTerms.

(** A float with the sign bit [s] that is not NaN. *)
Definition has_sign (s : bool) (x : PyFloat.float) : Prop :=
  match x with
  | S754_zero s' | S754_infinity s' | S754_finite s' _ _ => s' = s
  | S754_nan => False
  end.


(** The characters of a price that is written with thousands commas:
    digits and commas. *)
Definition digit_or_comma (c : ascii) : bool :=
  PyStr.is_digit c || Ascii.eqb c ",".

(** The characters of a price that is written with thousands points:
    digits and points. *)
Definition digit_or_point (c : ascii) : bool :=
  PyStr.is_digit c || Ascii.eqb c ".".

(** The float nearest to the decimal numeral [ip.fp], for two strings of
    digits: what [float] returns on it. *)
Definition decimal_value (ip fp : string) : PyFloat.float :=
  PyFloat.of_ratio false (PyStr.int_of_digits 0 (ip ++ fp)%string)
    (PyStr.pow10 (String.length fp)).



(** The dates from [first] on, [step] days apart, that are not after
    [last]. *)
Definition departures_from (first last step : Z) : list date :=
  map (fun k => first + Z.of_nat k * step)
    (seq 0 (Z.to_nat ((last - first) / step + 1))).

(** The departure dates of a run: the clipped window walked in steps. *)
Definition departures (today : date) (cfg : config) : list date :=
  departures_from (effective_start today cfg) (effective_end today cfg)
    (step_of cfg).

(** The date pairs of a run: for each departure date in turn, the candidate
    stays whose return is within the horizon. *)
Definition expected_pairs (today : date) (cfg : config) : list date_pair :=
  flat_map (fun d => emitted (today + MAX_DAYS_AHEAD) d (nights_options cfg))
    (departures today cfg).

(** Whether the price of a listing parses. *)
Definition has_price (f : Extractor.ScrapedFlight) : bool :=
  match parse_price f.(Extractor.price) with
  | Some _ => true
  | None => false
  end.



(** The sample configuration with no adult. *)
Definition zero_adults_cfg : config :=
  {| origins := ["MXP"; "LIN"]; destination := "MLE";
     date_from := 739924; date_to := 739926;
     nights_min := 3; nights_max := 5;
     sample_every_n_days := Some 5; adults := 0; max_stops := 1 |}.

(** The stop limits of a reported itinerary: both legs within the
    configured maximum. *)
Definition within_stop_limit (cfg : config) (f : itinerary) : Prop :=
  0 <= f.(outbound).(stops) <= cfg.(max_stops)
  /\ 0 <= f.(ret).(ret_stops) <= cfg.(max_stops).

(** A reported itinerary that matches what the run of [today] was asked
    to search: a configured origin, a departure after today and within the
    configured window, a candidate stay, a return within the horizon. *)
Definition as_requested (today : date) (cfg : config) (f : itinerary)
    : Prop :=
  let o := f.(outbound) in
  In o.(origin_code) cfg.(origins)
  /\ o.(dep_airport) = get_airport_name o.(origin_code)
  /\ today < o.(dep_date)
  /\ cfg.(date_from) <= o.(dep_date) <= cfg.(date_to)
  /\ In o.(nights) (nights_options cfg)
  /\ o.(ret_date) = o.(dep_date) + o.(nights)
  /\ o.(ret_date) <= today + MAX_DAYS_AHEAD.

(** What the threshold check may answer on the ranked offers [l]: an alert
    carries the offers at or under the threshold, which are the first
    offers of the ranking, and its best offer is the first of the ranking;
    without an alert no offer is at or under the threshold. *)
Definition sound_verdict (threshold : PyFloat.float) (l : list itinerary)
    (v : Alerting.verdict) : Prop :=
  match v with
  | Alerting.NothingFound => l = []
  | Alerting.Alerted history deals best =>
      hd_error l = Some best
      /\ PyFloat.leb (pp best) threshold = true
      /\ history = firstn 10 l
      /\ exists rest,
           l = deals ++ rest
           /\ Forall (fun f => PyFloat.leb (pp f) threshold = true) deals
           /\ Forall (fun f => PyFloat.leb (pp f) threshold = false) rest
  | Alerting.NoDeal history best =>
      hd_error l = Some best
      /\ history = firstn 10 l
      /\ Forall (fun f => PyFloat.leb (pp f) threshold = false) l
  end.

(** The order of [sorted] on names. *)
Definition name_lt (a b : string) : Prop := String.compare a b = Lt.

(** Two configurations whose origins have the same airport names, in any
    order and with any repetition. *)
Definition same_names (cfg cfg' : config) : Prop :=
  forall n,
    In n (map get_airport_name cfg.(origins))
    <-> In n (map get_airport_name cfg'.(origins)).

(** The sample configuration with its origins in another order, one of
    them twice. *)
Definition reordered_cfg : config :=
  {| origins := ["LIN"; "MXP"; "LIN"]; destination := "MLE";
     date_from := 739924; date_to := 739926;
     nights_min := 3; nights_max := 5;
     sample_every_n_days := Some 5; adults := 2; max_stops := 1 |}.

End ExtraTerms.

(* ================================================================== *)
(** * Properties of the normaliser *)

Module NormalizerFacts.
Import PyStr Normalizer NormalizerTerms.

Lemma forallb_filter (p : ascii -> bool) (s : string) :
  forallb p (filter p s) = true.
Proof.
  induction s as [|c s IH]; simpl; [reflexivity|].
  destruct (p c) eqn:E; simpl; [rewrite E|]; assumption.
Qed.

Lemma forallb_append (p : ascii -> bool) (s t : string) :
  forallb p s = true -> forallb p t = true -> forallb p (s ++ t)%string = true.
Proof.
  induction s as [|c s IH]; simpl; [tauto|].
  intros H Ht. apply andb_true_iff in H as [Hc Hs].
  rewrite Hc. simpl. auto.
Qed.

(** Replacing every [c] by a string over [q] leaves a string over [q],
    when the other characters of the alphabet [p] are in [q]. *)
Lemma forallb_replace (p q : ascii -> bool) (c : ascii) (t s : string) :
  (forall d, p d = true -> Ascii.eqb c d = false -> q d = true) ->
  forallb q t = true ->
  forallb p s = true ->
  forallb q (replace c t s) = true.
Proof.
  intros Hpq Ht. induction s as [|d s IH]; simpl; [reflexivity|].
  intros H. apply andb_true_iff in H as [Hd Hs].
  destruct (Ascii.eqb c d) eqn:E.
  - apply forallb_append; auto.
  - simpl. rewrite (Hpq d Hd E). simpl. auto.
Qed.

Lemma price_char_cases (d : ascii) :
  price_char d = true ->
  is_digit d = true \/ d = "."%char \/ d = ","%char.
Proof.
  unfold price_char. intros H.
  apply orb_true_iff in H as [H|H].
  - apply orb_true_iff in H as [H|H]; [now left|].
    right; left. now apply Ascii.eqb_eq in H.
  - right; right. now apply Ascii.eqb_eq in H.
Qed.

Lemma forallb_weaken (p q : ascii -> bool) (s : string) :
  (forall d, p d = true -> q d = true) ->
  forallb p s = true -> forallb q s = true.
Proof.
  intros Hpq. induction s as [|d s IH]; simpl; [reflexivity|].
  intros H. apply andb_true_iff in H as [Hd Hs].
  rewrite (Hpq d Hd). simpl. auto.
Qed.

Lemma forallb_no_mem (p : ascii -> bool) (c : ascii) (s : string) :
  forallb p s = true -> mem c s = false ->
  forallb (fun d => p d && negb (Ascii.eqb c d)) s = true.
Proof.
  induction s as [|d s IH]; simpl; [reflexivity|].
  intros H Hm. apply andb_true_iff in H as [Hd Hs].
  apply orb_false_iff in Hm as [Hcd Hm].
  rewrite Hd, Hcd. simpl. auto.
Qed.

Lemma mem_rindex (c : ascii) (s : string) :
  mem c s = true -> exists i, rindex c s = Some i.
Proof.
  induction s as [|d s IH]; simpl; [discriminate|].
  intros H. destruct (rindex c s) as [i|]; [now exists (S i)|].
  destruct (Ascii.eqb c d); [now exists 0%nat|].
  simpl in H. destruct (IH H) as [i Hi]. discriminate.
Qed.

Lemma numeral_of_price_char (d : ascii) :
  price_char d = true -> Ascii.eqb "," d = false -> numeral_char d = true.
Proof.
  intros Hd E. unfold numeral_char.
  destruct (price_char_cases d Hd) as [H|[H|H]]; subst.
  - now rewrite H.
  - apply orb_true_r.
  - discriminate.
Qed.

(** [float] is only ever applied to a string of digits and points: the
    grammar of [float_of_decimal] covers every call of [parse_price]. *)
Lemma cleaned_alphabet (price_str : string) :
  forallb numeral_char (clean_price price_str) = true.
Proof.
  unfold clean_price.
  set (cleaned := filter price_char price_str).
  assert (Hc : forallb price_char cleaned = true) by apply forallb_filter.
  assert (Hdrop : forall s t, forallb numeral_char t = true ->
            forallb price_char s = true ->
            forallb numeral_char (replace "," t s) = true).
  { intros s t Ht Hs. apply forallb_replace with (p := price_char); auto.
    exact numeral_of_price_char. }
  destruct (mem "," cleaned) eqn:Ecomma; simpl.
  - destruct (mem "." cleaned) eqn:Epoint.
    + destruct (mem_rindex _ _ Ecomma) as [ic ->].
      destruct (mem_rindex _ _ Epoint) as [ip ->].
      destruct (ip <? ic)%nat.
      * apply Hdrop; [reflexivity|].
        apply forallb_replace with (p := price_char); auto.
      * now apply Hdrop.
    + destruct (_ =? 3)%nat; now apply Hdrop.
  - apply forallb_weaken
      with (p := fun d => price_char d && negb (Ascii.eqb "," d)).
    + intros d Hd. apply andb_true_iff in Hd as [Hd Hn].
      apply numeral_of_price_char; [assumption|].
      now apply negb_true_iff in Hn.
    + now apply forallb_no_mem.
Qed.

(** C1 (the code departs from its documented examples).  On the
    documented price strings [parse_price] yields 1234 for ["€1,234"],
    1234.56 for ["€1,234.56"] and ["€1.234,56"], and [None] (no exception)
    for [""] and ["N/A"]; but on ["€1.234"], an example of its own
    docstring, it yields 1.234 and not 1234: a lone point is never taken
    as a thousands separator, while a lone comma before three digits is. *)
Theorem parse_price_documented_examples :
  parse_price "€1,234" = Some (PyFloat.lit 1234)
  /\ parse_price "€1,234.56" = Some (PyFloat.lit 1234.56)
  /\ parse_price "€1.234,56" = Some (PyFloat.lit 1234.56)
  /\ parse_price "" = None
  /\ parse_price "N/A" = None
  /\ parse_price "€1.234" = Some (PyFloat.lit 1.234)
  /\ parse_price "€1.234" <> Some (PyFloat.lit 1234).
Proof.
  repeat split; try (vm_compute; reflexivity).
  vm_compute. discriminate.
Qed.

(** The same slip on the price of the end-to-end scenario of the
    specification: ["€1.200"] is read as 1.2. *)
Lemma parse_price_point_thousands :
  parse_price "€1.200" = Some (PyFloat.lit 1.2).
Proof. vm_compute. reflexivity. Qed.

(** [parse_stops] on the documented labels. *)
Lemma parse_stops_examples :
  parse_stops "Nonstop" = 0 /\ parse_stops "1 stop" = 1
  /\ parse_stops "2 stops" = 2 /\ parse_stops "" = 0.
Proof. repeat split; reflexivity. Qed.

End NormalizerFacts.

(* ================================================================== *)
(** * Properties of the date-pair sampler *)

Module SamplerFacts.
Import Dates Sampler SamplerTerms.

Lemma add_days_ok (d n r : Z) :
  add_days d n = Ok r -> r = d + n /\ MINORD <= r <= MAXORD.
Proof.
  unfold add_days, timedelta, add, bind.
  destruct (_ && _); [|discriminate].
  destruct ((MINORD <=? d + n) && (d + n <=? MAXORD)) eqn:E; [|discriminate].
  intros [= <-]. apply andb_true_iff in E. lia.
Qed.

Lemma add_days_in_range (d n : Z) :
  MINORD <= d <= MAXORD -> MINORD <= d + n <= MAXORD ->
  add_days d n = Ok (d + n).
Proof.
  unfold add_days, timedelta, add, bind, MINORD, MAXORD, MAX_DELTA_DAYS.
  intros Hd Hr.
  replace ((- (999999999) <=? n) && (n <=? 999999999)) with true
    by (symmetry; apply andb_true_iff; lia).
  replace ((1 <=? d + n) && (d + n <=? 3652059)) with true
    by (symmetry; apply andb_true_iff; lia).
  reflexivity.
Qed.

Lemma add_days_raises (d n : Z) (e : exn) :
  add_days d n = Raise e -> e = OverflowError.
Proof.
  unfold add_days, timedelta, add, bind.
  destruct (_ && _); [|congruence].
  destruct (_ && _); congruence.
Qed.

Lemma for_nights_ok (max_date current : date) (options : list Z) :
  forall pairs pairs',
    for_nights max_date current options pairs = Ok pairs' ->
    pairs' = pairs ++ emitted max_date current options.
Proof.
  unfold emitted.
  induction options as [|n rest IH]; simpl; intros pairs pairs' H.
  - injection H as <-. now rewrite app_nil_r.
  - destruct (add_days current n) as [ret|e] eqn:E; simpl in H; [|discriminate].
    apply add_days_ok in E as [-> _].
    apply IH in H. subst pairs'.
    destruct (current + n <=? max_date); simpl.
    + now rewrite <- app_assoc.
    + reflexivity.
Qed.

Lemma for_nights_raises (max_date current : date) (options : list Z) :
  forall pairs e,
    for_nights max_date current options pairs = Raise e -> e = OverflowError.
Proof.
  induction options as [|n rest IH]; simpl; intros pairs e H; [discriminate|].
  destruct (add_days current n) as [ret|e'] eqn:E; simpl in H.
  - eauto.
  - injection H as <-. eapply add_days_raises; eauto.
Qed.

(** A run of the loop that returns has visited the departure dates
    [deps], in strictly ascending order when the step is positive, and
    has appended what each of them emits. *)
Lemma while_current_returned (step : Z) (options : list Z)
    (eend max_date : date) :
  1 <= step ->
  forall fuel current pairs out,
    while_current fuel step options eend max_date current pairs
      = Returned out ->
    exists deps,
      out = pairs ++ flat_map (fun d => emitted max_date d options) deps
      /\ Forall (fun d => current <= d <= eend) deps
      /\ StronglySorted Z.lt deps.
Proof.
  intros Hstep.
  induction fuel as [|fuel IH]; simpl; intros current pairs out H;
    [discriminate|].
  destruct (current <=? eend) eqn:Ecur.
  - destruct (for_nights max_date current options pairs) as [pairs'|e] eqn:En;
      [|discriminate].
    destruct (add_days current step) as [current'|e] eqn:Ea; [|discriminate].
    apply for_nights_ok in En. apply add_days_ok in Ea as [-> _].
    apply IH in H as (deps & -> & Hall & Hsorted).
    exists (current :: deps). simpl. split; [|split].
    + subst pairs'. now rewrite <- app_assoc.
    + constructor.
      * apply Z.leb_le in Ecur. lia.
      * eapply Forall_impl; [|exact Hall]. simpl. intros d Hd. lia.
    + constructor; [assumption|].
      eapply Forall_impl; [|exact Hall]. simpl. intros d Hd. lia.
  - injection H as <-. exists []. simpl.
    rewrite app_nil_r. repeat split; constructor.
Qed.

(** With a step of 0 or less the loop, once entered, never returns. *)
Lemma while_current_stuck (step : Z) (options : list Z)
    (eend max_date : date) :
  step <= 0 ->
  forall fuel current pairs out,
    current <= eend ->
    while_current fuel step options eend max_date current pairs
      <> Returned out.
Proof.
  intros Hstep.
  induction fuel as [|fuel IH]; simpl; intros current pairs out Hcur;
    [discriminate|].
  replace (current <=? eend) with true by (symmetry; apply Z.leb_le; lia).
  destruct (for_nights max_date current options pairs) as [pairs'|e];
    [|discriminate].
  destruct (add_days current step) as [current'|e] eqn:Ea; [|discriminate].
  apply add_days_ok in Ea as [-> _].
  apply IH. lia.
Qed.

(** With a step of 1 or more the loop halts: every iteration moves the
    departure date forward, so [eend - current + 1] iterations suffice. *)
Lemma while_current_halts (step : Z) (options : list Z)
    (eend max_date : date) :
  1 <= step ->
  forall fuel current pairs,
    (Z.to_nat (eend - current + 1) < fuel)%nat ->
    halts (while_current fuel step options eend max_date current pairs).
Proof.
  intros Hstep. unfold halts.
  induction fuel as [|fuel IH]; simpl; intros current pairs Hfuel; [lia|].
  destruct (current <=? eend) eqn:Ecur; [|discriminate].
  apply Z.leb_le in Ecur.
  destruct (for_nights max_date current options pairs) as [pairs'|e];
    [|discriminate].
  destruct (add_days current step) as [current'|e] eqn:Ea; [|discriminate].
  apply add_days_ok in Ea as [-> _].
  apply IH. lia.
Qed.

(** More fuel does not change how a halting run ends. *)
Lemma while_current_more_fuel (step : Z) (options : list Z)
    (eend max_date : date) :
  forall fuel fuel' current pairs,
    (fuel <= fuel')%nat ->
    halts (while_current fuel step options eend max_date current pairs) ->
    while_current fuel' step options eend max_date current pairs
    = while_current fuel step options eend max_date current pairs.
Proof.
  unfold halts.
  induction fuel as [|fuel IH]; simpl; intros fuel' current pairs Hle H;
    [congruence|].
  destruct fuel' as [|fuel']; [lia|]. simpl.
  destruct (current <=? eend); [|reflexivity].
  destruct (for_nights max_date current options pairs); [|reflexivity].
  destruct (add_days current step); [|reflexivity].
  apply IH; [lia|assumption].
Qed.

Lemma generate_date_pairs_more_fuel (fuel fuel' : nat) (today : date)
    (cfg : config) :
  (fuel <= fuel')%nat ->
  halts (generate_date_pairs fuel today cfg) ->
  generate_date_pairs fuel' today cfg = generate_date_pairs fuel today cfg.
Proof.
  unfold generate_date_pairs, halts. intros Hle.
  destruct (add_days today MAX_DAYS_AHEAD) as [md|e]; [|reflexivity].
  destruct (add_days today 1) as [tomorrow|e]; [|reflexivity].
  destruct (_ >? _); [reflexivity|].
  intros H.
  rewrite (while_current_more_fuel _ _ _ _ fuel fuel'); [reflexivity|exact Hle|].
  unfold halts. intros Hw. rewrite Hw in H. now apply H.
Qed.

(** With a negative step the loop, once entered, walks backwards until the
    date arithmetic leaves the range of [date]: it ends by raising. *)
Lemma while_current_backwards (step : Z) (options : list Z)
    (eend max_date : date) :
  step < 0 ->
  forall (n : nat) current pairs,
    (Z.to_nat current <= n)%nat ->
    current <= eend ->
    exists fuel,
      while_current fuel step options eend max_date current pairs
      = Raised OverflowError.
Proof.
  intros Hstep.
  induction n as [|n IH]; intros current pairs Hn Hcur.
  - exists 1%nat. simpl.
    replace (current <=? eend) with true by (symmetry; apply Z.leb_le; lia).
    destruct (for_nights max_date current options pairs) as [pairs'|e] eqn:En.
    + destruct (add_days current step) as [current'|e] eqn:Ea.
      * apply add_days_ok in Ea. unfold MINORD in Ea. lia.
      * apply add_days_raises in Ea. now subst.
    + apply for_nights_raises in En. now subst.
  - destruct (for_nights max_date current options pairs) as [pairs'|e] eqn:En.
    + destruct (add_days current step) as [current'|e] eqn:Ea.
      * pose proof (add_days_ok _ _ _ Ea) as [-> Hr]. unfold MINORD in Hr.
        destruct (IH (current + step) pairs') as [fuel Hfuel]; [lia|lia|].
        exists (S fuel). simpl.
        replace (current <=? eend) with true by (symmetry; apply Z.leb_le; lia).
        now rewrite En, Ea.
      * exists 1%nat. simpl.
        replace (current <=? eend) with true by (symmetry; apply Z.leb_le; lia).
        rewrite En, Ea. apply add_days_raises in Ea. now subst.
    + exists 1%nat. simpl.
      replace (current <=? eend) with true by (symmetry; apply Z.leb_le; lia).
      rewrite En. apply for_nights_raises in En. now subst.
Qed.

(** Whether the inner loop raises does not depend on the list built so
    far. *)
Lemma for_nights_ok_any (max_date current : date) (options : list Z) :
  forall pairs r,
    for_nights max_date current options pairs = Ok r ->
    forall pairs',
      for_nights max_date current options pairs'
      = Ok (pairs' ++ emitted max_date current options).
Proof.
  unfold emitted.
  induction options as [|n rest IH]; simpl; intros pairs r H pairs'.
  - now rewrite app_nil_r.
  - destruct (add_days current n) as [ret|e] eqn:E; simpl in *; [|discriminate].
    apply add_days_ok in E as [-> _].
    erewrite IH by exact H.
    destruct (current + n <=? max_date); simpl.
    + now rewrite <- app_assoc.
    + reflexivity.
Qed.

(** With step 0 the loop repeats its first iteration for ever. *)
Lemma while_current_step0 (options : list Z) (eend max_date current : date)
    (r0 : list date_pair) (c' : date) :
  current <= eend ->
  for_nights max_date current options [] = Ok r0 ->
  add_days current 0 = Ok c' ->
  forall fuel pairs,
    while_current fuel 0 options eend max_date current pairs = OutOfFuel.
Proof.
  intros Hcur Hn Ha.
  induction fuel as [|fuel IH]; simpl; intros pairs; [reflexivity|].
  replace (current <=? eend) with true by (symmetry; apply Z.leb_le; lia).
  rewrite (for_nights_ok_any _ _ _ _ _ Hn pairs), Ha.
  apply add_days_ok in Ha as [-> _]. rewrite Z.add_0_r. apply IH.
Qed.

(** How [generate_date_pairs] returns: with the empty list on an inverted
    window, and otherwise with what the loop returns. *)
Lemma generate_returned (fuel : nat) (today : date) (cfg : config)
    (pairs : list date_pair) (start max_date : date) :
  generate_date_pairs fuel today cfg = Returned (pairs, start, max_date) ->
  start = cfg.(date_from) /\ max_date = today + MAX_DAYS_AHEAD
  /\ ((effective_end today cfg < effective_start today cfg /\ pairs = [])
      \/ (effective_start today cfg <= effective_end today cfg
          /\ while_current fuel (step_of cfg) (nights_options cfg)
               (effective_end today cfg) max_date
               (effective_start today cfg) [] = Returned pairs)).
Proof.
  unfold generate_date_pairs, effective_start, effective_end.
  destruct (add_days today MAX_DAYS_AHEAD) as [md|e] eqn:Emax; [|discriminate].
  destruct (add_days today 1) as [tomorrow|e] eqn:Etom; [|discriminate].
  apply add_days_ok in Emax as [-> _]. apply add_days_ok in Etom as [-> _].
  destruct (_ >? _) eqn:Einv.
  - intros [= <- <- <-]. repeat split. left. split; [|reflexivity].
    apply Z.gtb_lt in Einv. lia.
  - destruct (while_current _ _ _ _ _ _ _) as [ps| |] eqn:Ew; try discriminate.
    intros [= <- <- <-]. repeat split. right. split; [|exact Ew].
    rewrite Z.gtb_ltb in Einv. apply Z.ltb_ge in Einv. lia.
Qed.

Lemma nights_options_spec (cfg : config) :
  nights_options cfg = candidates_spec cfg.
Proof.
  unfold nights_options, candidates_spec.
  rewrite Z.gtb_ltb. now destruct (2 <? _).
Qed.

Lemma emitted_sound (max_date d : date) (options : list Z) (p : date_pair) :
  In p (emitted max_date d options) ->
  pair_dep p = d /\ pair_ret p = d + pair_nights p /\ pair_ret p <= max_date
  /\ In (pair_nights p) options.
Proof.
  unfold emitted. intros H. apply in_map_iff in H as (n & <- & Hn).
  apply filter_In in Hn as [Hin Hle]. apply Z.leb_le in Hle.
  simpl. auto.
Qed.

(** C5.  Every triple [generate_date_pairs] emits has return date =
    departure date + nights and a return date no later than today + 330
    days; a candidate whose return date would exceed that horizon is not
    emitted. *)
Theorem generated_pairs_within_horizon (fuel : nat) (today : date)
    (cfg : config) (pairs : list date_pair) (start max_date : date) :
  generate_date_pairs fuel today cfg = Returned (pairs, start, max_date) ->
  Forall (fun p => pair_ret p = pair_dep p + pair_nights p
                   /\ pair_ret p <= today + MAX_DAYS_AHEAD) pairs
  /\ (forall d n, today + MAX_DAYS_AHEAD < d + n -> ~ In (d, d + n, n) pairs).
Proof.
  intros H. apply generate_returned in H as (_ & -> & [[_ ->]|[Hwin Hw]]).
  - split; [constructor|]. intros d n _ [].
  - assert (Hall : Forall (fun p => pair_ret p = pair_dep p + pair_nights p
                     /\ pair_ret p <= today + MAX_DAYS_AHEAD) pairs).
    { destruct (Z_le_gt_dec 1 (step_of cfg)) as [Hstep|Hstep].
      - apply while_current_returned in Hw as (deps & -> & _ & _);
          [|assumption].
        simpl. apply Forall_forall. intros p Hp.
        apply in_flat_map in Hp as (d & _ & Hp).
        apply emitted_sound in Hp as (-> & Hr & Hle & _). auto.
      - exfalso. eapply while_current_stuck; [| |exact Hw]; [lia|assumption]. }
    split; [exact Hall|].
    intros d n Hlate Hin.
    rewrite Forall_forall in Hall. apply Hall in Hin as [_ Hle].
    unfold pair_ret in Hle. simpl in Hle. lia.
Qed.

Lemma generated_pairs_within_horizon_witness :
  Forall (fun p => pair_ret p = pair_dep p + pair_nights p
                   /\ pair_ret p <= a_day + MAX_DAYS_AHEAD)
    [(a_day + 1, a_day + 4, 3); (a_day + 1, a_day + 6, 5);
     (a_day + 6, a_day + 9, 3); (a_day + 6, a_day + 11, 5)]
  /\ (forall d n, a_day + MAX_DAYS_AHEAD < d + n ->
        ~ In (d, d + n, n)
            [(a_day + 1, a_day + 4, 3); (a_day + 1, a_day + 6, 5);
             (a_day + 6, a_day + 9, 3); (a_day + 6, a_day + 11, 5)]).
Proof.
  apply (generated_pairs_within_horizon 3 a_day
           (sample_cfg (a_day + 1) (a_day + 10) 3 5 (Some 5))
           _ (a_day + 1) (a_day + 330)).
  vm_compute. reflexivity.
Defined.

(** C6.  When the requested window clipped to [tomorrow, today + 330] is
    inverted, [generate_date_pairs] returns the empty list (with the
    requested start and the horizon date): no exception, and the loop is
    never entered, whatever the fuel.  [main] then reports that the dates are
    not available yet and returns, without any search.  ([today] is a date
    at least 330 days before [date.max].) *)
Theorem inverted_window_returns_empty (fuel : nat) (today : date)
    (cfg : config) :
  MINORD <= today -> today + MAX_DAYS_AHEAD <= MAXORD ->
  effective_end today cfg < effective_start today cfg ->
  generate_date_pairs fuel today cfg
  = Returned ([], cfg.(date_from), today + MAX_DAYS_AHEAD)
  /\ forall build_url world,
       Orchestrator.main build_url world cfg fuel today
       = Returned (Orchestrator.Unavailable cfg.(date_from)
                     (today + MAX_DAYS_AHEAD)).
Proof.
  intros Hlo Hhi Hinv.
  assert (H : generate_date_pairs fuel today cfg
              = Returned ([], cfg.(date_from), today + MAX_DAYS_AHEAD)).
  { unfold effective_start, effective_end, generate_date_pairs,
      MAX_DAYS_AHEAD in *.
    unfold MINORD, MAXORD in *.
    rewrite !add_days_in_range by (unfold MINORD, MAXORD; lia).
    replace (_ >? _) with true; [reflexivity|].
    symmetry. apply Z.gtb_lt. exact Hinv. }
  split; [exact H|].
  intros build_url world. unfold Orchestrator.main. now rewrite H.
Qed.

(** The example of the specification: a window from today + 400 to
    today + 450 days. *)
Lemma inverted_window_returns_empty_witness :
  generate_date_pairs 0 a_day
    (sample_cfg (a_day + 400) (a_day + 450) 3 5 (Some 5))
  = Returned ([], a_day + 400, a_day + 330)
  /\ forall build_url world,
       Orchestrator.main build_url world
         (sample_cfg (a_day + 400) (a_day + 450) 3 5 (Some 5)) 0 a_day
       = Returned (Orchestrator.Unavailable (a_day + 400) (a_day + 330)).
Proof.
  apply (inverted_window_returns_empty 0 a_day
           (sample_cfg (a_day + 400) (a_day + 450) 3 5 (Some 5)));
    vm_compute; congruence.
Defined.

(** C7, counterexample.  Four days before the horizon a departure date is
    emitted with 3 nights only: the candidate of 5 nights would return
    after the horizon and is dropped. *)
Lemma candidate_dropped_near_horizon :
  generate_date_pairs 2 a_day near_horizon_cfg
  = Returned ([(a_day + 326, a_day + 329, 3)], a_day + 326, a_day + 330)
  /\ candidates_spec near_horizon_cfg = [3; 5]
  /\ ~ nights_exactly_candidates near_horizon_cfg
        [(a_day + 326, a_day + 329, 3)].
Proof.
  split; [vm_compute; reflexivity|]. split; [reflexivity|].
  intros H. specialize (H (a_day + 326) (or_introl eq_refl) 5).
  destruct H as [_ H].
  assert (Hin : In 5 (candidates_spec near_horizon_cfg))
    by (right; left; reflexivity).
  apply H in Hin. vm_compute in Hin.
  destruct Hin as [Hin|[]]. discriminate.
Qed.

(** C7, amended.  The candidate list is min, max, and the integer midpoint
    between them exactly when max - min exceeds 2.  The output is, for
    departure dates [deps] in strictly ascending order, the concatenation of
    what each departure emits: its candidates whose return date stays within
    the horizon, in the order (min, mid, max).  So the nights attached to a
    departure date are exactly the candidates that fit the horizon. *)
Theorem sampler_output_shape (fuel : nat) (today : date) (cfg : config)
    (pairs : list date_pair) (start max_date : date) :
  generate_date_pairs fuel today cfg = Returned (pairs, start, max_date) ->
  nights_options cfg = candidates_spec cfg
  /\ exists deps : list date,
      StronglySorted Z.lt deps
      /\ pairs = flat_map (fun d => emitted max_date d (nights_options cfg))
                 deps
      /\ forall d, In d deps ->
           nights_of d pairs
           = filter (fun n => d + n <=? max_date) (nights_options cfg).
Proof.
  intros H. split; [apply nights_options_spec|].
  apply generate_returned in H as (_ & -> & [[_ ->]|[Hwin Hw]]).
  - exists []. repeat split; [constructor|]. intros d [].
  - destruct (Z_le_gt_dec 1 (step_of cfg)) as [Hstep|Hstep].
    + apply while_current_returned in Hw as (deps & -> & _ & Hsorted);
        [|assumption].
      exists deps. simpl. repeat split; [assumption|].
      clear - Hsorted. intros d Hd. unfold nights_of.
      induction Hsorted as [|d0 deps Hs IH Hlt]; [destruct Hd|].
      simpl. rewrite filter_app, map_app.
      assert (Hother : forall d1 d2 opts, d1 <> d2 ->
                filter (fun p => pair_dep p =? d2)
                  (emitted (today + MAX_DAYS_AHEAD) d1 opts) = []).
      { intros d1 d2 opts Hne. unfold emitted.
        induction (filter _ opts) as [|n l IHl]; simpl; [reflexivity|].
        unfold pair_dep at 1. simpl.
        destruct (d1 =? d2) eqn:E; [apply Z.eqb_eq in E; contradiction|].
        exact IHl. }
      assert (Hsame : forall d1 opts,
                map pair_nights (filter (fun p => pair_dep p =? d1)
                  (emitted (today + MAX_DAYS_AHEAD) d1 opts))
                = filter (fun n => d1 + n <=? today + MAX_DAYS_AHEAD) opts).
      { intros d1 opts. unfold emitted.
        induction (filter _ opts) as [|n l IHl]; simpl; [reflexivity|].
        unfold pair_dep at 1. simpl. rewrite Z.eqb_refl. simpl.
        now rewrite IHl. }
      destruct Hd as [->|Hd].
      * rewrite Hsame.
        assert (Hrest : filter (fun p => pair_dep p =? d)
                  (flat_map (fun d1 => emitted (today + MAX_DAYS_AHEAD) d1
                                         (nights_options cfg)) deps) = []).
        { clear - Hlt Hother. induction deps as [|d1 deps IHd]; [reflexivity|].
          simpl. rewrite filter_app.
          inversion Hlt as [|? ? Hd1 Hrest]; subst.
          rewrite Hother by lia. simpl. now apply IHd. }
        rewrite Hrest. simpl. now rewrite app_nil_r.
      * rewrite Hother.
        -- simpl. now apply IH.
        -- rewrite Forall_forall in Hlt. apply Hlt in Hd. lia.
    + exfalso. eapply while_current_stuck; [| |exact Hw]; [lia|assumption].
Qed.

Lemma sampler_output_shape_witness :
  nights_options near_horizon_cfg = candidates_spec near_horizon_cfg
  /\ exists deps : list date,
      StronglySorted Z.lt deps
      /\ [(a_day + 326, a_day + 329, 3)]
         = flat_map (fun d => emitted (a_day + 330) d
                               (nights_options near_horizon_cfg)) deps
      /\ forall d, In d deps ->
           nights_of d [(a_day + 326, a_day + 329, 3)]
           = filter (fun n => d + n <=? a_day + 330)
               (nights_options near_horizon_cfg).
Proof.
  apply (sampler_output_shape 2 a_day near_horizon_cfg _ (a_day + 326)).
  vm_compute. reflexivity.
Defined.

(** C10, counterexample.  A step of at least 1 is not necessary for the
    function to halt: with a negative step and a non-empty window the first
    [current += timedelta(days=step)] leaves the range of [date] and the
    function ends by raising [OverflowError]. *)
Lemma negative_step_halts_by_raising :
  step_of backwards_cfg <= 0
  /\ effective_start a_day backwards_cfg <= effective_end a_day backwards_cfg
  /\ generate_date_pairs 1 a_day backwards_cfg = Raised OverflowError
  /\ halts (generate_date_pairs 1 a_day backwards_cfg).
Proof.
  repeat split; try (vm_compute; congruence).
Qed.

(** C10, amended.  With a step of at least 1 [generate_date_pairs] halts:
    every iteration moves the departure date forward, and one more
    iteration than the days of the clipped window suffices.  The step is
    not validated: with a step of 0 or less and a non-empty clipped window
    the walk never advances and the function never returns its pairs; with
    step 0 it runs forever unless the first iteration raises, and with a
    negative step it walks backwards until it raises [OverflowError]. *)
Theorem sampler_termination (today : date) (cfg : config) :
  (1 <= step_of cfg ->
   forall fuel,
     (Z.to_nat (effective_end today cfg - effective_start today cfg + 1)
      < fuel)%nat ->
     halts (generate_date_pairs fuel today cfg))
  /\ (step_of cfg <= 0 ->
      effective_start today cfg <= effective_end today cfg ->
      (forall fuel out, generate_date_pairs fuel today cfg <> Returned out)
      /\ (step_of cfg = 0 ->
          (forall fuel, generate_date_pairs fuel today cfg = OutOfFuel)
          \/ generate_date_pairs 1 today cfg = Raised OverflowError)
      /\ (step_of cfg < 0 ->
          exists fuel,
            generate_date_pairs fuel today cfg = Raised OverflowError)).
Proof.
  unfold generate_date_pairs, effective_start, effective_end, halts.
  set (options := nights_options cfg).
  set (step := step_of cfg).
  split.
  - intros Hstep fuel Hfuel.
    destruct (add_days today MAX_DAYS_AHEAD) as [md|e] eqn:Emax;
      [|discriminate].
    destruct (add_days today 1) as [tomorrow|e] eqn:Etom; [|discriminate].
    apply add_days_ok in Emax as [-> _]. apply add_days_ok in Etom as [-> _].
    destruct (_ >? _); [discriminate|].
    pose proof (while_current_halts step options
                  (Z.min (date_to cfg) (today + MAX_DAYS_AHEAD))
                  (today + MAX_DAYS_AHEAD) Hstep fuel
                  (Z.max (date_from cfg) (today + 1)) [] Hfuel) as Hh.
    unfold halts in Hh.
    destruct (while_current _ _ _ _ _ _ _); congruence.
  - intros Hstep Hwin.
    destruct (add_days today MAX_DAYS_AHEAD) as [md|e] eqn:Emax.
    2:{ apply add_days_raises in Emax. subst e.
        split; [discriminate|]. split; [now right|].
        intros _. now exists 0%nat. }
    destruct (add_days today 1) as [tomorrow|e] eqn:Etom.
    2:{ apply add_days_raises in Etom. subst e.
        split; [discriminate|]. split; [now right|].
        intros _. now exists 0%nat. }
    apply add_days_ok in Emax as [-> _]. apply add_days_ok in Etom as [-> _].
    set (eend := Z.min (date_to cfg) (today + MAX_DAYS_AHEAD)) in *.
    set (estart := Z.max (date_from cfg) (today + 1)) in *.
    replace (estart >? eend) with false
      by (symmetry; rewrite Z.gtb_ltb; apply Z.ltb_ge; lia).
    split; [|split].
    + intros fuel out.
      destruct (while_current _ _ _ _ _ _ _) as [ps| |] eqn:Ew;
        try discriminate.
      exfalso. eapply while_current_stuck; [| |exact Ew]; assumption.
    + intros Hzero. rewrite Hzero.
      destruct (for_nights (today + MAX_DAYS_AHEAD) estart options [])
        as [r0|e] eqn:En.
      * destruct (add_days estart 0) as [c'|e] eqn:Ea.
        -- left. intros fuel.
           now rewrite (while_current_step0 _ _ _ _ _ _ Hwin En Ea).
        -- right. simpl.
           replace (estart <=? eend) with true
             by (symmetry; apply Z.leb_le; lia).
           rewrite En, Ea. apply add_days_raises in Ea. now subst.
      * right. simpl.
        replace (estart <=? eend) with true
          by (symmetry; apply Z.leb_le; lia).
        rewrite En. apply for_nights_raises in En. now subst.
    + intros Hneg.
      destruct (while_current_backwards step options eend
                  (today + MAX_DAYS_AHEAD) Hneg
                  (Z.to_nat estart) estart [])
        as [fuel Hfuel]; [lia|assumption|].
      exists fuel. now rewrite Hfuel.
Qed.

(** The sample of the specification: ten days from tomorrow, step 5. *)
Lemma sampler_termination_witness :
  halts (generate_date_pairs 11 a_day
           (sample_cfg (a_day + 1) (a_day + 10) 3 5 (Some 5)))
  /\ (forall fuel out,
        generate_date_pairs fuel a_day
          (sample_cfg (a_day + 1) (a_day + 10) 3 5 (Some 0))
        <> Returned out).
Proof.
  split.
  - apply (proj1 (sampler_termination a_day
             (sample_cfg (a_day + 1) (a_day + 10) 3 5 (Some 5))));
      vm_compute; [congruence|lia].
  - apply (proj2 (sampler_termination a_day
             (sample_cfg (a_day + 1) (a_day + 10) 3 5 (Some 0))));
      vm_compute; congruence.
Defined.

(** ** Normal return on a sane configuration *)

Lemma for_nights_total (max_date current : date) (options : list Z) :
  MINORD <= current <= MAXORD ->
  Forall (fun n => MINORD <= current + n <= MAXORD) options ->
  forall pairs, exists r, for_nights max_date current options pairs = Ok r.
Proof.
  intros Hcur Hall. induction Hall as [|n rest Hn _ IH]; simpl; intros pairs.
  - now exists pairs.
  - rewrite add_days_in_range by assumption. simpl. apply IH.
Qed.

Lemma while_current_returns (step : Z) (options : list Z)
    (eend max_date : date) :
  1 <= step -> eend + step <= MAXORD ->
  Forall (fun n => 0 <= n /\ eend + n <= MAXORD) options ->
  forall fuel current pairs,
    MINORD <= current ->
    (Z.to_nat (eend - current + 1) < fuel)%nat ->
    exists out,
      while_current fuel step options eend max_date current pairs
      = Returned out.
Proof.
  intros Hstep Hend Hopts.
  induction fuel as [|fuel IH]; simpl; intros current pairs Hlo Hfuel; [lia|].
  destruct (current <=? eend) eqn:Ecur; [|now exists pairs].
  apply Z.leb_le in Ecur. unfold MINORD in *.
  destruct (for_nights_total max_date current options) with (pairs := pairs)
    as [r ->].
  - unfold MINORD. lia.
  - eapply Forall_impl; [|exact Hopts]. unfold MINORD. simpl. intros n Hn. lia.
  - rewrite add_days_in_range by (unfold MINORD; lia).
    apply IH; lia.
Qed.

(** On a configuration with a step of at least 1 and sizes that keep the
    date arithmetic within the range of [date], the sampler returns. *)
Lemma generate_date_pairs_returns (today : date) (cfg : config) :
  MINORD <= today ->
  1 <= step_of cfg ->
  0 <= cfg.(nights_min) <= cfg.(nights_max) ->
  today + MAX_DAYS_AHEAD + cfg.(nights_max) <= MAXORD ->
  today + MAX_DAYS_AHEAD + step_of cfg <= MAXORD ->
  forall fuel,
    (Z.to_nat (effective_end today cfg - effective_start today cfg + 1)
     < fuel)%nat ->
    exists pairs,
      generate_date_pairs fuel today cfg
      = Returned (pairs, cfg.(date_from), today + MAX_DAYS_AHEAD).
Proof.
  unfold generate_date_pairs, effective_start, effective_end, MAX_DAYS_AHEAD.
  intros Hlo Hstep Hnights Hmax Hstepmax fuel Hfuel.
  unfold MINORD, MAXORD in *.
  rewrite !add_days_in_range by (unfold MINORD, MAXORD; lia).
  destruct (_ >? _); [now exists []|].
  destruct (while_current_returns (step_of cfg) (nights_options cfg)
              (Z.min (date_to cfg) (today + 330)) (today + 330))
    with (fuel := fuel) (current := Z.max (date_from cfg) (today + 1))
         (pairs := @nil date_pair) as [out ->].
  - assumption.
  - unfold MAXORD. lia.
  - rewrite nights_options_spec. unfold candidates_spec, MAXORD.
    assert (Hmid : cfg.(nights_min) <= (cfg.(nights_min) + cfg.(nights_max)) / 2
                   <= cfg.(nights_max)).
    { split.
      - apply Z.div_le_lower_bound; lia.
      - apply Z.div_le_upper_bound; lia. }
    destruct (2 <? _); simpl; repeat constructor; lia.
  - unfold MINORD. lia.
  - assumption.
  - now exists out.
Qed.

End SamplerFacts.

(* ================================================================== *)
(** * Properties of the float model *)

Module PyFloatFacts.
Import PyFloat FloatTerms.

(** ** The order of the floats that are not NaN *)

Lemma lex3_Lt (a b : Z * Z * Z) : lex3 a b = Lt <-> lt3 a b.
Proof.
  destruct a as [[a1 a2] a3], b as [[b1 b2] b3]. unfold lex3, lt3.
  destruct (Z.compare_spec a1 b1) as [E1|E1|E1],
    (Z.compare_spec a2 b2) as [E2|E2|E2],
    (Z.compare_spec a3 b3) as [E3|E3|E3]; split; intros Hc;
    try discriminate; try reflexivity; lia.
Qed.

Lemma lex3_Eq (a b : Z * Z * Z) : lex3 a b = Eq <-> a = b.
Proof.
  destruct a as [[a1 a2] a3], b as [[b1 b2] b3]. unfold lex3.
  destruct (Z.compare_spec a1 b1) as [E1|E1|E1],
    (Z.compare_spec a2 b2) as [E2|E2|E2],
    (Z.compare_spec a3 b3) as [E3|E3|E3]; split; intros Hc;
    try discriminate; try reflexivity; subst; try congruence;
    injection Hc; intros; lia.
Qed.

Lemma lex3_Gt (a b : Z * Z * Z) : lex3 a b = Gt <-> lt3 b a.
Proof.
  destruct a as [[a1 a2] a3], b as [[b1 b2] b3]. unfold lex3, lt3.
  destruct (Z.compare_spec a1 b1) as [E1|E1|E1],
    (Z.compare_spec a2 b2) as [E2|E2|E2],
    (Z.compare_spec a3 b3) as [E3|E3|E3]; split; intros Hc;
    try discriminate; try reflexivity; lia.
Qed.

Lemma SFcompare_rank (x y : float) :
  is_nan x = false -> is_nan y = false ->
  SFcompare x y = Some (lex3 (rank x) (rank y)).
Proof.
  destruct x as [sx|sx| |sx mx ex], y as [sy|sy| |sy my ey];
    try discriminate; intros _ _;
    try destruct sx; try destruct sy; try reflexivity; simpl.
  rewrite Z.compare_opp, (Z.compare_antisym ex ey).
  destruct (ex ?= ey); reflexivity.
Qed.

Lemma ltb_rank (x y : float) :
  is_nan x = false -> is_nan y = false ->
  (ltb x y = true <-> lt3 (rank x) (rank y)).
Proof.
  intros Hx Hy. unfold ltb, SFltb. rewrite SFcompare_rank by assumption.
  rewrite <- lex3_Lt. destruct (lex3 _ _); split; congruence.
Qed.

Lemma eqb_rank (x y : float) :
  is_nan x = false -> is_nan y = false ->
  (eqb x y = true <-> rank x = rank y).
Proof.
  intros Hx Hy. unfold eqb, SFeqb. rewrite SFcompare_rank by assumption.
  rewrite <- lex3_Eq. destruct (lex3 _ _); split; congruence.
Qed.

Lemma leb_rank (x y : float) :
  is_nan x = false -> is_nan y = false ->
  (leb x y = true <-> ~ lt3 (rank y) (rank x)).
Proof.
  intros Hx Hy. unfold leb, SFleb. rewrite SFcompare_rank by assumption.
  rewrite <- lex3_Gt. destruct (lex3 _ _); split; congruence.
Qed.

(** NaN compares false with everything. *)
Lemma eqb_nan_l (x y : float) : is_nan x = true -> eqb x y = false.
Proof. destruct x; try discriminate. reflexivity. Qed.

Lemma eqb_nan_r (x y : float) : is_nan y = true -> eqb x y = false.
Proof. destruct y; try discriminate. now destruct x. Qed.

Lemma eqb_sym (x y : float) : eqb x y = eqb y x.
Proof.
  destruct (is_nan x) eqn:Hx;
    [now rewrite (eqb_nan_l x y Hx), (eqb_nan_r y x Hx)|].
  destruct (is_nan y) eqn:Hy;
    [now rewrite (eqb_nan_r x y Hy), (eqb_nan_l y x Hy)|].
  apply eq_true_iff_eq. rewrite !eqb_rank by assumption. split; congruence.
Qed.

Lemma eqb_trans (x y z : float) :
  eqb x y = true -> eqb y z = true -> eqb x z = true.
Proof.
  intros Hxy Hyz.
  destruct (is_nan x) eqn:Hx; [now rewrite (eqb_nan_l x y Hx) in Hxy|].
  destruct (is_nan y) eqn:Hy; [now rewrite (eqb_nan_l y z Hy) in Hyz|].
  destruct (is_nan z) eqn:Hz; [now rewrite (eqb_nan_r y z Hz) in Hyz|].
  rewrite eqb_rank in * by assumption. congruence.
Qed.

Lemma eqb_refl (x : float) : is_nan x = false -> eqb x x = true.
Proof. intros Hx. now apply eqb_rank. Qed.

(** [<=] is total and transitive, and [<] refines it. *)
Lemma leb_total (x y : float) :
  is_nan x = false -> is_nan y = false ->
  ltb x y = false -> leb y x = true.
Proof.
  intros Hx Hy H. apply leb_rank; [assumption..|].
  intros Hlt. apply ltb_rank in Hlt; [congruence|assumption..].
Qed.

Lemma ltb_leb (x y : float) :
  is_nan x = false -> is_nan y = false ->
  ltb x y = true -> leb x y = true.
Proof.
  intros Hx Hy H. apply ltb_rank in H; [|assumption..].
  apply leb_rank; [assumption..|].
  destruct (rank x) as [[a1 a2] a3], (rank y) as [[b1 b2] b3].
  unfold lt3 in *. lia.
Qed.

Lemma leb_trans (x y z : float) :
  is_nan x = false -> is_nan y = false -> is_nan z = false ->
  leb x y = true -> leb y z = true -> leb x z = true.
Proof.
  intros Hx Hy Hz Hxy Hyz.
  apply leb_rank in Hxy, Hyz; [|assumption..].
  apply leb_rank; [assumption..|].
  destruct (rank x) as [[a1 a2] a3], (rank y) as [[b1 b2] b3],
    (rank z) as [[c1 c2] c3].
  unfold lt3 in *. lia.
Qed.

Lemma leb_antisym (x y : float) :
  is_nan x = false -> is_nan y = false ->
  leb x y = true -> leb y x = true -> eqb x y = true.
Proof.
  intros Hx Hy Hxy Hyx.
  apply leb_rank in Hxy, Hyx; [|assumption..].
  apply eqb_rank; [assumption..|].
  destruct (rank x) as [[a1 a2] a3], (rank y) as [[b1 b2] b3].
  unfold lt3 in *.
  assert (a1 = b1 /\ a2 = b2 /\ a3 = b3) as (-> & -> & ->) by lia.
  reflexivity.
Qed.

(** Nothing at or above a strictly greater float equals [x]. *)
Lemma ltb_leb_neq (x y z : float) :
  is_nan x = false -> is_nan y = false -> is_nan z = false ->
  ltb x y = true -> leb y z = true -> eqb z x = false.
Proof.
  intros Hx Hy Hz Hxy Hyz.
  apply ltb_rank in Hxy; [|assumption..].
  apply leb_rank in Hyz; [|assumption..].
  destruct (eqb z x) eqn:E; [|reflexivity].
  apply eqb_rank in E; [|assumption..].
  destruct (rank x) as [[a1 a2] a3], (rank y) as [[b1 b2] b3],
    (rank z) as [[c1 c2] c3].
  injection E as -> -> ->. unfold lt3 in *. lia.
Qed.

(** ** The arithmetic of the prices never produces NaN *)

Lemma shr_1_nonneg (mrs : shr_record) :
  0 <= shr_m mrs -> 0 <= shr_m (shr_1 mrs).
Proof.
  destruct mrs as [m r s]. simpl.
  destruct m as [|p|p]; simpl; try lia; destruct p; simpl; lia.
Qed.

Lemma iter_shr_1_nonneg (p : positive) :
  forall mrs, 0 <= shr_m mrs -> 0 <= shr_m (iter_pos shr_1 p mrs).
Proof.
  induction p as [p IH|p IH|]; simpl; intros mrs H.
  - apply IH, IH, shr_1_nonneg, H.
  - apply IH, IH, H.
  - apply shr_1_nonneg, H.
Qed.

Lemma shr_fexp_nonneg (m e : Z) (l : location) :
  0 <= m -> 0 <= shr_m (fst (shr_fexp prec emax m e l)).
Proof.
  intros H. unfold shr_fexp, shr.
  assert (H0 : 0 <= shr_m (shr_record_of_loc m l))
    by (destruct l as [|[]]; exact H).
  destruct (_ - e) as [|p|p]; simpl; try exact H0.
  now apply iter_shr_1_nonneg.
Qed.

Lemma round_nearest_even_nonneg (m : Z) (l : location) :
  0 <= m -> 0 <= round_nearest_even m l.
Proof.
  intros H. destruct l as [|[]]; simpl; try lia.
  destruct (Z.even m); lia.
Qed.

Lemma binary_round_aux_not_nan (s : bool) (mx ex : Z) (lx : location) :
  0 <= mx -> is_nan (binary_round_aux prec emax s mx ex lx) = false.
Proof.
  intros H. unfold binary_round_aux.
  pose proof (shr_fexp_nonneg mx ex lx H) as H1.
  destruct (shr_fexp prec emax mx ex lx) as [mrs' e']. simpl in H1.
  pose proof (shr_fexp_nonneg _ e' loc_Exact
                (round_nearest_even_nonneg _ (loc_of_shr_record mrs') H1))
    as H2.
  destruct (shr_fexp prec emax _ e' loc_Exact) as [mrs'' e'']. simpl in H2.
  destruct (shr_m mrs'') as [|m|m]; [reflexivity| |lia].
  now destruct (e'' <=? emax - prec).
Qed.

Lemma SFdiv_not_nan (x : float) (sy : bool) (my : positive) (ey : Z) :
  is_nan x = false ->
  is_nan (SFdiv prec emax x (S754_finite sy my ey)) = false.
Proof.
  destruct x as [sx|sx| |sx mx ex]; try discriminate; intros _;
    try reflexivity.
  unfold SFdiv, SFdiv_core_binary.
  set (e' := Z.min _ _). set (s := ex - ey - e').
  set (m' := match s with Zpos _ => _ | Z0 => _ | Zneg _ => _ end).
  assert (Hm' : 0 <= m').
  { subst m'. destruct s; try lia. apply Z.shiftl_nonneg. lia. }
  pose proof (Z_div_mod m' (Zpos my) eq_refl) as Hdiv.
  destruct (Z.div_eucl m' (Zpos my)) as [q r].
  apply binary_round_aux_not_nan. nia.
Qed.

Lemma of_ratio_not_nan (sign : bool) (m : Z) (d : positive) :
  is_nan (of_ratio sign m d) = false.
Proof.
  unfold of_ratio. destruct m; try reflexivity.
  now apply SFdiv_not_nan.
Qed.

Lemma div_int_not_nan (x q : float) (n : Z) :
  is_nan x = false -> div_int x n = Ok q -> is_nan q = false.
Proof.
  unfold div_int, of_int, bind. intros Hx.
  destruct (binary_normalize prec emax n 0 false) as [sy|sy| |sy my ey];
    simpl; try discriminate.
  intros [= <-]. now apply SFdiv_not_nan.
Qed.

Lemma round2_not_nan (x : float) :
  is_nan x = false -> is_nan (round2 x) = false.
Proof.
  destruct x; simpl; auto. intros _. apply of_ratio_not_nan.
Qed.

End PyFloatFacts.

(* ================================================================== *)
(** * Properties of the orchestrator *)

Module OrchestratorFacts.
Import Dates Normalizer Sampler Orchestrator RunTerms.
Import Extractor(FlightData, Build_FlightData, trip, OneWay, RoundTrip,
                 SearchResult, ScrapedFlight, page_script, _fetch_flights).

Lemma parse_price_not_nan (s : string) (x : PyFloat.float) :
  parse_price s = Some x -> PyFloat.is_nan x = false.
Proof.
  unfold parse_price. destruct s as [|c s]; [discriminate|].
  unfold PyStr.float_of_decimal.
  destruct (PyStr.span_digits _) as [ip rest].
  destruct rest as [|c' fp].
  - destruct ip; [discriminate|].
    intros [= <-]. apply PyFloatFacts.of_ratio_not_nan.
  - destruct (_ && _); [|discriminate].
    intros [= <-]. apply PyFloatFacts.of_ratio_not_nan.
Qed.

(** ** Deduplication *)

#[local] Arguments key_eqb : simpl never.
#[local] Arguments key_of : simpl never.

Lemma key_eqb_trans (a b c : dedup_key) :
  key_eqb a b = true -> key_eqb b c = true -> key_eqb a c = true.
Proof.
  destruct a as [[[[pa da] ra] oa] aa], b as [[[[pb db] rb] ob] ab],
    c as [[[[pc dc] rc] oc] ac]. unfold key_eqb.
  rewrite !andb_true_iff, !Z.eqb_eq, !String.eqb_eq.
  intros ((((H1 & ->) & ->) & ->) & ->) ((((H2 & ->) & ->) & ->) & ->).
  repeat split. eapply PyFloatFacts.eqb_trans; eassumption.
Qed.

Lemma key_eqb_sym (a b : dedup_key) : key_eqb a b = key_eqb b a.
Proof.
  destruct a as [[[[pa da] ra] oa] aa], b as [[[[pb db] rb] ob] ab].
  unfold key_eqb.
  now rewrite PyFloatFacts.eqb_sym, (Z.eqb_sym da), (Z.eqb_sym ra),
    (String.eqb_sym oa), (String.eqb_sym aa).
Qed.

Lemma key_eqb_refl (f : itinerary) :
  PyFloat.is_nan f.(outbound).(price_total) = false ->
  key_eqb (key_of f) (key_of f) = true.
Proof.
  intros H. unfold key_eqb, key_of.
  now rewrite PyFloatFacts.eqb_refl, !Z.eqb_refl, !String.eqb_refl.
Qed.

Lemma dedup_from_first_seen :
  forall fs seen earlier,
    seen_of seen earlier ->
    dedup_from seen fs = first_seen_from earlier fs.
Proof.
  induction fs as [|f fs IH]; cbn [dedup_from first_seen_from];
    intros seen earlier Hseen; [reflexivity|].
  destruct (in_seen (key_of f) seen) eqn:Ein.
  - rewrite (proj1 (Hseen _) Ein). apply IH.
    intros k. rewrite existsb_app. cbn [existsb].
    rewrite orb_false_r, orb_true_iff.
    split; [intros H; left; now apply Hseen|].
    intros [H|H]; [now apply Hseen|].
    unfold in_seen in *. apply existsb_exists in Ein as (k' & Hk' & Hfk').
    apply existsb_exists. exists k'. split; [assumption|].
    eapply key_eqb_trans; eassumption.
  - destruct (existsb _ earlier) eqn:Eex.
    + apply Hseen in Eex. congruence.
    + f_equal. apply IH.
      intros k. rewrite existsb_app. cbn [existsb in_seen].
      rewrite orb_false_r, !orb_true_iff. fold (in_seen k seen).
      pose proof (Hseen k). tauto.
Qed.

(** The code's deduplication is the one the specification words. *)
Lemma dedup_first_seen (fs : list itinerary) : dedup fs = first_seen fs.
Proof.
  apply dedup_from_first_seen. intros k. simpl. tauto.
Qed.

Lemma dedup_from_incl :
  forall fs seen f, In f (dedup_from seen fs) -> In f fs.
Proof.
  induction fs as [|g fs IH]; simpl; intros seen f H; [assumption|].
  destruct (in_seen (key_of g) seen).
  - right. eapply IH, H.
  - destruct H as [->|H]; [now left|]. right. eapply IH, H.
Qed.

(** An offer is kept, or an offer with the same key is: one seen earlier
    (its key was in [seen]) or one kept from the list. *)
Lemma dedup_from_represented :
  forall fs seen f,
    In f fs ->
    in_seen (key_of f) seen = true
    \/ In f (dedup_from seen fs)
    \/ exists g, In g (dedup_from seen fs)
                 /\ key_eqb (key_of f) (key_of g) = true.
Proof.
  induction fs as [|g fs IH]; simpl; intros seen f H; [destruct H|].
  destruct H as [->|H].
  - destruct (in_seen (key_of f) seen) eqn:E; [now left|].
    right. left. now left.
  - destruct (in_seen (key_of g) seen) eqn:E.
    + now apply IH.
    + destruct (IH (key_of g :: seen) f H) as [Hs|[Hin|(h & Hh & Hk)]].
      * simpl in Hs. apply orb_true_iff in Hs as [Hs|Hs].
        -- right. right. exists g. split; [now left|assumption].
        -- now left.
      * right. left. now right.
      * right. right. exists h. split; [now right|assumption].
Qed.

(** No two offers that are kept have the same key. *)
Lemma dedup_from_distinct :
  forall fs seen,
    Forall (fun f => in_seen (key_of f) seen = false) (dedup_from seen fs)
    /\ ForallOrdPairs (fun a b => key_eqb (key_of b) (key_of a) = false)
         (dedup_from seen fs).
Proof.
  induction fs as [|g fs IH]; simpl; intros seen.
  - split; constructor.
  - destruct (in_seen (key_of g) seen) eqn:E; [apply IH|].
    destruct (IH (key_of g :: seen)) as [Hall Hpairs].
    split.
    + constructor; [assumption|].
      eapply Forall_impl; [|exact Hall]. simpl. intros a Ha.
      now apply orb_false_iff in Ha.
    + constructor; [|assumption].
      eapply Forall_impl; [|exact Hall]. simpl. intros a Ha.
      now apply orb_false_iff in Ha.
Qed.

(** ** Ranking *)

Lemma insert_sorted_perm (x : itinerary) (l : list itinerary) :
  Permutation (x :: l) (insert_sorted x l).
Proof.
  induction l as [|y l IH]; simpl; [reflexivity|].
  destruct (PyFloat.ltb (pp x) (pp y)); [reflexivity|].
  rewrite perm_swap. now constructor.
Qed.

Lemma insert_sorted_Forall (P : itinerary -> Prop) (x : itinerary)
    (l : list itinerary) :
  P x -> Forall P l -> Forall P (insert_sorted x l).
Proof.
  intros Hx Hl. eapply Permutation_Forall; [apply insert_sorted_perm|].
  now constructor.
Qed.

Lemma insert_sorted_sorted (x : itinerary) (l : list itinerary) :
  pp_ok x -> Forall pp_ok l ->
  StronglySorted pp_le l -> StronglySorted pp_le (insert_sorted x l).
Proof.
  intros Hx Hok Hs. induction Hs as [|y l Hs IH Hy]; simpl.
  - repeat constructor.
  - inversion Hok as [|? ? Hyok Hlok]; subst.
    destruct (PyFloat.ltb (pp x) (pp y)) eqn:E.
    + constructor; [now constructor|].
      assert (Hxy : pp_le x y) by now apply PyFloatFacts.ltb_leb.
      constructor; [assumption|].
      rewrite Forall_forall in *. intros z Hz.
      eapply PyFloatFacts.leb_trans; [| | |exact Hxy|apply Hy, Hz]; auto.
      now apply Hlok.
    + constructor; [now apply IH|].
      apply insert_sorted_Forall; [|assumption].
      now apply PyFloatFacts.leb_total.
Qed.

Lemma insert_sorted_priced (v : PyFloat.float) (x : itinerary)
    (l : list itinerary) :
  pp_ok x -> Forall pp_ok l -> StronglySorted pp_le l ->
  priced v (insert_sorted x l)
  = priced v l ++ (if PyFloat.eqb (pp x) v then [x] else []).
Proof.
  intros Hx Hok Hs. unfold priced.
  induction Hs as [|y l Hs IH Hy]; simpl; [reflexivity|].
  inversion Hok as [|? ? Hyok Hlok]; subst.
  destruct (PyFloat.ltb (pp x) (pp y)) eqn:E.
  - simpl. destruct (PyFloat.eqb (pp x) v) eqn:Exv;
      [|now rewrite app_nil_r].
    assert (Hnone : forall z, In z (y :: l) -> PyFloat.eqb (pp z) v = false).
    { intros z Hz.
      assert (Hyz : PyFloat.leb (pp y) (pp z) = true).
      { destruct Hz as [<-|Hz].
        - apply PyFloatFacts.leb_total; auto.
          destruct (PyFloat.ltb (pp y) (pp y)) eqn:El; [|reflexivity].
          apply PyFloatFacts.ltb_rank in El; auto.
          destruct (FloatTerms.rank (pp y)) as [[a1 a2] a3].
          unfold FloatTerms.lt3 in El. lia.
        - rewrite Forall_forall in Hy. now apply Hy. }
      assert (Hzok : pp_ok z).
      { rewrite Forall_forall in Hok. now apply Hok. }
      pose proof (PyFloatFacts.ltb_leb_neq _ _ _ Hx Hyok Hzok E Hyz) as Hne.
      destruct (PyFloat.eqb (pp z) v) eqn:Ezv; [|reflexivity].
      rewrite <- Hne. symmetry.
      eapply PyFloatFacts.eqb_trans; [exact Ezv|].
      now rewrite PyFloatFacts.eqb_sym. }
    assert (Hempty : filter (fun a => PyFloat.eqb (pp a) v) (y :: l) = []).
    { clear - Hnone. induction (y :: l) as [|z r IHr]; simpl; [reflexivity|].
      rewrite (Hnone z (or_introl eq_refl)). apply IHr.
      intros w Hw. apply Hnone. now right. }
    simpl in Hempty. now rewrite Hempty.
  - simpl. rewrite (IH Hlok).
    now destruct (PyFloat.eqb (pp y) v).
Qed.

Lemma sort_by_price_pp_snoc (l : list itinerary) (x : itinerary) :
  sort_by_price_pp (l ++ [x]) = insert_sorted x (sort_by_price_pp l).
Proof. unfold sort_by_price_pp. now rewrite fold_left_app. Qed.

Lemma sort_by_price_pp_perm (l : list itinerary) :
  Permutation l (sort_by_price_pp l).
Proof.
  induction l as [|x l IH] using rev_ind; [reflexivity|].
  rewrite sort_by_price_pp_snoc, <- insert_sorted_perm.
  rewrite Permutation_app_comm. simpl. now constructor.
Qed.

Lemma sort_by_price_pp_sorted (l : list itinerary) :
  Forall pp_ok l ->
  StronglySorted pp_le (sort_by_price_pp l)
  /\ forall v, priced v (sort_by_price_pp l) = priced v l.
Proof.
  induction l as [|x l IH] using rev_ind; intros Hok.
  - split; [constructor|reflexivity].
  - apply Forall_app in Hok as [Hl Hx]. inversion Hx as [|? ? Hxok _]; subst.
    destruct (IH Hl) as [Hs Hst].
    assert (Hsok : Forall pp_ok (sort_by_price_pp l))
      by (eapply Permutation_Forall; [apply sort_by_price_pp_perm|assumption]).
    rewrite sort_by_price_pp_snoc. split.
    + now apply insert_sorted_sorted.
    + intros v. rewrite insert_sorted_priced by assumption.
      rewrite Hst. unfold priced. rewrite filter_app. simpl.
      now destruct (PyFloat.eqb (pp x) v).
Qed.

Section RunFacts.

Variable build_url : list FlightData -> trip -> Z -> string -> string.
Variable world : nat -> string -> page_script.
Variable cfg : config.

Local Abbreviation built_for := (RunTerms.built_for cfg).
Local Abbreviation raised_by := (RunTerms.raised_by build_url world cfg).
Local Abbreviation raised_from := (RunTerms.raised_from build_url world cfg).
Local Abbreviation outbound_query := (RunTerms.outbound_query cfg).
Local Abbreviation return_query := (RunTerms.return_query cfg).
Local Abbreviation phase1_step := (RunTerms.phase1_step build_url world cfg).
Local Abbreviation outbound_queries := (RunTerms.outbound_queries cfg).
Local Abbreviation offer_of_run := (RunTerms.offer_of_run cfg).
Local Abbreviation return_pick := (RunTerms.return_pick build_url world cfg).
Local Abbreviation completed_run :=
  (RunTerms.completed_run build_url world cfg).

Lemma process_listings_built (origin : string) (dep ret : date) (n : Z) :
  forall fs flights out,
    process_listings build_url cfg fs origin dep ret n flights = Ok out ->
    exists new,
      out = flights ++ new /\ Forall (built_for origin dep ret n) new.
Proof.
  induction fs as [|f fs IH]; simpl; intros flights out H.
  - injection H as <-. exists []. now rewrite app_nil_r.
  - destruct (parse_price f.(Extractor.price)) as [price|] eqn:Ep;
      [|now apply IH].
    destruct (PyFloat.div_int price cfg.(adults)) as [q|e] eqn:Eq;
      simpl in H; [|discriminate].
    destruct (_ >? _) eqn:Estops; [now apply IH|].
    apply IH in H as (new & -> & Hnew).
    eexists. rewrite <- app_assoc. split; [reflexivity|].
    simpl. constructor; [|assumption].
    constructor; simpl; try reflexivity.
    + exists f. auto.
    + exists q. auto.
    + rewrite Z.gtb_ltb in Estops. apply Z.ltb_ge in Estops. exact Estops.
Qed.

Lemma process_results_built (result : option SearchResult) (origin : string)
    (dep ret : date) (n : Z) (out : list offer) :
  process_results build_url cfg result origin dep ret n = Ok out ->
  Forall (built_for origin dep ret n) out.
Proof.
  unfold process_results. destruct result as [r|].
  - intros H. apply process_listings_built in H as (new & -> & Hnew).
    exact Hnew.
  - intros [= <-]. constructor.
Qed.


(** ** Phase 1 *)

Lemma raised_from_app (qs1 qs2 : list (list FlightData * trip)) :
  forall n,
    raised_from n (qs1 ++ qs2)
    = raised_from n qs1 ++ raised_from (n + List.length qs1) qs2.
Proof.
  induction qs1 as [|q qs1 IH]; simpl; intros n.
  - now rewrite Nat.add_0_r.
  - rewrite IH, <- app_assoc. do 3 f_equal. lia.
Qed.

Lemma searches_app (tr1 tr2 : list event) :
  searches (tr1 ++ tr2) = searches tr1 ++ searches tr2.
Proof.
  induction tr1 as [|[legs t|e] tr1 IH]; simpl; [reflexivity| |assumption].
  now rewrite IH.
Qed.

Lemma logged_errors_app (tr1 tr2 : list event) :
  logged_errors (tr1 ++ tr2) = logged_errors tr1 ++ logged_errors tr2.
Proof.
  induction tr1 as [|[legs t|e] tr1 IH]; simpl; [reflexivity|assumption|].
  now rewrite IH.
Qed.


Lemma run_search_logged (n : nat) (legs : list FlightData) (t : trip) :
  let out := run_search build_url world n legs t cfg.(adults) in
  searches (snd out) = []
  /\ logged_errors (snd out) = raised_by n (legs, t)
  /\ (fst out = None <-> raised_by n (legs, t) <> []).
Proof.
  unfold run_search, raised_by. simpl.
  destruct (search_flights _ _ _ _ _ _ _) as [r|e]; simpl;
    repeat split; try congruence; intros H; now elim H.
Qed.

Lemma phase1_step_refl (st : phase1_state) (P : offer -> Prop) :
  phase1_step st st [] P.
Proof.
  constructor; simpl; rewrite ?app_nil_r, ?Nat.add_0_r; try reflexivity.
  exists []. now rewrite app_nil_r.
Qed.

Lemma phase1_step_trans (st1 st2 st3 : phase1_state)
    (qs1 qs2 : list (list FlightData * trip)) (P : offer -> Prop) :
  phase1_step st1 st2 qs1 P -> phase1_step st2 st3 qs2 P ->
  phase1_step st1 st3 (qs1 ++ qs2) P.
Proof.
  intros [c1 s1 l1 e1 (n1 & f1 & H1)] [c2 s2 l2 e2 (n2 & f2 & H2)].
  constructor.
  - rewrite c2, c1, length_app. lia.
  - now rewrite s2, s1, app_assoc.
  - rewrite l2, l1, raised_from_app, c1, app_assoc. reflexivity.
  - rewrite e2, e1, raised_from_app, length_app, c1. lia.
  - exists (n1 ++ n2). rewrite f2, f1, app_assoc. split; [reflexivity|].
    apply Forall_app. now split.
Qed.

Lemma phase1_step_weaken (st st' : phase1_state)
    (qs : list (list FlightData * trip)) (P Q : offer -> Prop) :
  (forall o, P o -> Q o) ->
  phase1_step st st' qs P -> phase1_step st st' qs Q.
Proof.
  intros HPQ [c s l e (n & f & H)]. constructor; try assumption.
  exists n. split; [assumption|]. eapply Forall_impl; eassumption.
Qed.

Lemma phase1_search_spec (st st' : phase1_state) (origin : string)
    (p : date_pair) :
  phase1_search build_url world cfg st origin p = Ok st' ->
  phase1_step st st' [outbound_query origin p]
    (built_for origin (pair_dep p) (pair_ret p) (pair_nights p)).
Proof.
  destruct p as [[dep ret] n]. unfold phase1_search, outbound_query.
  unfold pair_dep, pair_ret, pair_nights. simpl fst. simpl snd.
  pose proof (run_search_logged st.(search_count)
                (round_trip_legs cfg origin dep ret) RoundTrip) as Hrun.
  destruct (run_search _ _ _ _ _ _) as [result logged].
  simpl in Hrun. destruct Hrun as (Hs & Hl & Hnone).
  assert (Hlen : result <> None -> raised_from st.(search_count)
             [(round_trip_legs cfg origin dep ret, RoundTrip)] = []).
  { intros Hr. simpl. rewrite app_nil_r.
    destruct (raised_by _ _) eqn:E; [reflexivity|].
    elim Hr. apply Hnone. discriminate. }
  assert (Htrace : forall fl er,
            phase1_step st
              {| search_count := S st.(search_count); errors := er;
                 all_flights := fl;
                 trace := st.(trace)
                          ++ Searched (round_trip_legs cfg origin dep ret)
                               RoundTrip :: logged |}
              [(round_trip_legs cfg origin dep ret, RoundTrip)]
              (built_for origin dep ret n)
            <-> (er = (st.(errors) + List.length (raised_from st.(search_count)
                        [(round_trip_legs cfg origin dep ret, RoundTrip)]))%nat
                 /\ exists new, fl = st.(all_flights) ++ new
                                /\ Forall (built_for origin dep ret n) new)).
  { intros fl er. split.
    - intros [_ _ _ He Hf]. simpl in *. auto.
    - intros [He Hf]. constructor; simpl; try assumption.
      + lia.
      + rewrite searches_app. simpl. now rewrite Hs.
      + rewrite logged_errors_app. simpl. now rewrite Hl, app_nil_r. }
  destruct result as [r|].
  - destruct r.(Extractor.flights) eqn:Efl.
    + intros [= <-]. apply Htrace. rewrite Hlen by discriminate.
      split; [simpl; lia|]. exists []. now rewrite app_nil_r.
    + destruct (process_results _ _ _ _ _ _ _) as [flights|e] eqn:Ep;
        simpl; [|discriminate].
      intros [= <-]. apply Htrace. rewrite Hlen by discriminate.
      split; [simpl; lia|]. exists flights. split; [reflexivity|].
      eapply process_results_built. exact Ep.
  - intros [= <-]. apply Htrace. split.
    + simpl. rewrite app_nil_r.
      destruct (raised_by _ _) as [|e l] eqn:E.
      * now elim (proj1 Hnone eq_refl).
      * unfold raised_by in E.
        destruct (search_flights _ _ _ _ _ _ _); [discriminate|].
        injection E as <- <-. simpl. lia.
    + exists []. now rewrite app_nil_r.
Qed.



Lemma phase1_pairs_spec (origin : string) :
  forall ps st st',
    phase1_pairs build_url world cfg st origin ps = Ok st' ->
    phase1_step st st' (map (outbound_query origin) ps)
      (fun o => exists p, In p ps
         /\ built_for origin (pair_dep p) (pair_ret p) (pair_nights p) o).
Proof.
  induction ps as [|p ps IH]; simpl; intros st st' H.
  - injection H as <-. apply phase1_step_refl.
  - destruct (phase1_search _ _ _ _ _ _) as [st1|e] eqn:E1; [|discriminate].
    simpl in H. apply phase1_search_spec in E1. apply IH in H.
    change (outbound_query origin p :: map (outbound_query origin) ps)
      with ([outbound_query origin p] ++ map (outbound_query origin) ps).
    eapply phase1_step_trans.
    + eapply phase1_step_weaken; [|exact E1]. intros o Ho. exists p. auto.
    + eapply phase1_step_weaken; [|exact H].
      intros o (q & Hq & Ho). exists q. auto.
Qed.


Lemma phase1_origins_spec (date_pairs : list date_pair) :
  forall os st st',
    phase1_origins build_url world cfg st os date_pairs = Ok st' ->
    phase1_step st st' (outbound_queries os date_pairs)
      (offer_of_run os date_pairs).
Proof.
  induction os as [|origin os IH]; simpl; intros st st' H.
  - injection H as <-. apply phase1_step_refl.
  - destruct (phase1_pairs _ _ _ _ _ _) as [st1|e] eqn:E1; [|discriminate].
    simpl in H. apply phase1_pairs_spec in E1. apply IH in H.
    eapply phase1_step_trans.
    + eapply phase1_step_weaken; [|exact E1].
      intros o (p & Hp & Ho). exists origin, p. simpl. auto.
    + eapply phase1_step_weaken; [|exact H].
      intros o (og & p & Hog & Hp & Ho). exists og, p. simpl. auto.
Qed.


(** Phase 1 as a whole: every query is made, in order, whatever the
    searches return or raise; the errors counted are the exceptions raised,
    each of them logged; the offers come from the searches. *)
Lemma phase1_spec (date_pairs : list date_pair) (st : phase1_state) :
  phase1 build_url world cfg date_pairs = Ok st ->
  let qs := outbound_queries cfg.(origins) date_pairs in
  st.(search_count) = List.length qs
  /\ searches st.(trace) = qs
  /\ logged_errors st.(trace) = raised_from 0 qs
  /\ st.(errors) = List.length (raised_from 0 qs)
  /\ Forall (offer_of_run cfg.(origins) date_pairs) st.(all_flights).
Proof.
  unfold phase1. intros H.
  apply phase1_origins_spec in H as [c s l e (new & f & Hnew)].
  simpl in *. subst. auto.
Qed.

Lemma outbound_queries_length (origins : list string)
    (date_pairs : list date_pair) :
  List.length (outbound_queries origins date_pairs)
  = (List.length date_pairs * List.length origins)%nat.
Proof.
  unfold outbound_queries.
  induction origins as [|o os IH]; simpl; [lia|].
  rewrite length_app, length_map, IH. lia.
Qed.

(** ** The dictionary of return legs *)

Lemma return_key_eqb_eq (a b : return_key) :
  return_key_eqb a b = true <-> a = b.
Proof.
  destruct a as [d1 o1], b as [d2 o2]. unfold return_key_eqb. simpl.
  rewrite andb_true_iff, Z.eqb_eq, String.eqb_eq.
  split; [intros [-> ->]; reflexivity|intros [= -> ->]; auto].
Qed.

Lemma return_key_eqb_refl (a : return_key) : return_key_eqb a a = true.
Proof. now apply return_key_eqb_eq. Qed.

Lemma return_key_eqb_neq (a b : return_key) :
  a <> b -> return_key_eqb a b = false.
Proof.
  intros H. destruct (return_key_eqb a b) eqn:E; [|reflexivity].
  now apply return_key_eqb_eq in E.
Qed.

Lemma return_key_eq_dec (a b : return_key) : {a = b} + {a <> b}.
Proof. decide equality; [apply string_dec|apply Z.eq_dec]. Qed.

Lemma keys_dict_set (k : return_key) (v : option ret_info) (d : returns_dict) :
  (In k (keys d) -> keys (dict_set k v d) = keys d)
  /\ (~ In k (keys d) -> keys (dict_set k v d) = keys d ++ [k]).
Proof.
  induction d as [|[k' v'] d [IHin IHout]]; simpl.
  - split; [intros []|reflexivity].
  - destruct (return_key_eqb k k') eqn:E; simpl.
    + apply return_key_eqb_eq in E. subst k'. split; [reflexivity|].
      intros H. elim H. now left.
    + split.
      * intros [->|H]; [now rewrite return_key_eqb_refl in E|].
        now rewrite IHin.
      * intros H. rewrite IHout; [reflexivity|]. intros Hin. apply H. now right.
Qed.

Lemma returns_get_dict_set (k k' : return_key) (v : option ret_info)
    (d : returns_dict) :
  returns_get k' (dict_set k v d)
  = if return_key_eqb k' k then v else returns_get k' d.
Proof.
  induction d as [|[k0 v0] d IH]; simpl.
  - now destruct (return_key_eqb k' k).
  - destruct (return_key_eqb k k0) eqn:E; simpl.
    + apply return_key_eqb_eq in E. subst k0.
      now destruct (return_key_eqb k' k).
    + rewrite IH. destruct (return_key_eqb k' k0) eqn:E0; [|reflexivity].
      apply return_key_eqb_eq in E0. subst k0.
      destruct (return_key_eqb k' k) eqn:E1; [|reflexivity].
      apply return_key_eqb_eq in E1. subst k'.
      now rewrite return_key_eqb_refl in E.
Qed.

Lemma collect_returns_fold (date_pairs : list date_pair)
    (origins : list string) :
  collect_returns date_pairs origins
  = fold_left (fun d k => dict_set k None d)
      (referenced_keys date_pairs origins) [].
Proof.
  unfold collect_returns, referenced_keys.
  generalize (@nil (return_key * option ret_info)).
  induction date_pairs as [|p ps IH]; simpl; intros d; [reflexivity|].
  rewrite fold_left_app, IH. f_equal.
  clear. revert d. induction origins as [|o os IH]; simpl; intros d; auto.
Qed.

Lemma fold_dict_set_spec (ks : list return_key) :
  forall d,
    NoDup (keys d) ->
    (forall k, returns_get k d = None) ->
    let d' := fold_left (fun d k => dict_set k None d) ks d in
    NoDup (keys d')
    /\ (forall k, In k (keys d') <-> In k (keys d) \/ In k ks)
    /\ (forall k, returns_get k d' = None).
Proof.
  induction ks as [|k ks IH]; simpl; intros d Hnd Hnone.
  - repeat split; auto. tauto.
  - destruct (keys_dict_set k None d) as [Hin Hout].
    assert (Hnd' : NoDup (keys (dict_set k None d))).
    { destruct (in_dec return_key_eq_dec k (keys d)) as [H|H]; cycle 1.
      - rewrite (Hout H). apply NoDup_app; auto.
        + repeat constructor. intros [].
        + intros a Ha [<-|[]]. now apply H.
      - now rewrite (Hin H). }
    assert (Hnone' : forall k0, returns_get k0 (dict_set k None d) = None).
    { intros k0. rewrite returns_get_dict_set.
      now destruct (return_key_eqb k0 k). }
    destruct (IH _ Hnd' Hnone') as (H1 & H2 & H3).
    repeat split; auto; rewrite H2.
    + intros [H|H]; [|tauto].
      destruct (in_dec return_key_eq_dec k (keys d)) as [Hk|Hk].
      * rewrite (Hin Hk) in H. tauto.
      * rewrite (Hout Hk) in H. apply in_app_iff in H as [H|[<-|[]]]; tauto.
    + intros [H|[<-|H]]; [| |tauto]; left.
      * destruct (in_dec return_key_eq_dec k (keys d)) as [Hk|Hk].
        -- now rewrite (Hin Hk).
        -- rewrite (Hout Hk). apply in_app_iff. now left.
      * destruct (in_dec return_key_eq_dec k (keys d)) as [Hk|Hk].
        -- now rewrite (Hin Hk).
        -- rewrite (Hout Hk). apply in_app_iff. right. now left.
Qed.

(** ** Phase 2 *)

(** The pick of [search_return_flights]: the first listing within the stop
    limit. *)
Lemma first_within_stops_find (fs : list ScrapedFlight) :
  first_within_stops cfg fs
  = option_map ret_info_of
      (find (fun f => parse_stops f.(Extractor.stops) <=? cfg.(max_stops)) fs).
Proof.
  induction fs as [|f fs IH]; simpl; [reflexivity|].
  destruct (_ <=? _); [reflexivity|exact IH].
Qed.

Lemma search_return_flights_logged (n : nat) (k : return_key) :
  let out := search_return_flights build_url world cfg n (snd k) (fst k) in
  searches (snd out) = []
  /\ logged_errors (snd out) = raised_by n (return_query k).
Proof.
  unfold search_return_flights, return_query.
  pose proof (run_search_logged n (one_way_legs cfg (snd k) (fst k)) OneWay)
    as Hrun.
  destruct (run_search _ _ _ _ _ _) as [[r|] logged]; simpl in *; tauto.
Qed.

Lemma phase2_keys_spec :
  forall ks n d tr d' tr',
    phase2_keys build_url world cfg n ks d tr = (d', tr') ->
    NoDup ks -> incl ks (keys d) ->
    keys d' = keys d
    /\ searches tr' = searches tr ++ map return_query ks
    /\ logged_errors tr'
       = logged_errors tr ++ raised_from n (map return_query ks)
    /\ (forall k, ~ In k ks -> returns_get k d' = returns_get k d)
    /\ (forall i k, nth_error ks i = Some k ->
          returns_get k d'
          = match return_pick (n + i) k with
            | Some info => Some info
            | None => returns_get k d
            end).
Proof.
  induction ks as [|k ks IH]; intros n d tr d' tr' H Hnd Hincl.
  - simpl in H. injection H as <- <-. rewrite !app_nil_r.
    repeat split; auto. intros [|i] k; discriminate.
  - cbn [phase2_keys] in H. destruct k as [ret_date origin].
    pose proof (search_return_flights_logged n (ret_date, origin)) as Hlog.
    unfold return_pick in *. simpl fst in *. simpl snd in *.
    destruct (search_return_flights build_url world cfg n origin ret_date)
      as [info logged] eqn:Es.
    simpl in Hlog. destruct Hlog as [Hs Hl].
    inversion Hnd as [|? ? Hk Hnd']; subst.
    assert (Hin : In (ret_date, origin) (keys d)) by (apply Hincl; now left).
    set (d1 := match info with
               | Some i => dict_set (ret_date, origin) (Some i) d
               | None => d
               end).
    assert (Hkeys1 : keys d1 = keys d).
    { subst d1. destruct info; [|reflexivity].
      now apply keys_dict_set. }
    assert (Hstep : phase2_keys build_url world cfg (S n) ks d1
                      (tr ++ Searched (one_way_legs cfg origin ret_date) OneWay
                          :: logged) = (d', tr')).
    { subst d1. now destruct info. }
    apply IH in Hstep as (Hk' & Hs' & Hl' & Hout & Hnth); auto.
    2:{ rewrite Hkeys1. intros a Ha. apply Hincl. now right. }
    assert (Hget1 : forall k, k <> (ret_date, origin) ->
              returns_get k d1 = returns_get k d).
    { intros k Hne. subst d1. destruct info; [|reflexivity].
      rewrite returns_get_dict_set. now rewrite return_key_eqb_neq. }
    repeat split.
    + congruence.
    + rewrite Hs', searches_app. simpl. rewrite Hs, <- app_assoc. reflexivity.
    + rewrite Hl', logged_errors_app. simpl. rewrite Hl, <- !app_assoc.
      reflexivity.
    + intros k Hk0. rewrite Hout by (intros Hc; apply Hk0; now right).
      apply Hget1. intros ->. apply Hk0. now left.
    + intros [|i] k Hi; simpl in Hi.
      * injection Hi as <-. rewrite Nat.add_0_r. simpl fst. simpl snd.
        rewrite Es. simpl. rewrite (Hout _ Hk). subst d1.
        destruct info; [|reflexivity].
        rewrite returns_get_dict_set. now rewrite return_key_eqb_refl.
      * rewrite (Hnth i k Hi). replace (n + S i)%nat with (S n + i)%nat by lia.
        rewrite Hget1; [reflexivity|].
        intros ->. apply Hk. eapply nth_error_In. exact Hi.
Qed.

(** ** The run as a whole *)

Lemma main_completed (fuel : nat) (today : date) (r : report) :
  main build_url world cfg fuel today = Returned (Completed r) ->
  exists date_pairs st returns,
    completed_run fuel today date_pairs st returns r.
Proof.
  unfold main.
  destruct (generate_date_pairs fuel today cfg) as [[[dps start] maxd]| |]
    eqn:Eg; try discriminate.
  destruct dps as [|p dps]; [discriminate|].
  destruct (phase1 _ _ _ _) as [st|e] eqn:E1; [|discriminate].
  destruct (phase2 _ _ _ _ _) as [returns tr2] eqn:E2.
  intros [= <-]. exists (p :: dps), st, returns.
  constructor; simpl; eauto. discriminate.
Qed.


Lemma built_for_not_nan (origin : string) (dep ret : date) (n : Z)
    (o : offer) :
  built_for origin dep ret n o ->
  PyFloat.is_nan o.(price_total) = false
  /\ PyFloat.is_nan o.(price_pp) = false.
Proof.
  intros [(f & Hf & _) (q & Hq & Hpp) _ _ _ _ _ _].
  apply parse_price_not_nan in Hf. split; [assumption|].
  rewrite Hpp. apply PyFloatFacts.round2_not_nan.
  eapply PyFloatFacts.div_int_not_nan; eassumption.
Qed.

Lemma merge_outbound (returns : returns_dict) (f : offer) :
  (merge returns f).(outbound) = f.
Proof. unfold merge. now destruct (returns_get _ _). Qed.

End RunFacts.

(** ** First-seen offers *)

Lemma first_seen_from_keeps (g : itinerary) (post : list itinerary) :
  forall pre earlier,
    existsb (fun h => key_eqb (key_of g) (key_of h)) (earlier ++ pre) = false ->
    In g (first_seen_from earlier (pre ++ g :: post)).
Proof.
  induction pre as [|a pre IH]; simpl; intros earlier H.
  - rewrite app_nil_r in H. rewrite H. now left.
  - assert (H' : existsb (fun h => key_eqb (key_of g) (key_of h))
                   ((earlier ++ [a]) ++ pre) = false)
      by now rewrite <- app_assoc.
    destruct (existsb _ earlier); [|right]; now apply IH.
Qed.

(** Among the offers that share a key, the one seen first is kept. *)
Lemma first_seen_first (fs : list itinerary) (f : itinerary) :
  In f fs ->
  key_eqb (key_of f) (key_of f) = true ->
  exists pre g post,
    fs = pre ++ g :: post
    /\ key_eqb (key_of f) (key_of g) = true
    /\ (forall h, In h pre -> key_eqb (key_of f) (key_of h) = false)
    /\ In g (first_seen fs).
Proof.
  intros Hin Hrefl.
  assert (Hsplit : exists pre g post,
            fs = pre ++ g :: post
            /\ key_eqb (key_of f) (key_of g) = true
            /\ forall h, In h pre -> key_eqb (key_of f) (key_of h) = false).
  { induction fs as [|a fs IH]; [destruct Hin|].
    destruct (key_eqb (key_of f) (key_of a)) eqn:E.
    - exists [], a, fs. repeat split; auto. intros h [].
    - destruct Hin as [->|Hin]; [congruence|].
      destruct (IH Hin) as (pre & g & post & -> & Hg & Hpre).
      exists (a :: pre), g, post. repeat split; auto.
      intros h [<-|Hh]; auto. }
  destruct Hsplit as (pre & g & post & -> & Hg & Hpre).
  exists pre, g, post. repeat split; auto.
  apply first_seen_from_keeps. simpl.
  destruct (existsb _ pre) eqn:E; [|reflexivity].
  apply existsb_exists in E as (h & Hh & Hgh).
  specialize (Hpre h Hh).
  rewrite (key_eqb_trans _ _ _ Hg Hgh) in Hpre. discriminate.
Qed.

(** With pairwise distinct keys, at most one offer has a given key. *)
Lemma distinct_keys_at_most_one (l : list itinerary) (k : dedup_key) :
  ForallOrdPairs (fun a b => key_eqb (key_of b) (key_of a) = false) l ->
  (List.length (filter (fun g => key_eqb k (key_of g)) l) <= 1)%nat.
Proof.
  intros H. induction H as [|a l Ha Hl IH]; simpl; [lia|].
  destruct (key_eqb k (key_of a)) eqn:E; [|exact IH].
  assert (Hnone : filter (fun g => key_eqb k (key_of g)) l = []).
  { clear - Ha E. induction Ha as [|b l Hb Hl IH]; simpl; [reflexivity|].
    destruct (key_eqb k (key_of b)) eqn:Eb; [|exact IH].
    rewrite key_eqb_sym in Eb.
    rewrite (key_eqb_trans _ _ _ Eb E) in Hb. discriminate. }
  rewrite Hnone. simpl. lia.
Qed.

Lemma Permutation_filter_length {A} (p : A -> bool) (l l' : list A) :
  Permutation l l' ->
  List.length (filter p l) = List.length (filter p l').
Proof.
  intros H. induction H as [|x l l' H IH|x y l|l l' l'' H1 IH1 H2 IH2];
    simpl; try congruence.
  - destruct (p x); simpl; congruence.
  - destruct (p x), (p y); reflexivity.
Qed.

(** ** The stable sort is unique *)

(** Two lists sorted by per-person price that hold, for every price, the
    same offers in the same order are equal: whatever stable sorting
    algorithm [list.sort] runs, its result is the list [sort_by_price_pp]
    computes. *)
Lemma stable_sorted_unique :
  forall l1 l2 : list itinerary,
    Forall pp_ok l1 -> Forall pp_ok l2 ->
    StronglySorted pp_le l1 -> StronglySorted pp_le l2 ->
    (forall v, priced v l1 = priced v l2) ->
    l1 = l2.
Proof.
  assert (Hhead : forall a t, pp_ok a ->
            priced (pp a) (a :: t) = a :: priced (pp a) t).
  { intros a t Ha. unfold priced. simpl.
    now rewrite PyFloatFacts.eqb_refl. }
  assert (Hle : forall a t x, pp_ok a -> Forall pp_ok t ->
            StronglySorted pp_le (a :: t) -> In x (a :: t) -> pp_le a x).
  { intros a t x Ha Ht Hs [<-|Hx].
    - unfold pp_le. apply PyFloatFacts.leb_total; auto.
      destruct (PyFloat.ltb (pp a) (pp a)) eqn:E; [|reflexivity].
      apply PyFloatFacts.ltb_rank in E; auto.
      destruct (FloatTerms.rank (pp a)) as [[a1 a2] a3].
      unfold FloatTerms.lt3 in E. lia.
    - inversion Hs as [|? ? _ Hall]; subst.
      rewrite Forall_forall in Hall. now apply Hall. }
  induction l1 as [|a t1 IH]; intros [|b t2] Hok1 Hok2 Hs1 Hs2 Hpriced.
  - reflexivity.
  - inversion Hok2 as [|? ? Hb _]; subst.
    specialize (Hpriced (pp b)). rewrite (Hhead b t2 Hb) in Hpriced.
    discriminate.
  - inversion Hok1 as [|? ? Ha _]; subst.
    specialize (Hpriced (pp a)). rewrite (Hhead a t1 Ha) in Hpriced.
    discriminate.
  - inversion Hok1 as [|? ? Ha Ht1]; subst.
    inversion Hok2 as [|? ? Hb Ht2]; subst.
    assert (Hain : In a (b :: t2)).
    { pose proof (Hpriced (pp a)) as H. rewrite (Hhead a t1 Ha) in H.
      assert (Hin : In a (priced (pp a) (b :: t2)))
        by (rewrite <- H; now left).
      unfold priced in Hin. now apply filter_In in Hin. }
    assert (Hbin : In b (a :: t1)).
    { pose proof (Hpriced (pp b)) as H. rewrite (Hhead b t2 Hb) in H.
      assert (Hin : In b (priced (pp b) (a :: t1)))
        by (rewrite H; now left).
      unfold priced in Hin. now apply filter_In in Hin. }
    assert (Heq : PyFloat.eqb (pp b) (pp a) = true).
    { apply PyFloatFacts.leb_antisym; auto.
      - exact (Hle b t2 a Hb Ht2 Hs2 Hain).
      - exact (Hle a t1 b Ha Ht1 Hs1 Hbin). }
    assert (Hab : a = b).
    { pose proof (Hpriced (pp a)) as H. rewrite (Hhead a t1 Ha) in H.
      unfold priced in H. simpl in H. rewrite Heq in H. now injection H. }
    subst b. f_equal.
    inversion Hs1; subst. inversion Hs2; subst.
    apply IH; auto.
    intros v. specialize (Hpriced v). unfold priced in *. simpl in Hpriced.
    destruct (PyFloat.eqb (pp a) v); [now injection Hpriced|exact Hpriced].
Qed.

(** ** The ranking does not look at the return leg *)

Lemma dedup_from_outbound :
  forall l1 l2 seen,
    map outbound l1 = map outbound l2 ->
    map outbound (dedup_from seen l1) = map outbound (dedup_from seen l2).
Proof.
  induction l1 as [|a l1 IH]; intros [|b l2] seen H; try discriminate;
    [reflexivity|].
  simpl in H. injection H as Hab Hrest.
  cbn [dedup_from]. unfold key_of. rewrite Hab.
  destruct (in_seen _ seen); cbn [map]; [|rewrite Hab; f_equal]; now apply IH.
Qed.

Lemma insert_sorted_outbound (x y : itinerary) :
  outbound x = outbound y ->
  forall l1 l2,
    map outbound l1 = map outbound l2 ->
    map outbound (insert_sorted x l1) = map outbound (insert_sorted y l2).
Proof.
  intros Hxy.
  induction l1 as [|a l1 IH]; intros [|b l2] H; try discriminate; simpl.
  - now rewrite Hxy.
  - simpl in H. injection H as Hab Hrest. unfold pp. rewrite Hxy, Hab.
    destruct (PyFloat.ltb _ _); simpl.
    + now rewrite Hxy, Hab, Hrest.
    + rewrite Hab. f_equal. now apply IH.
Qed.

Lemma sort_by_price_pp_outbound (l1 l2 : list itinerary) :
  map outbound l1 = map outbound l2 ->
  map outbound (sort_by_price_pp l1) = map outbound (sort_by_price_pp l2).
Proof.
  unfold sort_by_price_pp.
  assert (H : forall l1 l2 acc1 acc2,
            map outbound l1 = map outbound l2 ->
            map outbound acc1 = map outbound acc2 ->
            map outbound (fold_left (fun acc x => insert_sorted x acc) l1 acc1)
            = map outbound
                (fold_left (fun acc x => insert_sorted x acc) l2 acc2)).
  { clear. induction l1 as [|a l1 IH]; intros [|b l2] acc1 acc2 H Hacc;
      try discriminate; simpl; [assumption|].
    simpl in H. injection H as Hab Hrest.
    apply IH; [assumption|]. now apply insert_sorted_outbound. }
  intros Hl. now apply H.
Qed.

Lemma merge_map_outbound (d : returns_dict) (fs : list offer) :
  map outbound (map (merge d) fs) = fs.
Proof.
  induction fs as [|f fs IH]; simpl; [reflexivity|].
  now rewrite merge_outbound, IH.
Qed.

(** ** A sample run *)

Lemma sample_run_completes :
  main sample_url sample_world sample_run_cfg 3 739923
  = Returned (Completed sample_report).
Proof. vm_compute. reflexivity. Qed.

Lemma sample_adults_ok : adults_ok sample_run_cfg.
Proof. eexists. split; vm_compute; reflexivity. Qed.

Section RunClaims.

Variable build_url : list FlightData -> trip -> Z -> string -> string.
Variable world : nat -> string -> page_script.
Variable cfg : config.

(** What the last lines of [main] guarantee of a completed run. *)
Lemma ranked_output_facts (fuel : nat) (today : date)
    (date_pairs : list date_pair) (st : phase1_state)
    (returns : returns_dict) (r : report) :
  completed_run build_url world cfg fuel today date_pairs st returns r ->
  let merged := map (merge returns) st.(all_flights) in
  Permutation (first_seen merged) r.(unique_flights)
  /\ (forall f, In f merged ->
        exists pre g post,
          merged = pre ++ g :: post
          /\ key_eqb (key_of f) (key_of g) = true
          /\ (forall h, In h pre -> key_eqb (key_of f) (key_of h) = false)
          /\ In g r.(unique_flights))
  /\ (forall k,
        (List.length (filter (fun g => key_eqb k (key_of g))
                        r.(unique_flights)) <= 1)%nat)
  /\ StronglySorted pp_le r.(unique_flights)
  /\ (forall v, priced v r.(unique_flights) = priced v (first_seen merged)).
Proof.
  intros Hrun.
  destruct Hrun as [_ _ H1 _ _ _ _ Hfl].
  apply phase1_spec in H1 as (_ & _ & _ & _ & Hoffers).
  set (merged := map (merge returns) st.(all_flights)) in *.
  cbv zeta.
  assert (Hok : Forall (fun f => PyFloat.is_nan f.(outbound).(price_total)
                                 = false
                                 /\ pp_ok f) merged).
  { subst merged. apply Forall_map. eapply Forall_impl; [|exact Hoffers].
    intros o (origin & p & _ & _ & Hb). unfold pp_ok, pp.
    rewrite merge_outbound. eapply built_for_not_nan. exact Hb. }
  assert (Hperm : Permutation (first_seen merged) r.(unique_flights)).
  { rewrite Hfl, <- dedup_first_seen. apply sort_by_price_pp_perm. }
  assert (Hded : Forall pp_ok (dedup merged)).
  { rewrite Forall_forall in *. intros f Hf.
    apply dedup_from_incl in Hf. now apply Hok. }
  split; [exact Hperm|]. split; [|split; [|split]].
  - intros f Hf.
    destruct (first_seen_first merged f Hf)
      as (pre & g & post & Hm & Hg & Hpre & Hin).
    { apply key_eqb_refl. rewrite Forall_forall in Hok. now apply Hok. }
    exists pre, g, post. repeat split; auto.
    eapply Permutation_in; eassumption.
  - intros k. rewrite <- (Permutation_filter_length _ _ _ Hperm).
    apply distinct_keys_at_most_one.
    rewrite <- dedup_first_seen. apply (dedup_from_distinct merged []).
  - rewrite Hfl. now apply sort_by_price_pp_sorted.
  - intros v. rewrite Hfl, <- dedup_first_seen.
    now apply sort_by_price_pp_sorted.
Qed.


(** C9.  A Phase-1 offer whose (return date, origin) has no return-leg
    record is completed by the merge with its own airline as [ret_airline],
    its own stops and stops label as [ret_stops] and [ret_stops_detail], and
    the marker "N/D" as [ret_duration]; the merge keeps its outbound fields.
    It then reaches the final output like any other offer: the first offer
    seen with its key is in the output (itself, unless an earlier offer has
    the same key), and which offers the output holds does not depend on the
    return-leg records at all. *)
Theorem merge_fallback_keeps_offer (fuel : nat) (today : date) (r : report) :
  main build_url world cfg fuel today = Returned (Completed r) ->
  exists date_pairs st returns,
    completed_run build_url world cfg fuel today date_pairs st returns r
    /\ (forall f,
          In f st.(all_flights) ->
          returns_get (f.(ret_date), f.(origin_code)) returns = None ->
          let m := merge returns f in
          m.(outbound) = f
          /\ m.(ret).(ret_airline) = f.(airline)
          /\ m.(ret).(ret_stops) = f.(stops)
          /\ m.(ret).(ret_stops_detail) = f.(stops_detail)
          /\ m.(ret).(ret_duration) = "N/D"
          /\ exists pre g post,
               map (merge returns) st.(all_flights) = pre ++ g :: post
               /\ key_eqb (key_of m) (key_of g) = true
               /\ (forall h, In h pre ->
                     key_eqb (key_of m) (key_of h) = false)
               /\ In g r.(unique_flights))
    /\ (forall returns',
          map outbound
            (sort_by_price_pp (dedup (map (merge returns') st.(all_flights))))
          = map outbound r.(unique_flights)).
Proof.
  intros H. apply main_completed in H as (dps & st & returns & Hrun).
  destruct (ranked_output_facts _ _ _ _ _ _ Hrun) as (_ & Hrep & _).
  exists dps, st, returns. split; [exact Hrun|]. split.
  - intros f Hf Hnone m.
    assert (Hm : m = {| outbound := f;
                        ret := {| ret_airline := f.(airline);
                                  ret_departure := "";
                                  ret_arrival := "";
                                  ret_duration := "N/D";
                                  ret_stops := f.(stops);
                                  ret_stops_detail := f.(stops_detail) |} |}).
    { subst m. unfold merge. now rewrite Hnone. }
    rewrite Hm at 1 2 3 4 5. simpl. repeat split.
    apply Hrep. now apply in_map.
  - intros returns'. destruct Hrun as [_ _ _ _ _ _ _ ->].
    apply sort_by_price_pp_outbound, dedup_from_outbound.
    now rewrite !merge_map_outbound.
Qed.

(** The keys of [unique_returns]: the distinct (return date, origin) pairs
    of the sampled date pairs and the configured origins. *)
Lemma collect_returns_keys (date_pairs : list date_pair)
    (origins : list string) :
  let d := collect_returns date_pairs origins in
  NoDup (keys d)
  /\ (forall k, In k (keys d)
                <-> exists p origin,
                      In p date_pairs /\ In origin origins
                      /\ k = (pair_ret p, origin))
  /\ (forall k, returns_get k d = None).
Proof.
  cbv zeta. rewrite collect_returns_fold.
  destruct (fold_dict_set_spec (referenced_keys date_pairs origins) [])
    as (Hnd & Hin & Hnone); [constructor|reflexivity|].
  split; [exact Hnd|]. split; [|exact Hnone].
  intros k. rewrite Hin. unfold referenced_keys. simpl.
  rewrite in_flat_map. split.
  - intros [[]|(p & Hp & Hk)]. apply in_map_iff in Hk as (o & <- & Ho). eauto.
  - intros (p & o & Hp & Ho & ->). right. exists p. split; [assumption|].
    apply in_map_iff. eauto.
Qed.

Lemma one_way_searches_outbound (os : list string)
    (date_pairs : list date_pair) (tr : list event) :
  searches tr = outbound_queries cfg os date_pairs ->
  one_way_searches tr = [].
Proof.
  unfold one_way_searches. intros ->. unfold outbound_queries.
  assert (Hnone : forall o ps,
            filter (fun q => match snd q with OneWay => true | _ => false end)
              (map (outbound_query cfg o) ps) = []).
  { intros o ps. induction ps as [|p ps IHp]; simpl; auto. }
  induction os as [|o os IH]; simpl; [reflexivity|].
  now rewrite filter_app, map_app, IH, app_nil_r, Hnone.
Qed.

Lemma one_way_searches_return (ks : list return_key) (tr : list event) :
  searches tr = map (return_query cfg) ks ->
  one_way_searches tr = map (fun k => one_way_legs cfg (snd k) (fst k)) ks.
Proof.
  unfold one_way_searches. intros ->.
  induction ks as [|k ks IH]; simpl; [reflexivity|]. now rewrite IH.
Qed.

Lemma one_way_searches_app (tr1 tr2 : list event) :
  one_way_searches (tr1 ++ tr2)
  = one_way_searches tr1 ++ one_way_searches tr2.
Proof.
  unfold one_way_searches. now rewrite searches_app, filter_app, map_app.
Qed.

(** What phase 2 does in a completed run. *)
Lemma completed_run_phase2 (fuel : nat) (today : date)
    (date_pairs : list date_pair) (st : phase1_state)
    (returns : returns_dict) (r : report) :
  completed_run build_url world cfg fuel today date_pairs st returns r ->
  let ks := keys (collect_returns date_pairs cfg.(origins)) in
  searches r.(run_trace)
  = outbound_queries cfg cfg.(origins) date_pairs
    ++ map (return_query cfg) ks
  /\ logged_errors r.(run_trace)
     = raised_from build_url world cfg 0
         (outbound_queries cfg cfg.(origins) date_pairs
          ++ map (return_query cfg) ks)
  /\ r.(search_errors)
     = List.length (raised_from build_url world cfg 0
                      (outbound_queries cfg cfg.(origins) date_pairs))
  /\ (forall i k, nth_error ks i = Some k ->
        returns_get k returns
        = return_pick build_url world cfg (st.(search_count) + i) k).
Proof.
  intros [_ _ H1 (tr2 & H2 & Htr) Herr _ _ _]. cbv zeta.
  apply phase1_spec in H1 as (Hc & Hs & Hl & He & _).
  destruct (collect_returns_keys date_pairs cfg.(origins))
    as (Hnd & _ & Hnone).
  unfold phase2 in H2.
  apply phase2_keys_spec in H2 as (_ & Hs2 & Hl2 & _ & Hpick);
    [|assumption|apply incl_refl].
  simpl in Hs2, Hl2.
  rewrite Htr, searches_app, logged_errors_app, Hs, Hs2, Hl, Hl2, Herr, He.
  rewrite raised_from_app, Hc. simpl. repeat split.
  intros i k Hi. rewrite (Hpick i k Hi), Hnone, <- Hc.
  now destruct (return_pick _ _ _ _ _).
Qed.

(** C3, amended.  The Phase-2 one-way searches of a run are exactly the
    distinct (return date, origin) pairs of the sampled date pairs and the
    configured origins, one search per pair and in first-insertion order,
    whether or not Phase 1 found an offer for the pair; the pairs that
    Phase-1 offers refer to are among them.  Each search records the first
    listing within the stop limit (nothing when the search fails or no
    listing qualifies). *)
Theorem return_searches_cover_sampled_keys (fuel : nat) (today : date)
    (r : report) :
  main build_url world cfg fuel today = Returned (Completed r) ->
  exists date_pairs st returns,
    completed_run build_url world cfg fuel today date_pairs st returns r
    /\ let ks := keys (collect_returns date_pairs cfg.(origins)) in
       NoDup ks
       /\ (forall k, In k ks
                     <-> exists p origin,
                           In p date_pairs /\ In origin cfg.(origins)
                           /\ k = (pair_ret p, origin))
       /\ one_way_searches r.(run_trace)
          = map (fun k => one_way_legs cfg (snd k) (fst k)) ks
       /\ r.(return_searches) = List.length ks
       /\ (forall f, In f st.(all_flights) ->
             In (f.(ret_date), f.(origin_code)) ks)
       /\ (forall i k, nth_error ks i = Some k ->
             returns_get k returns
             = match fst (run_search build_url world
                            (st.(search_count) + i)
                            (one_way_legs cfg (snd k) (fst k)) OneWay
                            cfg.(adults)) with
               | Some res =>
                   option_map ret_info_of
                     (find (fun f => parse_stops f.(Extractor.stops)
                                     <=? cfg.(max_stops))
                        res.(Extractor.flights))
               | None => None
               end).
Proof.
  intros H. apply main_completed in H as (dps & st & returns & Hrun).
  exists dps, st, returns. split; [exact Hrun|]. cbv zeta.
  destruct (collect_returns_keys dps cfg.(origins)) as (Hnd & Hin & _).
  destruct (completed_run_phase2 _ _ _ _ _ _ Hrun) as (Hs & _ & _ & Hpick).
  pose proof Hrun as [_ _ H1 (tr2 & H2 & Htr) _ _ Hret _].
  apply phase1_spec in H1 as (_ & Hs1 & _ & _ & Hoffers).
  split; [exact Hnd|]. split; [exact Hin|]. split; [|split; [|split]].
  - rewrite Htr, one_way_searches_app.
    rewrite (one_way_searches_outbound _ _ _ Hs1). simpl.
    apply one_way_searches_return.
    rewrite Htr, searches_app, Hs1 in Hs. now apply app_inv_head in Hs.
  - rewrite Hret. unfold keys. now rewrite length_map.
  - intros f Hf. rewrite Forall_forall in Hoffers.
    destruct (Hoffers f Hf) as (origin & p & Ho & Hp & Hb).
    apply Hin. exists p, origin. repeat split; auto.
    now rewrite (bf_ret _ _ _ _ _ _ Hb), (bf_origin _ _ _ _ _ _ Hb).
  - intros i k Hi. rewrite (Hpick i k Hi).
    unfold return_pick, search_return_flights.
    destruct (run_search _ _ _ _ _ _) as [[res|] logged]; simpl; [|reflexivity].
    apply first_within_stops_find.
Qed.


End RunClaims.

(** ** The claims on the sample run *)


Lemma merge_fallback_keeps_offer_witness :
  main sample_url sample_world sample_run_cfg 3 739923
  = Returned (Completed sample_report)
  /\ (exists date_pairs st returns,
    completed_run sample_url sample_world sample_run_cfg 3 739923
      date_pairs st returns sample_report
    /\ (forall f,
          In f st.(all_flights) ->
          returns_get (f.(ret_date), f.(origin_code)) returns = None ->
          let m := merge returns f in
          m.(outbound) = f
          /\ m.(ret).(ret_airline) = f.(airline)
          /\ m.(ret).(ret_stops) = f.(stops)
          /\ m.(ret).(ret_stops_detail) = f.(stops_detail)
          /\ m.(ret).(ret_duration) = "N/D"
          /\ exists pre g post,
               map (merge returns) st.(all_flights) = pre ++ g :: post
               /\ key_eqb (key_of m) (key_of g) = true
               /\ (forall h, In h pre ->
                     key_eqb (key_of m) (key_of h) = false)
               /\ In g sample_report.(unique_flights))
    /\ (forall returns',
          map outbound
            (sort_by_price_pp (dedup (map (merge returns') st.(all_flights))))
          = map outbound sample_report.(unique_flights))).
Proof.
  assert (H : main sample_url sample_world sample_run_cfg 3 739923
              = Returned (Completed sample_report))
    by (vm_compute; reflexivity).
  split; [exact H|].
  exact (merge_fallback_keeps_offer sample_url sample_world
           sample_run_cfg 3 739923 sample_report H).
Defined.

Lemma return_searches_cover_sampled_keys_witness :
  main sample_url sample_world sample_run_cfg 3 739923
  = Returned (Completed sample_report)
  /\ (exists date_pairs st returns,
    completed_run sample_url sample_world sample_run_cfg 3 739923
      date_pairs st returns sample_report
    /\ let ks := keys (collect_returns date_pairs sample_run_cfg.(origins)) in
       NoDup ks
       /\ (forall k, In k ks
                     <-> exists p origin,
                           In p date_pairs /\ In origin sample_run_cfg.(origins)
                           /\ k = (pair_ret p, origin))
       /\ one_way_searches sample_report.(run_trace)
          = map (fun k => one_way_legs sample_run_cfg (snd k) (fst k)) ks
       /\ sample_report.(return_searches) = List.length ks
       /\ (forall f, In f st.(all_flights) ->
             In (f.(ret_date), f.(origin_code)) ks)
       /\ (forall i k, nth_error ks i = Some k ->
             returns_get k returns
             = match fst (run_search sample_url sample_world
                            (st.(search_count) + i)
                            (one_way_legs sample_run_cfg (snd k) (fst k)) OneWay
                            sample_run_cfg.(adults)) with
               | Some res =>
                   option_map ret_info_of
                     (find (fun f => parse_stops f.(Extractor.stops)
                                     <=? sample_run_cfg.(max_stops))
                        res.(Extractor.flights))
               | None => None
               end)).
Proof.
  assert (H : main sample_url sample_world sample_run_cfg 3 739923
              = Returned (Completed sample_report))
    by (vm_compute; reflexivity).
  split; [exact H|].
  exact (return_searches_cover_sampled_keys sample_url sample_world
           sample_run_cfg 3 739923 sample_report H).
Defined.


(** In the sample run two searches time out, one of them in phase 1. *)
Lemma sample_run_errors :
  logged_errors sample_report.(run_trace) = [TimeoutError; TimeoutError]
  /\ sample_report.(search_errors) = 1%nat
  /\ List.length (searches sample_report.(run_trace)) = 8%nat.
Proof. repeat split; vm_compute; reflexivity. Qed.


(** C3, counterexample.  When Phase 1 finds no offer at all, Phase 2 still
    searches the return leg of every sampled (return date, origin) pair. *)
Lemma return_searches_without_offers :
  main sample_url quiet_world sample_run_cfg 3 739923
  = Returned (Completed quiet_report)
  /\ (exists st,
        phase1 sample_url quiet_world sample_run_cfg sample_pairs = Ok st
        /\ st.(all_flights) = []
        /\ ~ searches_exactly_offer_keys sample_run_cfg st.(all_flights)
              quiet_report.(run_trace))
  /\ List.length (one_way_searches quiet_report.(run_trace)) = 4%nat.
Proof.
  split; [vm_compute; reflexivity|]. split; [|vm_compute; reflexivity].
  eexists. split; [vm_compute; reflexivity|]. split; [reflexivity|].
  intros H. destruct (H (739927, "MXP")) as [Hin _].
  apply Hin. vm_compute. now left.
Qed.


(** The offer of the sample: 1200 in total, 600 per person, nonstop. *)
Lemma sample_offer_prices :
  sample_offer.(price_total) = PyFloat.lit 1200
  /\ sample_offer.(price_pp) = PyFloat.lit 600
  /\ sample_offer.(stops) = 0.
Proof. repeat split; vm_compute; reflexivity. Qed.

(** In the sample run the two offers from Malpensa have no return-leg
    record: they are in the output with the fallback return leg. *)
Lemma sample_run_fallbacks :
  map (fun m => (m.(outbound).(airline), m.(ret).(ret_airline),
                 m.(ret).(ret_duration)))
    sample_report.(unique_flights)
  = [("F", "I", "10 hr"); ("B", "B", "N/D"); ("A", "A", "N/D")].
Proof. vm_compute. reflexivity. Qed.

(** Every passenger count from 1 to 9 can divide a price. *)
Lemma adults_ok_small (cfg : config) :
  1 <= cfg.(adults) <= 9 -> adults_ok cfg.
Proof.
  unfold adults_ok. generalize cfg.(adults). intros n Hn.
  assert (Hcases : n = 1 \/ n = 2 \/ n = 3 \/ n = 4 \/ n = 5 \/ n = 6
                   \/ n = 7 \/ n = 8 \/ n = 9) by lia.
  repeat destruct Hcases as [->|Hcases]; try subst n;
    eexists; split; vm_compute; reflexivity.
Qed.

(** The ranking example of the specification: per-person prices 220, 150,
    300 come out as 150, 220, 300. *)
Lemma ranking_example :
  map pp (sort_by_price_pp [offer_with 440 220 "A" "10 hr";
                            offer_with 300 150 "B" "10 hr";
                            offer_with 600 300 "C" "10 hr"])
  = [PyFloat.lit 150; PyFloat.lit 220; PyFloat.lit 300].
Proof. vm_compute. reflexivity. Qed.

(** The deduplication example of the specification: two offers with the
    same key collapse to the first, whatever their duration text. *)
Lemma dedup_example :
  dedup [offer_with 440 220 "A" "10 hr"; offer_with 440 220 "A" "12 hr 5 min"]
  = [offer_with 440 220 "A" "10 hr"].
Proof. vm_compute. reflexivity. Qed.

End OrchestratorFacts.

(* ================================================================== *)
(** * Further properties of the float model *)

Module PyFloatExtras.
Import PyFloat FloatTerms ExtraTerms.

Lemma binary_round_aux_sign (s : bool) (mx ex : Z) (lx : location) :
  0 <= mx -> has_sign s (binary_round_aux prec emax s mx ex lx).
Proof.
  intros H. unfold binary_round_aux.
  pose proof (PyFloatFacts.shr_fexp_nonneg mx ex lx H) as H1.
  destruct (shr_fexp prec emax mx ex lx) as [mrs' e']. simpl in H1.
  pose proof (PyFloatFacts.shr_fexp_nonneg _ e' loc_Exact
                (PyFloatFacts.round_nearest_even_nonneg _
                   (loc_of_shr_record mrs') H1)) as H2.
  destruct (shr_fexp prec emax _ e' loc_Exact) as [mrs'' e'']. simpl in H2.
  destruct (shr_m mrs'') as [|m|m]; [reflexivity| |lia].
  now destruct (e'' <=? emax - prec).
Qed.

Lemma SFdiv_sign (sx sy : bool) (mx my : positive) (ex ey : Z) :
  has_sign (xorb sx sy)
    (SFdiv prec emax (S754_finite sx mx ex) (S754_finite sy my ey)).
Proof.
  unfold SFdiv, SFdiv_core_binary.
  set (e' := Z.min _ _). set (s := ex - ey - e').
  set (m' := match s with Zpos _ => _ | Z0 => _ | Zneg _ => _ end).
  assert (Hm' : 0 <= m').
  { subst m'. destruct s; try lia. apply Z.shiftl_nonneg. lia. }
  pose proof (Z_div_mod m' (Zpos my) eq_refl) as Hdiv.
  destruct (Z.div_eucl m' (Zpos my)) as [q r].
  apply binary_round_aux_sign. nia.
Qed.

Lemma of_ratio_sign (s : bool) (m : Z) (d : positive) :
  has_sign s (of_ratio s m d).
Proof.
  unfold of_ratio. destruct m; try reflexivity.
  pose proof (SFdiv_sign s false p d 0 0) as H.
  now rewrite xorb_false_r in H.
Qed.

Lemma has_sign_nonneg (x : float) :
  has_sign false x -> leb (S754_zero false) x = true.
Proof. destruct x as [[]|[]| |[] m e]; simpl; try easy. Qed.

Lemma has_sign_not_nan (s : bool) (x : float) :
  has_sign s x -> is_nan x = false.
Proof. now destruct x. Qed.

End PyFloatExtras.

(* ================================================================== *)
(** * Further properties of the normaliser *)

Module NormalizerExtras.
Import PyStr Normalizer NormalizerTerms ExtraTerms.


Lemma filter_all (p : ascii -> bool) (s : string) :
  forallb p s = true -> filter p s = s.
Proof.
  induction s as [|c s IH]; simpl; [reflexivity|].
  intros H. apply andb_true_iff in H as [Hc Hs]. rewrite Hc. f_equal. auto.
Qed.



Lemma parse_price_sign (s : string) (x : PyFloat.float) :
  parse_price s = Some x -> has_sign false x.
Proof.
  unfold parse_price. destruct s as [|c s]; [discriminate|].
  unfold float_of_decimal.
  destruct (span_digits _) as [ip rest].
  destruct rest as [|c' fp].
  - destruct ip; [discriminate|].
    intros [= <-]. apply PyFloatExtras.of_ratio_sign.
  - destruct (_ && _); [|discriminate].
    intros [= <-]. apply PyFloatExtras.of_ratio_sign.
Qed.

(** X2.  A price that [parse_price] returns is never NaN and never
    negative: [0.0 <= price] holds (the price may be [inf], for a numeral
    beyond the range of a float). *)
Theorem parse_price_is_nonnegative (s : string) (x : PyFloat.float) :
  parse_price s = Some x ->
  PyFloat.is_nan x = false /\ PyFloat.leb (PyFloat.lit 0) x = true.
Proof.
  intros H. apply parse_price_sign in H. split.
  - eapply PyFloatExtras.has_sign_not_nan. exact H.
  - now apply PyFloatExtras.has_sign_nonneg.
Qed.

Lemma parse_price_is_nonnegative_witness :
  PyFloat.is_nan (PyFloat.lit 1234.56) = false
  /\ PyFloat.leb (PyFloat.lit 0) (PyFloat.lit 1234.56) = true.
Proof.
  apply (parse_price_is_nonnegative "€1,234.56").
  vm_compute. reflexivity.
Defined.

(** ** Separators *)

Lemma forallb_app_inv (p : ascii -> bool) (s t : string) :
  forallb p (s ++ t)%string = true ->
  forallb p s = true /\ forallb p t = true.
Proof.
  induction s as [|c s IH]; simpl; [auto|].
  intros H. apply andb_true_iff in H as [Hc Hs].
  rewrite Hc. simpl. auto.
Qed.

Lemma mem_append (c : ascii) (s t : string) :
  mem c (s ++ t)%string = mem c s || mem c t.
Proof.
  induction s as [|d s IH]; simpl; [reflexivity|].
  now rewrite IH, orb_assoc.
Qed.

Lemma mem_outside (p : ascii -> bool) (c : ascii) (s : string) :
  p c = false -> forallb p s = true -> mem c s = false.
Proof.
  intros Hc. induction s as [|d s IH]; simpl; [reflexivity|].
  intros H. apply andb_true_iff in H as [Hd Hs].
  rewrite (IH Hs), orb_false_r.
  destruct (Ascii.eqb c d) eqn:E; [|reflexivity].
  apply Ascii.eqb_eq in E. congruence.
Qed.

Lemma append_assoc (a b c : string) :
  (a ++ (b ++ c))%string = ((a ++ b) ++ c)%string.
Proof. induction a as [|d a IH]; simpl; [reflexivity|]. now rewrite IH. Qed.

Lemma append_empty_r (a : string) : (a ++ "")%string = a.
Proof. induction a as [|d a IH]; simpl; [reflexivity|]. now rewrite IH. Qed.

Lemma replace_append (c : ascii) (t a b : string) :
  replace c t (a ++ b)%string = (replace c t a ++ replace c t b)%string.
Proof.
  induction a as [|d a IH]; simpl; [reflexivity|].
  destruct (Ascii.eqb c d); rewrite IH; [|reflexivity].
  apply append_assoc.
Qed.

Lemma replace_absent (c : ascii) (t s : string) :
  mem c s = false -> replace c t s = s.
Proof.
  induction s as [|d s IH]; simpl; [reflexivity|].
  intros H. apply orb_false_iff in H as [Hd Hs].
  rewrite Hd. f_equal. auto.
Qed.

Lemma rindex_last (c : ascii) (a b : string) :
  mem c b = false ->
  rindex c (a ++ String c b)%string = Some (String.length a).
Proof.
  intros Hb.
  assert (Hnone : rindex c b = None).
  { clear a. induction b as [|d b IH]; simpl; [reflexivity|].
    simpl in Hb. apply orb_false_iff in Hb as [Hd Hb].
    now rewrite (IH Hb), Hd. }
  induction a as [|d a IH]; simpl.
  - now rewrite Hnone, Ascii.eqb_refl.
  - now rewrite IH.
Qed.

Lemma rindex_before (c d : ascii) (a b : string) :
  mem c b = false -> Ascii.eqb c d = false -> mem c a = true ->
  exists i, rindex c (a ++ String d b)%string = Some i
            /\ (i < String.length a)%nat.
Proof.
  intros Hb Hcd.
  assert (Hnone : rindex c (String d b) = None).
  { simpl. rewrite Hcd.
    assert (H : rindex c b = None).
    { clear - Hb. induction b as [|e b IH]; simpl; [reflexivity|].
      simpl in Hb. apply orb_false_iff in Hb as [He Hb].
      now rewrite (IH Hb), He. }
    now rewrite H. }
  induction a as [|e a IH]; simpl; [discriminate|].
  intros Ha.
  destruct (mem c a) eqn:Ema.
  - destruct (IH eq_refl) as (i & -> & Hi). exists (S i). split; [auto|lia].
  - rewrite orb_false_r in Ha.
    assert (Hr : rindex c (a ++ String d b)%string = None).
    { clear - Ema Hnone. induction a as [|f a IHa]; simpl; [exact Hnone|].
      simpl in Ema. apply orb_false_iff in Ema as [Hf Ha].
      now rewrite (IHa Ha), Hf. }
    rewrite Hr, Ha. exists 0%nat. split; [reflexivity|lia].
Qed.

Lemma split_last (c : ascii) (a b : string) :
  mem c b = false ->
  exists p ps, split c (a ++ String c b)%string = p :: ps ++ [b].
Proof.
  intros Hb.
  assert (Hsb : split c b = [b]).
  { clear a. induction b as [|d b IH]; simpl; [reflexivity|].
    simpl in Hb. apply orb_false_iff in Hb as [Hd Hb].
    now rewrite Hd, (IH Hb). }
  induction a as [|d a IH]; simpl.
  - rewrite Ascii.eqb_refl, Hsb. now exists EmptyString, [].
  - destruct IH as (p & ps & ->).
    destruct (Ascii.eqb c d).
    + now exists EmptyString, (p :: ps).
    + now exists (String d p), ps.
Qed.

Lemma last_part_split (c : ascii) (a b : string) :
  mem c b = false ->
  last_part (split c (a ++ String c b)%string) = b.
Proof.
  intros Hb. destruct (split_last c a b Hb) as (p & ps & ->).
  unfold last_part.
  change (p :: ps ++ [b]) with ((p :: ps) ++ [b]).
  apply List.last_last.
Qed.

(** A numeral without commas is handed to [float] as it is. *)
Lemma clean_price_numeral (s : string) :
  forallb digit_or_point s = true -> clean_price s = s.
Proof.
  intros H. unfold clean_price.
  assert (Hpc : forallb price_char s = true).
  { eapply NormalizerFacts.forallb_weaken; [|exact H].
    intros d Hd. unfold digit_or_point in Hd. unfold price_char.
    apply orb_true_iff in Hd as [Hd | Hd]; rewrite Hd; [reflexivity|].
    now rewrite orb_true_r. }
  rewrite (filter_all _ _ Hpc).
  now rewrite (mem_outside digit_or_point "," s eq_refl H).
Qed.

Lemma parse_price_nonempty (s : string) :
  s <> EmptyString ->
  parse_price s = match float_of_decimal (clean_price s) with
                  | Ok x => Some x
                  | Raise _ => None
                  end.
Proof. destruct s; [congruence|reflexivity]. Qed.

Lemma append_nonempty (a : string) (c : ascii) (b : string) :
  (a ++ String c b)%string <> EmptyString.
Proof. destruct a; discriminate. Qed.

Lemma span_digits_all (s : string) :
  forallb is_digit s = true -> span_digits s = (s, EmptyString).
Proof.
  induction s as [|c s IH]; simpl; [reflexivity|].
  intros H. apply andb_true_iff in H as [Hc Hs].
  now rewrite Hc, (IH Hs).
Qed.

Lemma span_digits_stop (ip : string) (c : ascii) (r : string) :
  forallb is_digit ip = true -> is_digit c = false ->
  span_digits (ip ++ String c r)%string = (ip, String c r).
Proof.
  intros Hip Hc. induction ip as [|d ip IH]; simpl.
  - now rewrite Hc.
  - simpl in Hip. apply andb_true_iff in Hip as [Hd Hip].
    now rewrite Hd, (IH Hip).
Qed.

Lemma float_of_decimal_digits (s : string) :
  forallb is_digit s = true -> s <> EmptyString ->
  float_of_decimal s = Ok (decimal_value s "").
Proof.
  intros Hs Hne. unfold float_of_decimal, decimal_value.
  rewrite (span_digits_all s Hs), append_empty_r.
  destruct s; [congruence|reflexivity].
Qed.

Lemma float_of_decimal_point (ip fp : string) :
  forallb is_digit ip = true -> forallb is_digit fp = true ->
  (ip ++ fp)%string <> EmptyString ->
  float_of_decimal (ip ++ String "." fp)%string = Ok (decimal_value ip fp).
Proof.
  intros Hip Hfp Hne. unfold float_of_decimal, decimal_value.
  rewrite (span_digits_stop ip "." fp Hip eq_refl).
  rewrite Hfp. simpl.
  destruct ip; [destruct fp; [now elim Hne|reflexivity]|reflexivity].
Qed.

(** A string with two points is no float numeral. *)
Lemma float_of_decimal_two_points (x y : string) :
  mem "." x = true ->
  float_of_decimal (x ++ String "." y)%string = Raise ValueError.
Proof.
  intros Hx. unfold float_of_decimal.
  assert (H : exists ip c fp,
             span_digits (x ++ String "." y)%string = (ip, String c fp)
             /\ (Ascii.eqb c "." = false \/ forallb is_digit fp = false)).
  { induction x as [|d x IH]; [discriminate|].
    change (mem "." (String d x)) with (Ascii.eqb "." d || mem "." x) in Hx.
    cbn [append span_digits].
    destruct (is_digit d) eqn:Ed.
    - assert (Hd : Ascii.eqb "." d = false).
      { destruct (Ascii.eqb "." d) eqn:E; [|reflexivity].
        apply Ascii.eqb_eq in E. subst d. discriminate. }
      rewrite Hd in Hx. destruct (IH Hx) as (ip & c & fp & -> & Hor).
      now exists (String d ip), c, fp.
    - exists EmptyString, d, (x ++ String "." y)%string. split; [reflexivity|].
      destruct (Ascii.eqb d ".") eqn:E; [right|now left].
      clear. induction x as [|e x IHx]; simpl; [reflexivity|].
      rewrite IHx. apply andb_false_r. }
  destruct H as (ip & c & fp & -> & [Hc|Hfp]).
  - now rewrite Hc.
  - rewrite Hfp, andb_false_r. reflexivity.
Qed.

Lemma digits_price_chars (p : ascii -> bool) (s : string) :
  (forall d, p d = true -> price_char d = true) ->
  forallb p s = true -> filter price_char s = s.
Proof.
  intros Hp H. apply filter_all. eapply NormalizerFacts.forallb_weaken; eauto.
Qed.

Lemma price_char_digit (d : ascii) : is_digit d = true -> price_char d = true.
Proof. unfold price_char. now intros ->. Qed.

Lemma price_char_digit_or_comma (d : ascii) :
  digit_or_comma d = true -> price_char d = true.
Proof.
  unfold price_char, digit_or_comma. intros H.
  apply orb_true_iff in H as [H | H]; rewrite H; [reflexivity|].
  apply orb_true_r.
Qed.

Lemma price_char_digit_or_point (d : ascii) :
  digit_or_point d = true -> price_char d = true.
Proof.
  unfold price_char, digit_or_point. intros H.
  apply orb_true_iff in H as [H | H]; rewrite H; [reflexivity|].
  now rewrite orb_true_r.
Qed.

Lemma price_chars_joined (p : ascii -> bool) (a : string) (c : ascii)
    (b : string) :
  (forall d, p d = true -> price_char d = true) ->
  price_char c = true ->
  forallb p a = true -> forallb is_digit b = true ->
  filter price_char (a ++ String c b)%string = (a ++ String c b)%string.
Proof.
  intros Hp Hc Ha Hb. apply filter_all. apply NormalizerFacts.forallb_append.
  - eapply NormalizerFacts.forallb_weaken; eauto.
  - simpl. rewrite Hc. simpl.
    eapply NormalizerFacts.forallb_weaken; [|exact Hb].
    exact price_char_digit.
Qed.

(** The string handed to [float] for a price whose only separators are
    commas. *)
Lemma clean_price_commas (a b : string) :
  forallb digit_or_comma a = true -> forallb is_digit b = true ->
  clean_price (a ++ String "," b)%string
  = if (String.length b =? 3)%nat
    then (replace "," "" a ++ b)%string
    else (replace "," "." a ++ String "." b)%string.
Proof.
  intros Ha Hb. unfold clean_price.
  rewrite (price_chars_joined digit_or_comma a "," b
             price_char_digit_or_comma eq_refl Ha Hb).
  assert (Hbc : mem "," b = false) by now apply (mem_outside is_digit).
  assert (Hpt : mem "." (a ++ String "," b)%string = false).
  { rewrite mem_append. simpl.
    rewrite (mem_outside digit_or_comma "." a eq_refl Ha).
    now rewrite (mem_outside is_digit "." b eq_refl Hb). }
  assert (Hcm : mem "," (a ++ String "," b)%string = true).
  { rewrite mem_append. simpl. apply orb_true_r. }
  rewrite Hpt, Hcm. simpl.
  rewrite (last_part_split "," a b Hbc).
  rewrite !replace_append. simpl.
  rewrite !(replace_absent "," _ b Hbc).
  reflexivity.
Qed.

(** Removing the group separators of a grouped integer part leaves its
    digits. *)
Lemma digits_of_grouped (p : ascii -> bool) (c : ascii) (a : string) :
  (forall d, p d = true -> Ascii.eqb c d = false -> is_digit d = true) ->
  forallb p a = true -> forallb is_digit (replace c "" a) = true.
Proof.
  intros Hp Ha. now apply NormalizerFacts.forallb_replace with (p := p).
Qed.

Lemma digit_or_comma_digit (d : ascii) :
  digit_or_comma d = true -> Ascii.eqb "," d = false -> is_digit d = true.
Proof.
  unfold digit_or_comma. intros H E.
  apply orb_true_iff in H as [H | H]; [exact H|].
  rewrite Ascii.eqb_sym in H. congruence.
Qed.

Lemma digit_or_point_digit (d : ascii) :
  digit_or_point d = true -> Ascii.eqb "." d = false -> is_digit d = true.
Proof.
  unfold digit_or_point. intros H E.
  apply orb_true_iff in H as [H | H]; [exact H|].
  rewrite Ascii.eqb_sym in H. congruence.
Qed.

Lemma mem_replaced (c e : ascii) (a : string) :
  mem c a = true -> mem e (replace c (String e "") a) = true.
Proof.
  induction a as [|d a IH]; simpl; [discriminate|].
  destruct (Ascii.eqb c d) eqn:E; simpl.
  - intros _. now rewrite Ascii.eqb_refl.
  - intros H. rewrite (IH H). apply orb_true_r.
Qed.

(** X3.  A comma followed by exactly three digits at the end of a price
    written with digits and commas is a thousands separator: every comma
    is dropped and the price is the integer that remains (["1,234"] is
    1234, ["1,234,567"] is 1234567). *)
Theorem comma_before_three_digits_is_thousands (a b : string) :
  forallb digit_or_comma a = true -> forallb is_digit b = true ->
  String.length b = 3%nat ->
  parse_price (a ++ "," ++ b)
  = Some (decimal_value (replace "," "" a ++ b) "").
Proof.
  intros Ha Hb Hlen. change ("," ++ b)%string with (String "," b).
  rewrite parse_price_nonempty by apply append_nonempty.
  rewrite (clean_price_commas a b Ha Hb), Hlen. simpl.
  rewrite float_of_decimal_digits; [reflexivity| |].
  - apply NormalizerFacts.forallb_append; [|exact Hb].
    exact (digits_of_grouped _ _ _ digit_or_comma_digit Ha).
  - destruct b; [discriminate|].
    destruct (replace "," "" a); discriminate.
Qed.

Lemma comma_before_three_digits_is_thousands_witness :
  parse_price "1,234,567" = Some (decimal_value "1234567" "").
Proof.
  apply (comma_before_three_digits_is_thousands "1,234" "567");
    reflexivity.
Defined.

(** X4.  A single comma that is not followed by exactly three digits is
    a decimal comma: the price of [a,b] is the value of the numeral
    [a.b] (["12,5"] is 12.5, ["1,2345"] is 1.2345). *)
Theorem lone_comma_is_decimal (a b : string) :
  forallb is_digit a = true -> forallb is_digit b = true ->
  String.length b <> 3%nat -> (a ++ b)%string <> EmptyString ->
  parse_price (a ++ "," ++ b) = Some (decimal_value a b).
Proof.
  intros Ha Hb Hlen Hne. change ("," ++ b)%string with (String "," b).
  rewrite parse_price_nonempty by apply append_nonempty.
  assert (Hac : forallb digit_or_comma a = true).
  { eapply NormalizerFacts.forallb_weaken; [|exact Ha].
    unfold digit_or_comma. now intros d ->. }
  rewrite (clean_price_commas a b Hac Hb).
  apply Nat.eqb_neq in Hlen. rewrite Hlen.
  rewrite (replace_absent "," "." a)
    by now apply (mem_outside is_digit).
  now rewrite float_of_decimal_point.
Qed.

Lemma lone_comma_is_decimal_witness :
  parse_price "12,5" = Some (decimal_value "12" "5").
Proof.
  apply (lone_comma_is_decimal "12" "5");
    [reflexivity|reflexivity|discriminate|discriminate].
Defined.

(** X5.  A price with several commas whose last group has not exactly
    three digits is rejected: every comma becomes a point, [float] raises
    [ValueError] and [parse_price] returns [None] (["1,234,56"]). *)
Theorem grouped_commas_with_odd_tail_rejected (a b : string) :
  forallb digit_or_comma a = true -> mem "," a = true ->
  forallb is_digit b = true -> String.length b <> 3%nat ->
  parse_price (a ++ "," ++ b) = None.
Proof.
  intros Ha Hm Hb Hlen. change ("," ++ b)%string with (String "," b).
  rewrite parse_price_nonempty by apply append_nonempty.
  rewrite (clean_price_commas a b Ha Hb).
  apply Nat.eqb_neq in Hlen. rewrite Hlen.
  rewrite float_of_decimal_two_points; [reflexivity|].
  now apply mem_replaced.
Qed.

Lemma grouped_commas_with_odd_tail_rejected_witness :
  parse_price "1,234,56" = None.
Proof.
  apply (grouped_commas_with_odd_tail_rejected "1,234" "56");
    [reflexivity|reflexivity|reflexivity|discriminate].
Defined.

(** X6.  A single point is always a decimal point, also before exactly
    three digits: the price of [a.b] is the value of the numeral [a.b],
    so that a thousands point is read as a decimal one (["1.234"] is
    1.234), unlike a thousands comma. *)
Theorem lone_point_is_decimal (a b : string) :
  forallb is_digit a = true -> forallb is_digit b = true ->
  (a ++ b)%string <> EmptyString ->
  parse_price (a ++ "." ++ b) = Some (decimal_value a b).
Proof.
  intros Ha Hb Hne. change ("." ++ b)%string with (String "." b).
  rewrite parse_price_nonempty by apply append_nonempty.
  rewrite clean_price_numeral.
  - now rewrite float_of_decimal_point.
  - apply NormalizerFacts.forallb_append.
    + eapply NormalizerFacts.forallb_weaken; [|exact Ha].
      unfold digit_or_point. now intros d ->.
    + simpl. eapply NormalizerFacts.forallb_weaken; [|exact Hb].
      unfold digit_or_point. now intros d ->.
Qed.

Lemma lone_point_is_decimal_witness :
  parse_price "1.234" = Some (decimal_value "1" "234").
Proof.
  apply (lone_point_is_decimal "1" "234");
    [reflexivity|reflexivity|discriminate].
Defined.

(** X7.  European notation: in a price with points and then one final
    comma, the points are thousands separators and the comma is the
    decimal mark (["1.234,56"] is 1234.56). *)
Theorem points_then_comma_is_european (a b : string) :
  forallb digit_or_point a = true -> mem "." a = true ->
  forallb is_digit b = true ->
  (replace "." "" a ++ b)%string <> EmptyString ->
  parse_price (a ++ "," ++ b) = Some (decimal_value (replace "." "" a) b).
Proof.
  intros Ha Hm Hb Hne. change ("," ++ b)%string with (String "," b).
  rewrite parse_price_nonempty by apply append_nonempty.
  unfold clean_price.
  rewrite (price_chars_joined digit_or_point a "," b
             price_char_digit_or_point eq_refl Ha Hb).
  assert (Hbc : mem "," b = false) by now apply (mem_outside is_digit).
  assert (Hbp : mem "." b = false) by now apply (mem_outside is_digit).
  assert (Hcm : mem "," (a ++ String "," b)%string = true).
  { rewrite mem_append. simpl. apply orb_true_r. }
  assert (Hpt : mem "." (a ++ String "," b)%string = true).
  { rewrite mem_append, Hm. reflexivity. }
  rewrite Hcm, Hpt. simpl.
  rewrite (rindex_last "," a b Hbc).
  destruct (rindex_before "." "," a b Hbp eq_refl Hm) as (i & -> & Hi).
  apply Nat.ltb_lt in Hi. rewrite Hi.
  assert (Hd : forallb is_digit (replace "." "" a) = true)
    by exact (digits_of_grouped _ _ _ digit_or_point_digit Ha).
  rewrite (replace_append "." "" a). simpl.
  rewrite (replace_absent "." "" b Hbp).
  rewrite replace_append. simpl.
  rewrite (replace_absent "," "." b Hbc).
  rewrite (replace_absent "," "." (replace "." "" a))
    by now apply (mem_outside is_digit).
  now rewrite float_of_decimal_point.
Qed.

Lemma points_then_comma_is_european_witness :
  parse_price "1.234.567,89" = Some (decimal_value "1234567" "89").
Proof.
  apply (points_then_comma_is_european "1.234.567" "89");
    [reflexivity|reflexivity|reflexivity|discriminate].
Defined.

(** X8.  US notation: in a price with commas and then one final point,
    the commas are thousands separators and the point is the decimal mark
    (["1,234.56"] is 1234.56). *)
Theorem commas_then_point_is_us (a b : string) :
  forallb digit_or_comma a = true -> mem "," a = true ->
  forallb is_digit b = true ->
  (replace "," "" a ++ b)%string <> EmptyString ->
  parse_price (a ++ "." ++ b) = Some (decimal_value (replace "," "" a) b).
Proof.
  intros Ha Hm Hb Hne. change ("." ++ b)%string with (String "." b).
  rewrite parse_price_nonempty by apply append_nonempty.
  unfold clean_price.
  rewrite (price_chars_joined digit_or_comma a "." b
             price_char_digit_or_comma eq_refl Ha Hb).
  assert (Hbc : mem "," b = false) by now apply (mem_outside is_digit).
  assert (Hbp : mem "." b = false) by now apply (mem_outside is_digit).
  assert (Hcm : mem "," (a ++ String "." b)%string = true).
  { rewrite mem_append, Hm. reflexivity. }
  assert (Hpt : mem "." (a ++ String "." b)%string = true).
  { rewrite mem_append. simpl. apply orb_true_r. }
  rewrite Hcm, Hpt. simpl.
  rewrite (rindex_last "." a b Hbp).
  destruct (rindex_before "," "." a b Hbc eq_refl Hm) as (i & -> & Hi).
  assert (Hge : (String.length a <? i)%nat = false)
    by (apply Nat.ltb_ge; lia).
  rewrite Hge.
  assert (Hd : forallb is_digit (replace "," "" a) = true)
    by exact (digits_of_grouped _ _ _ digit_or_comma_digit Ha).
  rewrite (replace_append "," "" a). simpl.
  rewrite (replace_absent "," "" b Hbc).
  now rewrite float_of_decimal_point.
Qed.

Lemma commas_then_point_is_us_witness :
  parse_price "1,234,567.89" = Some (decimal_value "1234567" "89").
Proof.
  apply (commas_then_point_is_us "1,234,567" "89");
    [reflexivity|reflexivity|reflexivity|discriminate].
Defined.

(** ** Stop labels *)









Lemma digit_value_nonneg (c : ascii) : is_digit c = true -> 0 <= digit_value c.
Proof.
  unfold is_digit, digit_value. intros H.
  apply andb_true_iff in H as [H _]. apply Nat.leb_le in H. lia.
Qed.

Lemma int_of_digits_nonneg (ds : string) (acc : Z) :
  forallb is_digit ds = true -> 0 <= acc -> 0 <= int_of_digits acc ds.
Proof.
  revert acc.
  induction ds as [|c ds IH]; cbn [forallb int_of_digits];
    intros acc H Hacc; [lia|].
  apply andb_true_iff in H as [Hc Hds].
  apply IH; [exact Hds|]. pose proof (digit_value_nonneg c Hc). lia.
Qed.

Lemma span_digits_digits (s : string) :
  forallb is_digit (fst (span_digits s)) = true.
Proof.
  induction s as [|c s IH]; simpl; [reflexivity|].
  destruct (is_digit c) eqn:E; [|reflexivity].
  destruct (span_digits s) as [d t]. simpl in *. now rewrite E.
Qed.

Lemma first_digit_run_digits (s ds : string) :
  first_digit_run s = Some ds -> forallb is_digit ds = true.
Proof.
  induction s as [|c s IH]; [discriminate|].
  cbn [first_digit_run]. destruct (is_digit c) eqn:Ec; [|exact IH].
  intros [= <-]. apply (span_digits_digits (String c s)).
Qed.

Lemma parse_stops_nonneg (s : string) : 0 <= parse_stops s.
Proof.
  unfold parse_stops. destruct s as [|c s]; [lia|].
  destruct (_ || _); [lia|].
  destruct (first_digit_run _) as [ds|] eqn:E; [|lia].
  apply int_of_digits_nonneg; [|lia].
  exact (first_digit_run_digits _ _ E).
Qed.

(** X9.  The number of stops that [parse_stops] returns is never
    negative, whatever the label. *)
Theorem parse_stops_is_nonnegative (s : string) : 0 <= parse_stops s.
Proof. apply parse_stops_nonneg. Qed.











End NormalizerExtras.

(* ================================================================== *)
(** * Further properties of the date sampler *)

Module SamplerExtras.
Import Dates Sampler SamplerTerms ExtraTerms.

Lemma departures_from_nil (first last step : Z) :
  1 <= step -> last < first -> departures_from first last step = [].
Proof.
  intros Hstep Hlt. unfold departures_from.
  assert (H : (last - first) / step < 0)
    by (apply Z.div_lt_upper_bound; lia).
  replace (Z.to_nat _) with 0%nat by lia. reflexivity.
Qed.

Lemma departures_from_cons (first last step : Z) :
  1 <= step -> first <= last ->
  departures_from first last step
  = first :: departures_from (first + step) last step.
Proof.
  intros Hstep Hle. unfold departures_from.
  assert (Hq : 0 <= (last - first) / step) by (apply Z.div_pos; lia).
  assert (Hshift : (last - (first + step)) / step = (last - first) / step - 1).
  { replace (last - (first + step)) with (last - first + (-1) * step) by lia.
    rewrite Z.div_add by lia. lia. }
  rewrite Hshift.
  replace (Z.to_nat ((last - first) / step + 1))
    with (S (Z.to_nat ((last - first) / step))) by lia.
  replace ((last - first) / step - 1 + 1) with ((last - first) / step) by lia.
  cbn [seq map]. f_equal; [lia|].
  rewrite <- seq_shift, map_map. apply map_ext. intros k. lia.
Qed.

Lemma departures_from_length (first last step : Z) :
  List.length (departures_from first last step)
  = Z.to_nat ((last - first) / step + 1).
Proof. unfold departures_from. now rewrite length_map, length_seq. Qed.

Lemma departures_from_bounds (first last step : Z) :
  1 <= step ->
  Forall (fun d => first <= d <= last) (departures_from first last step).
Proof.
  intros Hstep. unfold departures_from. apply Forall_forall. intros d Hd.
  apply in_map_iff in Hd as (k & <- & Hk). apply in_seq in Hk.
  destruct (Z.le_gt_cases first last) as [Hle|Hgt].
  - assert (Hq : 0 <= (last - first) / step) by (apply Z.div_pos; lia).
    assert (Hk' : Z.of_nat k <= (last - first) / step) by lia.
    assert (Hm : step * ((last - first) / step) <= last - first)
      by (apply Z.mul_div_le; lia).
    nia.
  - assert (H : (last - first) / step < 0)
      by (apply Z.div_lt_upper_bound; lia).
    lia.
Qed.

(** The loop of the sampler visits the departure dates [current],
    [current + step], ... up to [effective_end], and appends what each of
    them emits. *)
Lemma while_current_exact (step : Z) (options : list Z)
    (eend max_date : date) :
  1 <= step ->
  forall fuel current pairs out,
    while_current fuel step options eend max_date current pairs
      = Returned out ->
    out = pairs ++ flat_map (fun d => emitted max_date d options)
                     (departures_from current eend step).
Proof.
  intros Hstep.
  induction fuel as [|fuel IH]; simpl; intros current pairs out H;
    [discriminate|].
  destruct (current <=? eend) eqn:Ecur.
  - apply Z.leb_le in Ecur.
    destruct (for_nights max_date current options pairs) as [pairs'|e] eqn:Ef;
      [|discriminate].
    destruct (add_days current step) as [current'|e] eqn:Ea; [|discriminate].
    apply SamplerFacts.for_nights_ok in Ef.
    apply SamplerFacts.add_days_ok in Ea as [-> _].
    apply IH in H. subst.
    rewrite (departures_from_cons current eend step Hstep Ecur).
    cbn [flat_map]. now rewrite app_assoc.
  - apply Z.leb_gt in Ecur. injection H as <-.
    rewrite departures_from_nil by assumption. simpl. now rewrite app_nil_r.
Qed.

(** What a run of the sampler that returns has produced, whatever the
    step. *)
Lemma generate_returned_exact (fuel : nat) (today : date) (cfg : config)
    (pairs : list date_pair) (start max_date : date) :
  generate_date_pairs fuel today cfg = Returned (pairs, start, max_date) ->
  pairs = []
  \/ (1 <= step_of cfg /\ pairs = expected_pairs today cfg).
Proof.
  intros H. apply SamplerFacts.generate_returned in H
    as (_ & -> & [[_ ->]|[Hwin Hw]]); [now left|].
  destruct (Z.le_gt_cases 1 (step_of cfg)) as [Hstep|Hstep].
  - right. split; [assumption|].
    apply (while_current_exact _ _ _ _ Hstep) in Hw. exact Hw.
  - exfalso. revert Hw. apply SamplerFacts.while_current_stuck; lia.
Qed.

(** X12.  On a configuration with a step of at least one day and sizes
    that keep the date arithmetic within the calendar, the sampler returns
    (no exception), and its pairs are exactly these: the departure dates
    are the first day of the clipped window, then every [step] days while
    within the window; each departure date carries, in the order of the
    candidate list, the stays whose return is within the horizon. *)
Theorem sampler_walks_window_in_steps (today : date) (cfg : config)
    (fuel : nat) :
  MINORD <= today ->
  1 <= step_of cfg ->
  0 <= cfg.(nights_min) <= cfg.(nights_max) ->
  today + MAX_DAYS_AHEAD + cfg.(nights_max) <= MAXORD ->
  today + MAX_DAYS_AHEAD + step_of cfg <= MAXORD ->
  (Z.to_nat (effective_end today cfg - effective_start today cfg + 1)
   < fuel)%nat ->
  generate_date_pairs fuel today cfg
  = Returned (expected_pairs today cfg, cfg.(date_from),
              today + MAX_DAYS_AHEAD).
Proof.
  intros Hlo Hstep Hn Hmax Hsmax Hfuel.
  destruct (SamplerFacts.generate_date_pairs_returns today cfg Hlo Hstep Hn
              Hmax Hsmax fuel Hfuel) as [pairs Hret].
  rewrite Hret. do 3 f_equal.
  pose proof Hret as Hg.
  apply SamplerFacts.generate_returned in Hg
    as (_ & _ & [[Hwin ->]|[Hwin Hw]]).
  - unfold expected_pairs, departures.
    now rewrite departures_from_nil.
  - apply (while_current_exact _ _ _ _ Hstep) in Hw. exact Hw.
Qed.

Lemma sampler_walks_window_in_steps_witness :
  generate_date_pairs 11 a_day
    (sample_cfg (a_day + 1) (a_day + 10) 3 8 (Some 4))
  = Returned
      (expected_pairs a_day (sample_cfg (a_day + 1) (a_day + 10) 3 8 (Some 4)),
       a_day + 1, a_day + MAX_DAYS_AHEAD).
Proof.
  apply (sampler_walks_window_in_steps a_day
           (sample_cfg (a_day + 1) (a_day + 10) 3 8 (Some 4)) 11);
    vm_compute; try congruence; try lia; split; congruence.
Defined.

Lemma emitted_length (max_date d : date) (options : list Z) :
  (List.length (emitted max_date d options) <= List.length options)%nat.
Proof.
  unfold emitted. rewrite length_map. apply filter_length_le.
Qed.

Lemma flat_map_length_le {A B} (f : A -> list B) (n : nat) (l : list A) :
  (forall a, (List.length (f a) <= n)%nat) ->
  (List.length (flat_map f l) <= n * List.length l)%nat.
Proof.
  intros Hf. induction l as [|a l IH]; simpl; [lia|].
  rewrite length_app. specialize (Hf a). lia.
Qed.

Lemma nights_options_length (cfg : config) :
  (List.length (nights_options cfg) <= 3)%nat.
Proof. unfold nights_options. destruct (_ >? _); simpl; lia. Qed.

Lemma departures_length_le (today : date) (cfg : config) :
  1 <= step_of cfg ->
  (List.length (departures today cfg) <= 330)%nat.
Proof.
  intros Hstep. unfold departures. rewrite departures_from_length.
  unfold effective_start, effective_end, MAX_DAYS_AHEAD.
  set (w := Z.min (date_to cfg) (today + 330)
            - Z.max (date_from cfg) (today + 1)).
  assert (Hw : w <= 329) by (subst w; lia).
  destruct (Z.le_gt_cases 0 w) as [Hpos|Hneg].
  - assert (Hq : w / step_of cfg <= w)
      by (apply Z.div_le_upper_bound; nia).
    lia.
  - assert (H : w / step_of cfg < 0)
      by (apply Z.div_lt_upper_bound; lia).
    lia.
Qed.

(** X13.  The size of a run is bounded: the sampler returns at most three
    pairs for each departure date of the clipped window, and never more
    than 990 pairs, whatever the configuration (the window is clipped to
    the 330 days after today). *)
Theorem sampler_returns_at_most_990_pairs (fuel : nat) (today : date)
    (cfg : config) (pairs : list date_pair) (start max_date : date) :
  generate_date_pairs fuel today cfg = Returned (pairs, start, max_date) ->
  (List.length pairs <= 3 * List.length (departures today cfg))%nat
  /\ (List.length pairs <= 990)%nat.
Proof.
  intros H. apply generate_returned_exact in H as [->|[Hstep ->]].
  - simpl. lia.
  - assert (Hlen : (List.length (expected_pairs today cfg)
                    <= 3 * List.length (departures today cfg))%nat).
    { unfold expected_pairs. apply flat_map_length_le. intros d.
      etransitivity; [apply emitted_length|apply nights_options_length]. }
    pose proof (departures_length_le today cfg Hstep). lia.
Qed.

Lemma sampler_returns_at_most_990_pairs_witness :
  (List.length [(a_day + 326, a_day + 329, 3)%Z]
   <= 3 * List.length (departures a_day near_horizon_cfg))%nat
  /\ (List.length [(a_day + 326, a_day + 329, 3)%Z] <= 990)%nat.
Proof.
  apply (sampler_returns_at_most_990_pairs 2 a_day near_horizon_cfg
           [(a_day + 326, a_day + 329, 3)] (a_day + 326) (a_day + 330)).
  vm_compute. reflexivity.
Defined.

(** What holds of every pair of a run of the sampler that returns. *)
Lemma returned_pairs_facts (fuel : nat) (today : date)
    (cfg : config) (pairs : list date_pair) (start max_date : date) :
  generate_date_pairs fuel today cfg = Returned (pairs, start, max_date) ->
  Forall (fun p => today < pair_dep p
                   /\ cfg.(date_from) <= pair_dep p <= cfg.(date_to)
                   /\ pair_dep p <= today + MAX_DAYS_AHEAD
                   /\ In (pair_nights p) (nights_options cfg)
                   /\ pair_ret p = pair_dep p + pair_nights p
                   /\ pair_ret p <= today + MAX_DAYS_AHEAD) pairs.
Proof.
  intros H. apply generate_returned_exact in H as [->|[Hstep ->]];
    [constructor|].
  apply Forall_forall. intros p Hp.
  unfold expected_pairs in Hp. apply in_flat_map in Hp as (d & Hd & Hp).
  apply SamplerFacts.emitted_sound in Hp as (Hdep & Hret & Hmax & Hn).
  pose proof (departures_from_bounds (effective_start today cfg)
                (effective_end today cfg) (step_of cfg) Hstep) as Hb.
  rewrite Forall_forall in Hb. specialize (Hb _ Hd).
  unfold effective_start, effective_end in Hb. rewrite Hdep.
  repeat split; try lia; assumption.
Qed.

(** X14.  Every pair the sampler returns departs after today, within the
    configured window and within the horizon, and stays one of the
    candidate numbers of nights. *)
Theorem sampled_departures_within_window (fuel : nat) (today : date)
    (cfg : config) (pairs : list date_pair) (start max_date : date) :
  generate_date_pairs fuel today cfg = Returned (pairs, start, max_date) ->
  Forall (fun p => today < pair_dep p
                   /\ cfg.(date_from) <= pair_dep p <= cfg.(date_to)
                   /\ pair_dep p <= today + MAX_DAYS_AHEAD
                   /\ In (pair_nights p) (nights_options cfg)) pairs.
Proof.
  intros H. apply returned_pairs_facts in H.
  eapply Forall_impl; [|exact H]. simpl. tauto.
Qed.

Lemma sampled_departures_within_window_witness :
  Forall (fun p => a_day < pair_dep p
                   /\ near_horizon_cfg.(date_from) <= pair_dep p
                      <= near_horizon_cfg.(date_to)
                   /\ pair_dep p <= a_day + MAX_DAYS_AHEAD
                   /\ In (pair_nights p) (nights_options near_horizon_cfg))
    [(a_day + 326, a_day + 329, 3)].
Proof.
  apply (sampled_departures_within_window 2 a_day near_horizon_cfg
           [(a_day + 326, a_day + 329, 3)] (a_day + 326) (a_day + 330)).
  vm_compute. reflexivity.
Defined.

End SamplerExtras.

(* ================================================================== *)
(** * Further properties of the extractor *)

Module ExtractorExtras.
Import Extractor.



End ExtractorExtras.

(* ================================================================== *)
(** * Further properties of the orchestrator *)

Module OrchestratorExtras.
Import Dates Normalizer Sampler Orchestrator RunTerms SamplerTerms ExtraTerms.
Import Extractor(FlightData, Build_FlightData, trip, OneWay, RoundTrip,
                 SearchResult, ScrapedFlight, page_script, _fetch_flights).

(** ** Airport labels *)

Lemma dict_get_in {V} (k : string) (d : list (string * V)) (v : V) :
  dict_get k d = Some v -> In (k, v) d.
Proof.
  induction d as [|[k' v'] d IH]; simpl; [discriminate|].
  destruct (String.eqb k k') eqn:E.
  - apply String.eqb_eq in E. intros [= <-]. subst. now left.
  - intros H. right. auto.
Qed.

Lemma known_names_are_longer (c n : string) :
  In (c, n) KNOWN_AIRPORTS -> (3 < String.length n)%nat.
Proof.
  unfold KNOWN_AIRPORTS. simpl.
  intros H. repeat (destruct H as [[= <- <-]|H]; [simpl; lia|]).
  destruct H.
Qed.

Lemma known_names_differ (c1 c2 n : string) :
  In (c1, n) KNOWN_AIRPORTS -> In (c2, n) KNOWN_AIRPORTS -> c1 = c2.
Proof.
  unfold KNOWN_AIRPORTS. simpl. intros H1 H2.
  repeat (destruct H1 as [H1|H1]; [injection H1 as <- <-|]);
    try contradiction;
    repeat (destruct H2 as [H2|H2];
            [first [discriminate H2|congruence]|]);
    contradiction.
Qed.

(** X16.  The label of an origin identifies it: two three-letter codes
    with the same airport label are the same code, so that the label in the
    deduplication key stands for the origin airport. *)
Theorem airport_label_identifies_code (c1 c2 : string) :
  String.length c1 = 3%nat -> String.length c2 = 3%nat ->
  get_airport_name c1 = get_airport_name c2 -> c1 = c2.
Proof.
  unfold get_airport_name. intros H1 H2.
  destruct (dict_get c1 KNOWN_AIRPORTS) as [n1|] eqn:E1;
    destruct (dict_get c2 KNOWN_AIRPORTS) as [n2|] eqn:E2.
  - intros <-. apply dict_get_in in E1, E2.
    eapply known_names_differ; eassumption.
  - intros ->. apply dict_get_in, known_names_are_longer in E1. lia.
  - intros <-. apply dict_get_in, known_names_are_longer in E2. lia.
  - auto.
Qed.

Lemma airport_label_identifies_code_witness : "MXP" = "MXP".
Proof.
  apply (airport_label_identifies_code "MXP" "MXP"); reflexivity.
Defined.

Section RunExtras.

Variable build_url : list FlightData -> trip -> Z -> string -> string.
Variable world : nat -> string -> page_script.
Variable cfg : config.

(** ** What a report holds *)

Lemma reported_from_phase1 (fuel : nat) (today : date)
    (date_pairs : list date_pair) (st : phase1_state)
    (returns : returns_dict) (r : report) :
  completed_run build_url world cfg fuel today date_pairs st returns r ->
  forall f, In f r.(unique_flights) ->
    exists o, In o st.(all_flights) /\ f = merge returns o
              /\ offer_of_run cfg cfg.(origins) date_pairs o.
Proof.
  intros Hrun f Hf. pose proof Hrun as [_ _ H1 _ _ _ _ Hfl].
  rewrite Hfl in Hf.
  apply (Permutation_in _ (Permutation_sym
           (OrchestratorFacts.sort_by_price_pp_perm _))) in Hf.
  apply OrchestratorFacts.dedup_from_incl in Hf.
  apply in_map_iff in Hf as (o & <- & Ho).
  exists o. repeat split; [assumption|].
  apply OrchestratorFacts.phase1_spec in H1 as (_ & _ & _ & _ & Hoffers).
  rewrite Forall_forall in Hoffers. now apply Hoffers.
Qed.

(** Every record of the dictionary of return legs was made from a listing
    within the stop limit. *)
Lemma returns_within_stop_limit (fuel : nat) (today : date)
    (date_pairs : list date_pair) (st : phase1_state)
    (returns : returns_dict) (r : report) :
  completed_run build_url world cfg fuel today date_pairs st returns r ->
  forall k info, returns_get k returns = Some info ->
    exists f : ScrapedFlight,
      info = ret_info_of f
      /\ parse_stops f.(Extractor.stops) <= cfg.(max_stops).
Proof.
  intros [_ _ _ (tr2 & H2 & _) _ _ _ _] k info Hk.
  destruct (OrchestratorFacts.collect_returns_keys date_pairs cfg.(origins))
    as (Hnd & _ & Hnone).
  unfold phase2 in H2.
  apply OrchestratorFacts.phase2_keys_spec in H2
    as (_ & _ & _ & Hout & Hpick); [|assumption|apply incl_refl].
  destruct (in_dec OrchestratorFacts.return_key_eq_dec k
              (keys (collect_returns date_pairs cfg.(origins)))) as [Hin|Hin].
  - apply In_nth_error in Hin as [i Hi].
    rewrite (Hpick i k Hi), Hnone in Hk.
    unfold return_pick, search_return_flights in Hk.
    destruct (run_search _ _ _ _ _ _) as [[res|] logged]; simpl in Hk.
    + rewrite OrchestratorFacts.first_within_stops_find in Hk.
      destruct (find _ _) as [f|] eqn:Ef; [|discriminate].
      apply find_some in Ef as [_ Hf]. apply Z.leb_le in Hf.
      injection Hk as <-. now exists f.
    + discriminate.
  - rewrite (Hout k Hin), Hnone in Hk. discriminate.
Qed.

(** X17.  Both legs of every reported itinerary are within the stop
    limit: the outbound stops and the return stops are between 0 and
    [max_stops], whether the return leg was found by its own search or
    filled in from the outbound leg. *)
Theorem reported_itineraries_within_stop_limit (fuel : nat) (today : date)
    (r : report) :
  main build_url world cfg fuel today = Returned (Completed r) ->
  Forall (within_stop_limit cfg) r.(unique_flights).
Proof.
  intros H.
  apply OrchestratorFacts.main_completed in H as (dps & st & returns & Hrun).
  apply Forall_forall. intros f Hf.
  destruct (reported_from_phase1 _ _ _ _ _ _ Hrun f Hf)
    as (o & Ho & -> & (origin & p & _ & _ & Hb)).
  assert (Hout : 0 <= o.(stops) <= cfg.(max_stops)).
  { destruct Hb as [(l & _ & _ & Hs) _ Hmax _ _ _ _ _]. split; [|exact Hmax].
    rewrite Hs. apply NormalizerExtras.parse_stops_nonneg. }
  unfold within_stop_limit. rewrite OrchestratorFacts.merge_outbound.
  split; [exact Hout|].
  unfold merge.
  destruct (returns_get _ returns) as [info|] eqn:Eget; simpl; [|exact Hout].
  destruct (returns_within_stop_limit _ _ _ _ _ _ Hrun _ _ Eget)
    as (l & -> & Hl).
  simpl. split; [apply NormalizerExtras.parse_stops_nonneg|exact Hl].
Qed.

(** X18.  Every reported itinerary is one the run was asked to search:
    its origin is a configured origin and its label is the label of that
    origin; it departs after today, within the configured window; it stays
    one of the candidate numbers of nights; its return date is the
    departure date plus the nights, and is within the horizon of 330
    days. *)
Theorem reported_itineraries_as_requested (fuel : nat) (today : date)
    (r : report) :
  main build_url world cfg fuel today = Returned (Completed r) ->
  Forall (as_requested today cfg) r.(unique_flights).
Proof.
  intros H.
  apply OrchestratorFacts.main_completed in H as (dps & st & returns & Hrun).
  apply Forall_forall. intros f Hf.
  destruct (reported_from_phase1 _ _ _ _ _ _ Hrun f Hf)
    as (o & Ho & -> & (origin & p & Horigin & Hp & Hb)).
  destruct Hrun as [(start & maxd & Hg) _ _ _ _ _ _ _].
  apply SamplerExtras.returned_pairs_facts in Hg.
  rewrite Forall_forall in Hg.
  destruct (Hg p Hp) as (H1 & H2 & H3 & H4 & H5 & H6).
  destruct Hb as [_ _ _ Hdep Hret Hor Hair Hn].
  unfold as_requested. rewrite OrchestratorFacts.merge_outbound. cbv zeta.
  rewrite Hdep, Hret, Hor, Hair, Hn. auto 10.
Qed.

(** ** Search accounting *)

Lemma raised_from_length (qs : list (list FlightData * trip)) :
  forall n,
    (List.length (raised_from build_url world cfg n qs) <= List.length qs)%nat.
Proof.
  induction qs as [|q qs IH]; simpl; intros n; [lia|].
  rewrite length_app. specialize (IH (S n)).
  unfold raised_by. destruct (search_flights _ _ _ _ _ _ _); simpl; lia.
Qed.

Lemma referenced_keys_length (date_pairs : list date_pair)
    (origins : list string) :
  List.length (referenced_keys date_pairs origins)
  = (List.length date_pairs * List.length origins)%nat.
Proof.
  unfold referenced_keys.
  induction date_pairs as [|p ps IH]; [reflexivity|].
  cbn [flat_map]. rewrite length_app, length_map.
  cbn [List.length Nat.mul]. f_equal. exact IH.
Qed.

Lemma return_keys_length (date_pairs : list date_pair)
    (origins : list string) :
  (List.length (keys (collect_returns date_pairs origins))
   <= List.length date_pairs * List.length origins)%nat.
Proof.
  rewrite <- referenced_keys_length.
  destruct (OrchestratorFacts.collect_returns_keys date_pairs origins)
    as (Hnd & Hin & _).
  apply NoDup_incl_length; [exact Hnd|].
  intros k Hk. apply Hin in Hk as (p & o & Hp & Ho & ->).
  unfold referenced_keys. apply in_flat_map. exists p. split; [assumption|].
  apply in_map_iff. now exists o.
Qed.

(** X19.  The counts of a report add up: the searches made are the
    outbound searches followed by the return searches, one search each;
    there are at most as many return searches as outbound ones; the errors
    counted are at most the outbound searches, and every one of them was
    logged. *)
Theorem search_counts_add_up (fuel : nat) (today : date) (r : report) :
  main build_url world cfg fuel today = Returned (Completed r) ->
  List.length (searches r.(run_trace))
  = (r.(outbound_searches) + r.(return_searches))%nat
  /\ (r.(return_searches) <= r.(outbound_searches))%nat
  /\ (r.(search_errors) <= r.(outbound_searches))%nat
  /\ (r.(search_errors) <= List.length (logged_errors r.(run_trace)))%nat
  /\ (List.length (logged_errors r.(run_trace))
      <= r.(outbound_searches) + r.(return_searches))%nat.
Proof.
  intros H.
  apply OrchestratorFacts.main_completed in H as (dps & st & returns & Hrun).
  destruct (OrchestratorFacts.completed_run_phase2 _ _ _ _ _ _ _ _ _ Hrun)
    as (Hs & Hl & He & _).
  destruct Hrun as [_ _ _ _ _ Hout Hret _].
  pose proof (return_keys_length dps cfg.(origins)) as Hk.
  pose proof (OrchestratorFacts.outbound_queries_length cfg cfg.(origins) dps)
    as Hq.
  assert (Hr : r.(return_searches)
               = List.length (keys (collect_returns dps cfg.(origins)))).
  { rewrite Hret. unfold keys. now rewrite length_map. }
  rewrite Hs, Hl, He, Hout, Hr.
  rewrite OrchestratorFacts.raised_from_app.
  rewrite !length_app, length_map, Hq.
  pose proof (raised_from_length
                (outbound_queries cfg cfg.(origins) dps) 0) as B1.
  pose proof (raised_from_length
                (map (return_query cfg)
                   (keys (collect_returns dps cfg.(origins))))
                (0 + List.length (outbound_queries cfg cfg.(origins) dps)))
    as B2.
  rewrite length_map, Hq in B2. rewrite Hq in B1.
  repeat split; lia.
Qed.

(** ** Exceptions *)









(** ** No adult *)

Lemma div_by_zero_adults (x : PyFloat.float) :
  PyFloat.div_int x 0 = Raise ZeroDivisionError.
Proof. reflexivity. Qed.

Lemma process_listings_zero_adults (origin : string) (dep ret : date)
    (n : Z) :
  cfg.(adults) = 0 ->
  forall fs flights,
    process_listings build_url cfg fs origin dep ret n flights
    = if existsb has_price fs then Raise ZeroDivisionError else Ok flights.
Proof.
  intros Hz. induction fs as [|f fs IH]; simpl; intros flights; [reflexivity|].
  unfold has_price at 1.
  destruct (parse_price _) as [price|]; [|apply IH].
  now rewrite Hz, div_by_zero_adults.
Qed.

(** X21.  With no adult configured the share of a price cannot be
    computed, and it is computed before the stop filter: on the first
    listing whose price parses, also one beyond the stop limit,
    [process_results] raises [ZeroDivisionError]; it returns (the empty
    list) only when no price parses.  So a run with no adult never reports
    an offer. *)
Theorem zero_adults_fail_on_first_price :
  cfg.(adults) = 0 ->
  (forall (res : SearchResult) origin dep ret n,
     process_results build_url cfg (Some res) origin dep ret n
     = if existsb has_price res.(Extractor.flights)
       then Raise ZeroDivisionError else Ok [])
  /\ (forall fuel today r,
        main build_url world cfg fuel today = Returned (Completed r) ->
        r.(unique_flights) = []).
Proof.
  intros Hz. split.
  - intros res origin dep ret n. unfold process_results.
    now apply process_listings_zero_adults.
  - intros fuel today r H.
    apply OrchestratorFacts.main_completed in H
      as (dps & st & returns & Hrun).
    destruct Hrun as [_ _ H1 _ _ _ _ ->].
    apply OrchestratorFacts.phase1_spec in H1 as (_ & _ & _ & _ & Hoffers).
    destruct st.(all_flights) as [|o os]; [reflexivity|].
    inversion Hoffers as [|? ? (origin & p & _ & _ & Hb) _]; subst.
    destruct Hb as [_ (q & Hq & _) _ _ _ _ _ _].
    rewrite Hz, div_by_zero_adults in Hq. discriminate.
Qed.

(** ** Listings and offers *)



(** ** The threshold check *)

Lemma leb_not_nan_r (x y : PyFloat.float) :
  PyFloat.leb x y = true -> PyFloat.is_nan y = false.
Proof. destruct x, y; simpl; try reflexivity; discriminate. Qed.

Lemma leb_not_nan_l (x y : PyFloat.float) :
  PyFloat.leb x y = true -> PyFloat.is_nan x = false.
Proof. destruct x, y; simpl; try reflexivity; discriminate. Qed.

(** On a list sorted by price the offers at or under a threshold are the
    first ones. *)
Lemma good_deals_prefix (threshold : PyFloat.float) (l : list itinerary) :
  StronglySorted pp_le l ->
  exists rest,
    l = Alerting.good_deals threshold l ++ rest
    /\ Forall (fun f => PyFloat.leb (pp f) threshold = false) rest.
Proof.
  intros Hs. induction Hs as [|a l Hs IH Ha]; simpl.
  - now exists [].
  - destruct (PyFloat.leb (pp a) threshold) eqn:Ea.
    + destruct IH as (rest & Hl & Hrest). exists rest.
      split; [simpl; now f_equal|exact Hrest].
    + assert (Hall : Forall (fun f => PyFloat.leb (pp f) threshold = false) l).
      { rewrite Forall_forall in *. intros y Hy.
        destruct (PyFloat.leb (pp y) threshold) eqn:Ey; [|reflexivity].
        specialize (Ha y Hy). unfold pp_le in Ha.
        rewrite <- Ea. symmetry.
        eapply PyFloatFacts.leb_trans; try eassumption.
        - eapply leb_not_nan_l; eassumption.
        - eapply leb_not_nan_r; eassumption.
        - eapply leb_not_nan_r; eassumption. }
      exists (a :: l). split; [|now constructor].
      replace (Alerting.good_deals threshold l) with (@nil itinerary);
        [reflexivity|].
      symmetry. unfold Alerting.good_deals.
      clear - Hall. induction Hall as [|y l Hy _ IHl]; simpl; [reflexivity|].
      now rewrite Hy.
Qed.

Lemma good_deals_all (threshold : PyFloat.float) (l : list itinerary) :
  Forall (fun f => PyFloat.leb (pp f) threshold = true)
    (Alerting.good_deals threshold l).
Proof.
  apply Forall_forall. intros f Hf. unfold Alerting.good_deals in Hf.
  now apply filter_In in Hf.
Qed.

Lemma check_threshold_sound (threshold : PyFloat.float)
    (l : list itinerary) :
  StronglySorted pp_le l ->
  sound_verdict threshold l (Alerting.check_threshold threshold l).
Proof.
  intros Hs. destruct (good_deals_prefix threshold l Hs) as (rest & Hl & Hr).
  pose proof (good_deals_all threshold l) as Hall.
  unfold Alerting.check_threshold.
  destruct l as [|a l]; [reflexivity|].
  revert Hl Hall.
  destruct (Alerting.good_deals threshold (a :: l)) as [|best deals] eqn:Eg.
  - intros Hl _. simpl. repeat split. simpl in Hl. now rewrite <- Hl in Hr.
  - intros Hl Hall. cbn [app] in Hl. injection Hl as Hab Hl.
    cbn [sound_verdict hd_error]. rewrite Hab.
    split; [reflexivity|]. split; [now inversion Hall|].
    split; [reflexivity|].
    exists rest. split; [simpl; now rewrite Hl|]. now split.
Qed.

(** X22.  The threshold check of a completed run, for any threshold: an
    alert is raised exactly when the cheapest offer per person is at or
    under the threshold; the offers it carries are the first offers of the
    ranking, in rank order, and the offer of the notification is the
    cheapest one; every other offer is above the threshold.  When there is
    no alert, no offer is at or under the threshold and the price logged is
    that of the cheapest offer.  The history takes the first ten offers of
    the ranking either way. *)
Theorem alert_carries_the_cheapest_offers (fuel : nat) (today : date)
    (r : report) (threshold : PyFloat.float) :
  main build_url world cfg fuel today = Returned (Completed r) ->
  sound_verdict threshold r.(unique_flights)
    (Alerting.check_threshold threshold r.(unique_flights)).
Proof.
  intros H.
  apply OrchestratorFacts.main_completed in H as (dps & st & returns & Hrun).
  apply check_threshold_sound.
  now destruct (OrchestratorFacts.ranked_output_facts _ _ _ _ _ _ _ _ _ Hrun)
    as (_ & _ & _ & Hs & _).
Qed.

End RunExtras.

Lemma alert_carries_the_cheapest_offers_witness :
  sound_verdict (PyFloat.lit 600) sample_report.(unique_flights)
    (Alerting.check_threshold (PyFloat.lit 600)
       sample_report.(unique_flights)).
Proof.
  apply (alert_carries_the_cheapest_offers sample_url sample_world
           sample_run_cfg 3 739923 sample_report (PyFloat.lit 600)).
  vm_compute. reflexivity.
Defined.


Lemma zero_adults_fail_on_first_price_witness :
  (forall (res : SearchResult) origin dep ret n,
     process_results sample_url zero_adults_cfg (Some res) origin dep ret n
     = if existsb has_price res.(Extractor.flights)
       then Raise ZeroDivisionError else Ok [])
  /\ (forall fuel today r,
        main sample_url sample_world zero_adults_cfg fuel today
        = Returned (Completed r) ->
        r.(unique_flights) = []).
Proof.
  apply (zero_adults_fail_on_first_price sample_url sample_world
           zero_adults_cfg).
  reflexivity.
Defined.

Lemma reported_itineraries_within_stop_limit_witness :
  Forall (within_stop_limit sample_run_cfg) sample_report.(unique_flights).
Proof.
  apply (reported_itineraries_within_stop_limit sample_url sample_world
           sample_run_cfg 3 739923 sample_report).
  vm_compute. reflexivity.
Defined.

Lemma reported_itineraries_as_requested_witness :
  Forall (as_requested 739923 sample_run_cfg) sample_report.(unique_flights).
Proof.
  apply (reported_itineraries_as_requested sample_url sample_world
           sample_run_cfg 3 739923 sample_report).
  vm_compute. reflexivity.
Defined.

Lemma search_counts_add_up_witness :
  List.length (searches sample_report.(run_trace))
  = (sample_report.(outbound_searches)
     + sample_report.(return_searches))%nat
  /\ (sample_report.(return_searches)
      <= sample_report.(outbound_searches))%nat
  /\ (sample_report.(search_errors)
      <= sample_report.(outbound_searches))%nat
  /\ (sample_report.(search_errors)
      <= List.length (logged_errors sample_report.(run_trace)))%nat
  /\ (List.length (logged_errors sample_report.(run_trace))
      <= sample_report.(outbound_searches)
         + sample_report.(return_searches))%nat.
Proof.
  apply (search_counts_add_up sample_url sample_world sample_run_cfg
           3 739923 sample_report).
  vm_compute. reflexivity.
Defined.


End OrchestratorExtras.

(* ================================================================== *)
(** * Properties of the route label *)

Module LabelExtras.
Import Orchestrator Labels RunTerms ExtraTerms.

Lemma ascii_compare_lt_trans (a b c : ascii) :
  Ascii.compare a b = Lt -> Ascii.compare b c = Lt -> Ascii.compare a c = Lt.
Proof.
  unfold Ascii.compare. rewrite !N.compare_lt_iff. apply N.lt_trans.
Qed.

Lemma ascii_compare_refl (a : ascii) : Ascii.compare a a = Eq.
Proof. unfold Ascii.compare. apply N.compare_refl. Qed.

Lemma name_lt_irrefl (a : string) : ~ name_lt a a.
Proof.
  unfold name_lt. induction a as [|c a IH]; simpl; [discriminate|].
  now rewrite ascii_compare_refl.
Qed.

Lemma name_lt_trans (a b c : string) :
  name_lt a b -> name_lt b c -> name_lt a c.
Proof.
  unfold name_lt. revert b c.
  induction a as [|x a IH]; intros [|y b] [|z c]; simpl; try discriminate;
    try reflexivity.
  destruct (Ascii.compare x y) eqn:Exy; try discriminate;
    destruct (Ascii.compare y z) eqn:Eyz; try discriminate; intros H1 H2.
  - apply Ascii.compare_eq_iff in Exy, Eyz. subst.
    rewrite ascii_compare_refl. eauto.
  - apply Ascii.compare_eq_iff in Exy. subst. now rewrite Eyz.
  - apply Ascii.compare_eq_iff in Eyz. subst. now rewrite Exy.
  - now rewrite (ascii_compare_lt_trans _ _ _ Exy Eyz).
Qed.

Lemma compare_gt_lt (a b : string) :
  String.compare a b = Gt -> name_lt b a.
Proof.
  unfold name_lt. intros H. rewrite String.compare_antisym, H. reflexivity.
Qed.

Lemma insert_name_in (x : string) (l : list string) (n : string) :
  In n (insert_name x l) <-> n = x \/ In n l.
Proof.
  induction l as [|y r IH]; simpl; [intuition|].
  destruct (String.compare x y) eqn:E; simpl.
  - apply String.compare_eq_iff in E. subst. intuition.
  - intuition.
  - rewrite IH. intuition.
Qed.

Lemma insert_name_sorted (x : string) (l : list string) :
  StronglySorted name_lt l -> StronglySorted name_lt (insert_name x l).
Proof.
  intros Hs. induction Hs as [|y r Hs IH Hy]; simpl.
  - repeat constructor.
  - destruct (String.compare x y) eqn:E.
    + now constructor.
    + constructor; [now constructor|].
      constructor; [exact E|].
      eapply Forall_impl; [|exact Hy]. intros z Hz.
      eapply name_lt_trans; eassumption.
    + constructor; [exact IH|].
      apply Forall_forall. intros z Hz. apply insert_name_in in Hz as [->|Hz].
      * now apply compare_gt_lt.
      * rewrite Forall_forall in Hy. now apply Hy.
Qed.

Lemma sorted_set_in (l : list string) (n : string) :
  In n (sorted_set l) <-> In n l.
Proof.
  induction l as [|x l IH]; simpl; [tauto|].
  rewrite insert_name_in, IH. intuition.
Qed.

Lemma sorted_set_sorted (l : list string) :
  StronglySorted name_lt (sorted_set l).
Proof.
  induction l as [|x l IH]; simpl; [constructor|].
  now apply insert_name_sorted.
Qed.

Lemma strictly_sorted_unique (l1 l2 : list string) :
  StronglySorted name_lt l1 -> StronglySorted name_lt l2 ->
  (forall n, In n l1 <-> In n l2) -> l1 = l2.
Proof.
  intros H1. revert l2.
  induction H1 as [|a l1 H1 IH Ha]; intros l2 H2 Hsame.
  - destruct l2 as [|b l2]; [reflexivity|].
    destruct (proj2 (Hsame b)). now left.
  - destruct H2 as [|b l2 H2 Hb].
    { destruct (proj1 (Hsame a)). now left. }
    rewrite Forall_forall in Ha, Hb.
    assert (Hab : a = b).
    { destruct (proj1 (Hsame a) (or_introl eq_refl)) as [Hba|Hin];
        [now symmetry|].
      destruct (proj2 (Hsame b) (or_introl eq_refl)) as [Hab|Hin'];
        [assumption|].
      exfalso. apply (name_lt_irrefl a).
      eapply name_lt_trans; [apply Ha|apply Hb]; eassumption. }
    subst b. f_equal. apply IH; [assumption|].
    intros n. split; intros Hn.
    + destruct (proj1 (Hsame n) (or_intror Hn)) as [<-|Hin]; [|assumption].
      exfalso. apply (name_lt_irrefl a). now apply Ha.
    + destruct (proj2 (Hsame n) (or_intror Hn)) as [<-|Hin]; [|assumption].
      exfalso. apply (name_lt_irrefl a). now apply Hb.
Qed.

(** X23.  The route label depends on the origins only through the set of
    their airport names: listing the origins in another order, or one of
    them twice, gives the same label. *)
Theorem route_label_depends_on_name_set (cfg cfg' : config) :
  same_names cfg cfg' -> cfg.(destination) = cfg'.(destination) ->
  _route_label cfg = _route_label cfg'.
Proof.
  intros Hsame Hdest. unfold _route_label. rewrite Hdest.
  replace (sorted_set (map get_airport_name cfg'.(origins)))
    with (sorted_set (map get_airport_name cfg.(origins))); [reflexivity|].
  apply strictly_sorted_unique; try apply sorted_set_sorted.
  intros n. rewrite !sorted_set_in. apply Hsame.
Qed.

Lemma route_label_depends_on_name_set_witness :
  _route_label sample_run_cfg = _route_label reordered_cfg.
Proof.
  apply (route_label_depends_on_name_set sample_run_cfg reordered_cfg);
    [|reflexivity].
  intros n. simpl. tauto.
Defined.

End LabelExtras.
